(** * Earthquake ELT pipeline: a shallow embedding of [dags/earthquake_elt_dag.py]

    The development follows the source file top to bottom:

    - [Py]        exceptions and the error monad in which the task callables
                  and the SQL statements run;
    - [Text]      byte-level text helpers used by the SQL expressions;
    - [Regex]     the POSIX patterns of [TRANSFORM_SQL] and their matcher;
    - [Sql]       three-valued logic, NUMERIC casts, case folding and the
                  date functions;
    - [Unicode]   [normalize_column_name] over code points;
    - [Warehouse] the tables, [TRANSFORM_SQL] and
                  [AGGREGATE_STATISTICS_SQL];
    - [Dag]       the task callables, XCom and the task dependencies;
    - [Contract]  the specification's wording of some properties.

    The functions of the database server that the statements call, the
    date parsers and the case folding of the locale, are parameters of
    the model; [ReferenceDates] and [ReferenceLocale] implement them to
    run the examples.

    Definitions come first, the verified properties follow. *)

From Stdlib Require Import ZArith QArith Ascii String List Lia Lqa Bool.
From stdpp Require Import base option strings pretty gmap list.

Open Scope Z_scope.

(* ===================================================================== *)
(** ** Exceptions and the error monad *)
(* ===================================================================== *)

Module Py.

(** Errors the database server reports while it evaluates a statement. *)
Inductive db_error : Type :=
| DatetimeFieldError (text : string)      (* to_date / to_timestamp on text it cannot read *)
| NumericFieldOverflow (text : string)    (* CAST(... AS NUMERIC(p,s)) out of range *)
| InvalidNumericSyntax (text : string)    (* CAST(... AS NUMERIC) on non-numeric text *)
| NullFieldName.                          (* jsonb_object_agg: "field name must not be null" *)

(** Exceptions that leave a task callable. *)
Inductive exn : Type :=
| FileNotFoundError (path : string)
| DuplicateColumnNames                    (* pyarrow: "Duplicate column names found" *)
| CsvReadError                            (* pd.read_csv on what is not a CSV file *)
| ParquetReadError                        (* pd.read_parquet on a missing path *)
| ValidationFailed (expected : string) (got : Z)
                                          (* ValueError("Validation failed: Expected .., got ..") *)
| DatabaseError (e : db_error).

Inductive result (E A : Type) : Type :=
| Ok (a : A)
| Err (e : E).
Arguments Ok {E A} a.
Arguments Err {E A} e.

Definition bind {E A B} (m : result E A) (k : A → result E B) : result E B :=
  match m with
  | Ok a => k a
  | Err e => Err e
  end.

Definition is_ok {E A} (m : result E A) : bool :=
  match m with Ok _ => true | Err _ => false end.

(** [mapM]: evaluate [f] on every element, stop at the first error. *)
Fixpoint traverse {E A B} (f : A → result E B) (l : list A) : result E (list B) :=
  match l with
  | [] => Ok []
  | a :: l' =>
      bind (f a) (λ b, bind (traverse f l') (λ bs, Ok (b :: bs)))
  end.

(** A database error surfaces in the task as an exception. *)
Definition lift_db {A} (m : result db_error A) : result exn A :=
  match m with
  | Ok a => Ok a
  | Err e => Err (DatabaseError e)
  end.

End Py.

Export Py.

Notation "'let*' x ':=' m 'in' k" := (Py.bind m (λ x, k))
  (at level 10, x name, m at level 100, k at level 200).

(** What the server computes: a value or a [db_error]. *)
Abbreviation pg := (result db_error).

(* ===================================================================== *)
(** ** Text helpers (bytes) *)
(* ===================================================================== *)

Module Text.

Definition is_digit (c : ascii) : bool :=
  let n := N_of_ascii c in ((48 <=? n) && (n <=? 57))%N.

Definition is_space (c : ascii) : bool := (N_of_ascii c =? 32)%N.

Fixpoint ltrim (s : string) : string :=
  match s with
  | EmptyString => EmptyString
  | String c s' => if is_space c then ltrim s' else s
  end.

Fixpoint rtrim (s : string) : string :=
  match s with
  | EmptyString => EmptyString
  | String c s' =>
      match rtrim s' with
      | EmptyString => if is_space c then EmptyString else String c EmptyString
      | t => String c t
      end
  end.

(** SQL [TRIM(x)]: strips the space character (and only it) on both ends. *)
Definition trim (s : string) : string := rtrim (ltrim s).

Definition upper_ascii (c : ascii) : ascii :=
  let n := N_of_ascii c in
  if ((97 <=? n) && (n <=? 122))%N then ascii_of_N (n - 32) else c.

Definition lower_ascii (c : ascii) : ascii :=
  let n := N_of_ascii c in
  if ((65 <=? n) && (n <=? 90))%N then ascii_of_N (n + 32) else c.

Fixpoint map_string (f : ascii → ascii) (s : string) : string :=
  match s with
  | EmptyString => EmptyString
  | String c s' => String (f c) (map_string f s')
  end.

(** A text of ASCII characters only. *)
Definition is_ascii (c : ascii) : bool := (N_of_ascii c <? 128)%N.

Fixpoint all_ascii (s : string) : bool :=
  match s with
  | EmptyString => true
  | String c s' => is_ascii c && all_ascii s'
  end.

Fixpoint is_prefix (p s : string) : bool :=
  match p, s with
  | EmptyString, _ => true
  | String a p', String b s' => Ascii.eqb a b && is_prefix p' s'
  | String _ _, EmptyString => false
  end.

Fixpoint contains (s p : string) : bool :=
  is_prefix p s ||
  match s with
  | EmptyString => false
  | String _ s' => contains s' p
  end.

(** Leading run of digits and what follows it. *)
Fixpoint span_digits (s : string) : string * string :=
  match s with
  | String c s' =>
      if is_digit c then
        let '(d, r) := span_digits s' in (String c d, r)
      else (EmptyString, s)
  | EmptyString => (EmptyString, EmptyString)
  end.

Fixpoint all_digits (s : string) : bool :=
  match s with
  | EmptyString => true
  | String c s' => is_digit c && all_digits s'
  end.

Fixpoint digits_value (acc : Z) (s : string) : Z :=
  match s with
  | EmptyString => acc
  | String c s' => digits_value (10 * acc + (Z.of_N (N_of_ascii c) - 48)) s'
  end.

End Text.

(* ===================================================================== *)
(** ** Regular expressions of [TRANSFORM_SQL] *)
(* ===================================================================== *)

Module Regex.

(** The fragment of POSIX syntax that the patterns use, closed under
    derivatives ([Void] and [Alt] only arise there). *)
Inductive regex : Type :=
| Void
| Eps
| Chr (c : ascii)            (* a literal character, e.g. [-] or [\.] *)
| Digit                      (* [[0-9]] *)
| Seq (r1 r2 : regex)
| Alt (r1 r2 : regex)
| Opt (r : regex)            (* [r?] *)
| Star (r : regex)           (* [r*] *)
| Plus (r : regex).          (* [r+] *)

Fixpoint nullable (r : regex) : bool :=
  match r with
  | Void | Chr _ | Digit => false
  | Eps | Opt _ | Star _ => true
  | Seq r1 r2 => nullable r1 && nullable r2
  | Alt r1 r2 => nullable r1 || nullable r2
  | Plus r => nullable r
  end.

Fixpoint deriv (a : ascii) (r : regex) : regex :=
  match r with
  | Void | Eps => Void
  | Chr c => if Ascii.eqb a c then Eps else Void
  | Digit => if Text.is_digit a then Eps else Void
  | Seq r1 r2 =>
      if nullable r1 then Alt (Seq (deriv a r1) r2) (deriv a r2)
      else Seq (deriv a r1) r2
  | Alt r1 r2 => Alt (deriv a r1) (deriv a r2)
  | Opt r => deriv a r
  | Star r => Seq (deriv a r) (Star r)
  | Plus r => Seq (deriv a r) (Star r)
  end.

(** [s ~ '^r$']: the whole text is in the language of [r]. *)
Fixpoint matches (r : regex) (s : string) : bool :=
  match s with
  | EmptyString => nullable r
  | String a s' => matches (deriv a r) s'
  end.

(** ['^[0-9]+\.?[0-9]*$'] (magnitud, profundidad). *)
Definition unsigned_decimal : regex :=
  Seq (Plus Digit) (Seq (Opt (Chr ".")) (Star Digit)).

(** ['^-?[0-9]+\.?[0-9]*$'] (latitud, longitud). *)
Definition signed_decimal : regex :=
  Seq (Opt (Chr "-")) (Seq (Plus Digit) (Seq (Opt (Chr ".")) (Star Digit))).

(** Denotation of a pattern, used to state what the matcher accepts. *)
Inductive lang : regex → string → Prop :=
| L_Eps : lang Eps EmptyString
| L_Chr c : lang (Chr c) (String c EmptyString)
| L_Digit c : Text.is_digit c = true → lang Digit (String c EmptyString)
| L_Seq r1 r2 s1 s2 : lang r1 s1 → lang r2 s2 → lang (Seq r1 r2) (s1 +:+ s2)
| L_AltL r1 r2 s : lang r1 s → lang (Alt r1 r2) s
| L_AltR r1 r2 s : lang r2 s → lang (Alt r1 r2) s
| L_OptN r : lang (Opt r) EmptyString
| L_OptS r s : lang r s → lang (Opt r) s
| L_StarN r : lang (Star r) EmptyString
| L_StarS r s1 s2 : lang r s1 → lang (Star r) s2 → lang (Star r) (s1 +:+ s2)
| L_Plus r s1 s2 : lang r s1 → lang (Star r) s2 → lang (Plus r) (s1 +:+ s2).

End Regex.

(* ===================================================================== *)
(** ** SQL values and functions *)
(* ===================================================================== *)

Module Sql.

(** A nullable column: [None] is SQL NULL.  A condition is a nullable
    boolean; AND and OR follow the three-valued truth tables. *)
Definition sql_and (a b : option bool) : option bool :=
  match a, b with
  | Some false, _ | _, Some false => Some false
  | Some true, Some true => Some true
  | _, _ => None
  end.

Definition sql_or (a b : option bool) : option bool :=
  match a, b with
  | Some true, _ | _, Some true => Some true
  | Some false, Some false => Some false
  | _, _ => None
  end.

(** A [WHEN] branch or a [WHERE] clause fires on TRUE only. *)
Definition is_true (c : option bool) : bool :=
  match c with
  | Some true => true
  | _ => false
  end.

Definition is_not_null {A} (x : option A) : option bool :=
  Some (match x with Some _ => true | None => false end).

Definition Qlt_bool (x y : Q) : bool := negb (Qle_bool y x).

Definition sql_lt (x y : option Q) : option bool :=
  match x, y with
  | Some a, Some b => Some (Qlt_bool a b)
  | _, _ => None
  end.

Definition sql_ge (x y : option Q) : option bool :=
  match x, y with
  | Some a, Some b => Some (Qle_bool b a)
  | _, _ => None
  end.

Definition sql_eq_text (x y : option string) : option bool :=
  match x, y with
  | Some a, Some b => Some (String.eqb a b)
  | _, _ => None
  end.

(** Strict text functions: NULL in, NULL out. *)
Definition TRIM (x : option string) : option string := Text.trim <$> x.

Definition concat_text (x y : option string) : option string :=
  match x, y with
  | Some a, Some b => Some (a +:+ b)
  | _, _ => None
  end.

(** [x ~ '^r$']. *)
Definition regex_match (x : option string) (r : Regex.regex) : option bool :=
  Regex.matches r <$> x.

(** *** Case folding

    [LOWER] and [ILIKE] fold letters by the locale of the database (its
    LC_CTYPE), so the folding is the server's, not this repository's:
    the statement is modelled over any folding [lower_text] of a text.
    What the region keywords of the statement rely on is kept as laws:
    a text of ASCII characters is folded letter by letter, and changing
    the case of the ASCII letters of a text does not change its folding.
    They hold of the C locale and of the UTF-8 locales that fold the
    ASCII letters as ASCII does (all but the Turkic ones). *)
Class Locale : Type := {
  lower_text : string → string;
  lower_text_ascii s :
    Text.all_ascii s = true →
    lower_text s = Text.map_string Text.lower_ascii s;
  lower_text_of_lower s :
    lower_text (Text.map_string Text.lower_ascii s) = lower_text s;
  lower_text_of_upper s :
    lower_text (Text.map_string Text.upper_ascii s) = lower_text s
}.

Section WithLocale.
Context `{Locale}.

(** [LOWER(x)]. *)
Definition LOWER (x : option string) : option string := lower_text <$> x.

(** [x ILIKE '%p%']: the server folds the text and the pattern, then
    looks for the folded keyword in the folded text. *)
Definition ILIKE_contains (x : option string) (p : string) : option bool :=
  (λ s, Text.contains (lower_text s) (lower_text p)) <$> x.

End WithLocale.

(** *** NUMERIC(precision, scale) *)

Definition ten_to (n : nat) : Z := 10 ^ Z.of_nat n.

(** Value of a decimal spelling [-]digits[.digits]. *)
Definition strip_minus (s : string) : bool * string :=
  match s with
  | String c rest => if Ascii.eqb c "-" then (true, rest) else (false, s)
  | EmptyString => (false, s)
  end.

Definition fraction_digits (rest : string) : option string :=
  match rest with
  | EmptyString => Some EmptyString
  | String c f =>
      if Ascii.eqb c "." && Text.all_digits f then Some f else None
  end.

Definition numeric_in (s : string) : option Q :=
  let '(neg, body) := strip_minus s in
  let '(int_part, rest) := Text.span_digits body in
  match int_part, fraction_digits rest with
  | String _ _, Some f =>
      let n := Text.digits_value 0 (int_part +:+ f) in
      let d := Z.to_pos (ten_to (String.length f)) in
      Some (Qmake (if neg then - n else n) d)
  | _, _ => None
  end.

(** Rounding to [scale] decimals, ties away from zero; the result keeps
    the denominator [10 ^ scale]. *)
Definition numeric_round (scale : nat) (q : Q) : Q :=
  let n := Qnum q * ten_to scale in
  let d := Zpos (Qden q) in
  let m := (2 * Z.abs n + d) / (2 * d) in
  Qmake (Z.sgn n * m) (Z.to_pos (ten_to scale)).

(** [CAST(x AS NUMERIC(precision, scale))] on text.  The value is rounded
    to [scale] decimals and must then have at most [precision - scale]
    digits before the point, or the server raises "numeric field
    overflow".  Only the spellings [-]digits[.digits] are read here: the
    statement never reaches the cast with another text (see
    [coerce_error] below). *)
Definition CAST_NUMERIC (precision scale : nat) (x : option string)
  : pg (option Q) :=
  match x with
  | None => Ok None
  | Some s =>
      match numeric_in s with
      | None => Err (InvalidNumericSyntax s)
      | Some q =>
          let v := numeric_round scale q in
          if ten_to precision <=? Z.abs (Qnum v)
          then Err (NumericFieldOverflow s)
          else Ok (Some v)
      end
  end.

(** *** Dates and timestamps *)

Record date : Type := mkDate { d_year : Z; d_month : Z; d_day : Z }.

Record timestamp : Type :=
  mkTimestamp { ts_date : date; ts_hour : Z; ts_minute : Z; ts_second : Z }.

(** The two parsing functions of the server, at the two format strings
    of the statement.  They are the server's, not this repository's, so
    the pipeline is stated over any implementation of them; what matters
    to the pipeline is only whether they return a value or raise. *)
Class DateFunctions : Type := {
  to_date_DDMMYYYY : string → pg date;
      (* TO_DATE(x, 'DD/MM/YYYY') on non-null x *)
  to_timestamp_DDMMYYYY_HH24MISS : string → pg timestamp
      (* TO_TIMESTAMP(x, 'DD/MM/YYYY HH24:MI:SS') on non-null x *)
}.

Section WithDates.
Context `{DateFunctions}.

Definition TO_DATE (x : option string) : pg (option date) :=
  match x with
  | None => Ok None
  | Some s => let* d := to_date_DDMMYYYY s in Ok (Some d)
  end.

Definition TO_TIMESTAMP (x : option string) : pg (option timestamp) :=
  match x with
  | None => Ok None
  | Some s => let* t := to_timestamp_DDMMYYYY_HH24MISS s in Ok (Some t)
  end.

End WithDates.

Definition EXTRACT_YEAR (d : option date) : option Z := d_year <$> d.
Definition EXTRACT_MONTH (d : option date) : option Z := d_month <$> d.
Definition EXTRACT_HOUR (t : option timestamp) : option Z := ts_hour <$> t.

(** Days since 1970-01-01 in the proleptic Gregorian calendar. *)
Definition days_from_civil (d : date) : Z :=
  let y := if d_month d <=? 2 then d_year d - 1 else d_year d in
  let era := y / 400 in
  let yoe := y - era * 400 in
  let mp := if d_month d <=? 2 then d_month d + 9 else d_month d - 3 in
  let doy := (153 * mp + 2) / 5 + d_day d - 1 in
  let doe := yoe * 365 + yoe / 4 - yoe / 100 + doy in
  era * 146097 + doe - 719468.

(** [TO_CHAR(d, 'Day')]: the English day name, blank-padded to nine
    characters. *)
Definition day_name (d : date) : string :=
  match (days_from_civil d + 4) mod 7 with
  | 0 => "Sunday   "
  | 1 => "Monday   "
  | 2 => "Tuesday  "
  | 3 => "Wednesday"
  | 4 => "Thursday "
  | 5 => "Friday   "
  | _ => "Saturday "
  end.

Definition TO_CHAR_Day (d : option date) : option string := day_name <$> d.

End Sql.

(* ===================================================================== *)
(** ** Column labels and [normalize_column_name] *)
(* ===================================================================== *)

Module Unicode.

(** A Python [str] whose characters matter is a list of code points. *)
Definition codepoint : Type := N.
Definition pystr : Type := list codepoint.

(** An ASCII literal as a [str]. *)
Definition py (s : string) : pystr := N_of_ascii <$> list_ascii_of_string s.

Definition SPACE : codepoint := 32%N.
Definition UNDERSCORE : codepoint := 95%N.

(** What [normalize_column_name] asks of the Unicode character database
    and of [str]: these are the interpreter's, so the function is stated
    over any implementation of them. *)
Class UnicodeData : Type := {
  normalize_NFD : pystr → pystr;      (* unicodedata.normalize('NFD', s) *)
  category_is_Mn : codepoint → bool;  (* unicodedata.category(c) == 'Mn' *)
  isspace : codepoint → bool;         (* what str.strip() removes *)
  str_lower : pystr → pystr;          (* s.lower() *)
  isalnum : codepoint → bool          (* c.isalnum() *)
}.

Section Normalizer.
Context `{UnicodeData}.

Fixpoint lstrip (s : pystr) : pystr :=
  match s with
  | c :: s' => if isspace c then lstrip s' else s
  | [] => []
  end.

(** [s.strip()]. *)
Definition strip (s : pystr) : pystr := rev (lstrip (rev (lstrip s))).

(** [s.replace(' ', '_')]. *)
Definition replace_space_underscore (s : pystr) : pystr :=
  (λ c, if (c =? SPACE)%N then UNDERSCORE else c) <$> s.

Definition normalize_column_name (col_name : pystr) : pystr :=
  (* Remove accents *)
  let col_name :=
    List.filter (λ c, negb (category_is_Mn c)) (normalize_NFD col_name) in
  (* Convert to lowercase and replace spaces *)
  let col_name := replace_space_underscore (str_lower (strip col_name)) in
  (* Remove any remaining special characters except underscore *)
  mjoin ((λ c, if isalnum c || (c =? UNDERSCORE)%N then [c] else []) <$> col_name).

(** The contract as the specification words it: (a) strip diacritics,
    (b) lower-case, (c) trim and replace interior whitespace with
    underscores, (d) remove what is neither alphanumeric nor underscore.
    It differs from the function above in step (c) only. *)
Definition replace_whitespace_underscore (s : pystr) : pystr :=
  (λ c, if isspace c then UNDERSCORE else c) <$> s.

Definition normalize_column_name_spec (col_name : pystr) : pystr :=
  let col_name :=
    List.filter (λ c, negb (category_is_Mn c)) (normalize_NFD col_name) in
  let col_name := replace_whitespace_underscore (str_lower (strip col_name)) in
  List.filter (λ c, isalnum c || (c =? UNDERSCORE)%N) col_name.

End Normalizer.

(** *** The database on Basic Latin and Latin-1 Supplement

    Values of the Unicode character database for U+0000..U+00FF, and
    for the combining marks U+0300..U+036F that decomposition produces
    from them.  Labels outside this block are outside this table. *)

Definition in_latin1 (c : codepoint) : bool := (c <? 256)%N.

Definition GRAVE : codepoint := 768%N.
Definition ACUTE : codepoint := 769%N.
Definition CIRCUMFLEX : codepoint := 770%N.
Definition TILDE : codepoint := 771%N.
Definition DIAERESIS : codepoint := 776%N.
Definition RING : codepoint := 778%N.
Definition CEDILLA : codepoint := 807%N.

(** The canonical decompositions of the block: code point, base letter,
    combining mark. *)
Definition decomposition_table : list (codepoint * (codepoint * codepoint)) :=
  [ (192, (65, GRAVE)); (193, (65, ACUTE)); (194, (65, CIRCUMFLEX));
    (195, (65, TILDE)); (196, (65, DIAERESIS)); (197, (65, RING));
    (199, (67, CEDILLA));
    (200, (69, GRAVE)); (201, (69, ACUTE)); (202, (69, CIRCUMFLEX));
    (203, (69, DIAERESIS));
    (204, (73, GRAVE)); (205, (73, ACUTE)); (206, (73, CIRCUMFLEX));
    (207, (73, DIAERESIS));
    (209, (78, TILDE));
    (210, (79, GRAVE)); (211, (79, ACUTE)); (212, (79, CIRCUMFLEX));
    (213, (79, TILDE)); (214, (79, DIAERESIS));
    (217, (85, GRAVE)); (218, (85, ACUTE)); (219, (85, CIRCUMFLEX));
    (220, (85, DIAERESIS));
    (221, (89, ACUTE));
    (224, (97, GRAVE)); (225, (97, ACUTE)); (226, (97, CIRCUMFLEX));
    (227, (97, TILDE)); (228, (97, DIAERESIS)); (229, (97, RING));
    (231, (99, CEDILLA));
    (232, (101, GRAVE)); (233, (101, ACUTE)); (234, (101, CIRCUMFLEX));
    (235, (101, DIAERESIS));
    (236, (105, GRAVE)); (237, (105, ACUTE)); (238, (105, CIRCUMFLEX));
    (239, (105, DIAERESIS));
    (241, (110, TILDE));
    (242, (111, GRAVE)); (243, (111, ACUTE)); (244, (111, CIRCUMFLEX));
    (245, (111, TILDE)); (246, (111, DIAERESIS));
    (249, (117, GRAVE)); (250, (117, ACUTE)); (251, (117, CIRCUMFLEX));
    (252, (117, DIAERESIS));
    (253, (121, ACUTE)); (255, (121, DIAERESIS)) ]%N.

(** Canonical decomposition of one character. *)
Definition latin1_decompose (c : codepoint) : pystr :=
  match List.find (λ e, (e.1 =? c)%N) decomposition_table with
  | Some (_, (base, mark)) => [base; mark]
  | None => [c]
  end.

Definition latin1_is_Mn (c : codepoint) : bool :=
  ((768 <=? c) && (c <=? 879))%N.

Definition latin1_isspace (c : codepoint) : bool :=
  (((9 <=? c) && (c <=? 13)) || ((28 <=? c) && (c <=? 32))
   || (c =? 133) || (c =? 160))%N.

Definition latin1_lower (c : codepoint) : codepoint :=
  (if ((65 <=? c) && (c <=? 90))
      || ((192 <=? c) && (c <=? 222) && negb (c =? 215))
   then c + 32 else c)%N.

Definition latin1_isalnum (c : codepoint) : bool :=
  (((48 <=? c) && (c <=? 57)) || ((65 <=? c) && (c <=? 90))
   || ((97 <=? c) && (c <=? 122))
   || (c =? 170) || (c =? 178) || (c =? 179) || (c =? 181)
   || (c =? 185) || (c =? 186) || ((188 <=? c) && (c <=? 190))
   || ((192 <=? c) && (c <=? 214)) || ((216 <=? c) && (c <=? 246))
   || ((248 <=? c) && (c <=? 255)))%N.

#[global] Instance latin1 : UnicodeData := {|
  normalize_NFD s := mjoin (latin1_decompose <$> s);
  category_is_Mn := latin1_is_Mn;
  isspace := latin1_isspace;
  str_lower s := latin1_lower <$> s;
  isalnum := latin1_isalnum
|}.

(** "Referencia de Localización": the accented o is U+00F3. *)
Definition referencia_de_localizacion_label : pystr :=
  py "Referencia de Localizaci" ++ [243%N] ++ py "n".

End Unicode.

(* ===================================================================== *)
(** ** The warehouse: tables and the two SQL statements *)
(* ===================================================================== *)

Module Warehouse.
Import Sql Unicode.

(** [raw_earthquakes]: one wide table of TEXT columns.  A row maps a
    column name to its (nullable) text; a column the loader did not
    supply is NULL.  [batch_id] is one of these columns. *)
Record raw_row : Type := mkRaw {
  raw_id : Z;
  raw_cells : gmap pystr (option string);
  raw_loaded_at : Z
}.

Definition col (r : raw_row) (name : string) : option string :=
  default None (raw_cells r !! py name).

(** A row of the CTE [parsed_data]. *)
Record parsed_row : Type := mkParsed {
  p_id : Z;
  p_batch_id : option string;
  p_earthquake_date : option date;
  p_earthquake_datetime : option timestamp;
  p_magnitude : option Q;
  p_latitude : option Q;
  p_longitude : option Q;
  p_depth_km : option Q;
  p_location_reference : option string;
  p_status : option string
}.

(** The columns that the INSERT of [TRANSFORM_SQL] fills, in its order. *)
Record analytics_row : Type := mkAnalytics {
  earthquake_date : option date;
  earthquake_datetime : option timestamp;
  magnitude : option Q;
  latitude : option Q;
  longitude : option Q;
  depth_km : option Q;
  location_reference : option string;
  status : option string;
  year : option Z;
  month : option Z;
  day_of_week : option string;
  hour_of_day : option Z;
  magnitude_category : string;
  depth_category : string;
  region : string;
  is_significant : option bool;
  batch_id : option string
}.

(** A row of [earthquake_statistics]; the values of the three JSONB
    mappings (by_magnitude_category, by_region, by_month) are left out,
    but not the error that building one of them can raise, see
    [AGGREGATE_STATISTICS_SQL]. *)
Record statistics_row : Type := mkStatistics {
  calculation_date : date;
  total_earthquakes : Z;
  avg_magnitude : option Q;
  max_magnitude : option Q;
  min_magnitude : option Q;
  avg_depth : option Q;
  significant_count : option Z
}.

Record warehouse : Type := mkWarehouse {
  raw_earthquakes : list raw_row;
  analytics_earthquakes : list analytics_row;
  earthquake_statistics : list statistics_row
}.

(** *** [TRANSFORM_SQL] *)

(** [CASE WHEN TRIM(x) ~ pattern THEN CAST(TRIM(x) AS NUMERIC(p,s))
         ELSE NULL END]. *)
Definition coerce_numeric (pattern : Regex.regex) (precision scale : nat)
    (x : option string) : pg (option Q) :=
  if is_true (regex_match (TRIM x) pattern)
  then CAST_NUMERIC precision scale (TRIM x)
  else Ok None.

Definition coerce_magnitude : option string → pg (option Q) :=
  coerce_numeric Regex.unsigned_decimal 3 1.
Definition coerce_latitude : option string → pg (option Q) :=
  coerce_numeric Regex.signed_decimal 8 5.
Definition coerce_longitude : option string → pg (option Q) :=
  coerce_numeric Regex.signed_decimal 8 5.
Definition coerce_depth : option string → pg (option Q) :=
  coerce_numeric Regex.unsigned_decimal 6 2.

Definition category_of_magnitude (magnitude : option Q) : string :=
  if is_true (sql_lt magnitude (Some 3.0%Q)) then "Minor"
  else if is_true (sql_and (sql_ge magnitude (Some 3.0%Q))
                           (sql_lt magnitude (Some 4.0%Q))) then "Light"
  else if is_true (sql_and (sql_ge magnitude (Some 4.0%Q))
                           (sql_lt magnitude (Some 5.0%Q))) then "Moderate"
  else if is_true (sql_and (sql_ge magnitude (Some 5.0%Q))
                           (sql_lt magnitude (Some 6.0%Q))) then "Strong"
  else if is_true (sql_and (sql_ge magnitude (Some 6.0%Q))
                           (sql_lt magnitude (Some 7.0%Q))) then "Major"
  else if is_true (sql_ge magnitude (Some 7.0%Q)) then "Great"
  else "Unknown".

Definition category_of_depth (depth_km : option Q) : string :=
  if is_true (sql_lt depth_km (Some 70%Q)) then "Shallow"
  else if is_true (sql_and (sql_ge depth_km (Some 70%Q))
                           (sql_lt depth_km (Some 300%Q))) then "Intermediate"
  else if is_true (sql_ge depth_km (Some 300%Q)) then "Deep"
  else "Unknown".

Section WithServer.
Context `{Locale} `{DateFunctions}.

Definition region_of (location_reference : option string) : string :=
  let has := ILIKE_contains location_reference in
  if is_true (has "MICH") then "Michoacán"
  else if is_true (sql_or (has "OAXACA") (has "OAX")) then "Oaxaca"
  else if is_true (sql_or (has "GUERRERO") (has "GRO")) then "Guerrero"
  else if is_true (sql_or (has "CHIAPAS") (has "CHIS")) then "Chiapas"
  else if is_true (sql_or (has "CDMX") (has "CIUDAD DE MEXICO")) then "CDMX"
  else if is_true (sql_or (has "PUEBLA") (has "PUE")) then "Puebla"
  else if is_true (sql_or (has "VERACRUZ") (has "VER")) then "Veracruz"
  else "Other".

(** [(magnitude >= 5.0 OR depth_km < 50)]. *)
Definition significance (magnitude depth_km : option Q) : option bool :=
  sql_or (sql_ge magnitude (Some 5.0%Q)) (sql_lt depth_km (Some 50%Q)).

(** The SELECT list over [parsed_data]. *)
Definition select_row (p : parsed_row) : analytics_row :=
  {| earthquake_date := p_earthquake_date p;
     earthquake_datetime := p_earthquake_datetime p;
     magnitude := p_magnitude p;
     latitude := p_latitude p;
     longitude := p_longitude p;
     depth_km := p_depth_km p;
     location_reference := p_location_reference p;
     status := p_status p;
     year := EXTRACT_YEAR (p_earthquake_date p);
     month := EXTRACT_MONTH (p_earthquake_date p);
     day_of_week := TO_CHAR_Day (p_earthquake_date p);
     hour_of_day := EXTRACT_HOUR (p_earthquake_datetime p);
     magnitude_category := category_of_magnitude (p_magnitude p);
     depth_category := category_of_depth (p_depth_km p);
     region := region_of (p_location_reference p);
     is_significant := significance (p_magnitude p) (p_depth_km p);
     batch_id := p_batch_id p |}.

(** [WHERE magnitude IS NOT NULL AND latitude IS NOT NULL
          AND longitude IS NOT NULL]. *)
Definition where_not_null (p : parsed_row) : bool :=
  is_true (sql_and (sql_and (is_not_null (p_magnitude p))
                            (is_not_null (p_latitude p)))
                   (is_not_null (p_longitude p))).

(** What one row of [parsed_data] contributes to the INSERT, in the
    logical reading of the statement. *)
Definition insert_of (p : parsed_row) : option analytics_row :=
  if where_not_null p then Some (select_row p) else None.

(** [WHERE batch_id = '<literal>']. *)
Definition in_batch (literal : string) (r : raw_row) : bool :=
  is_true (sql_eq_text (col r "batch_id") (Some literal)).

(** The SELECT list of the CTE on one raw row, column by column. *)
Definition parse_row (r : raw_row) : pg parsed_row :=
  let* earthquake_date := TO_DATE (col r "fecha_utc") in
  let* earthquake_datetime :=
    TO_TIMESTAMP (concat_text (concat_text (col r "fecha_utc") (Some " "))
                              (col r "hora_utc")) in
  let* magnitude := coerce_magnitude (col r "magnitud") in
  let* latitude := coerce_latitude (col r "latitud") in
  let* longitude := coerce_longitude (col r "longitud") in
  let* depth_km := coerce_depth (col r "profundidad") in
  Ok {| p_id := raw_id r;
        p_batch_id := col r "batch_id";
        p_earthquake_date := earthquake_date;
        p_earthquake_datetime := earthquake_datetime;
        p_magnitude := magnitude;
        p_latitude := latitude;
        p_longitude := longitude;
        p_depth_km := depth_km;
        p_location_reference := TRIM (col r "referencia_localizacion");
        p_status := LOWER (TRIM (col r "estatus")) |}.

(** One raw row of the batch, as the server evaluates the statement.
    The server plans the CTE into the outer SELECT, so on each row the
    WHERE clause of the outer SELECT comes first: its three conditions
    are the CASE expressions of magnitude, latitude and longitude, in
    the order of the clause, and the AND stops at the first one that is
    not true.  The SELECT lists are evaluated only on a row that passes,
    so the date functions and the cast of the depth never see a row the
    clause rejects.  An error at any point is an error of the
    statement. *)
Definition transform_row (r : raw_row) : pg (option analytics_row) :=
  let* magnitude := coerce_magnitude (col r "magnitud") in
  if negb (is_true (is_not_null magnitude)) then Ok None else
  let* latitude := coerce_latitude (col r "latitud") in
  if negb (is_true (is_not_null latitude)) then Ok None else
  let* longitude := coerce_longitude (col r "longitud") in
  if negb (is_true (is_not_null longitude)) then Ok None else
  let* p := parse_row r in
  Ok (insert_of p).

(** The rows the statement inserts: the rows of the batch are read one
    after the other, the first error ends the statement. *)
Definition transform_rows (literal : string) (raw : list raw_row)
  : pg (list analytics_row) :=
  let* outcomes := traverse transform_row (List.filter (in_batch literal) raw) in
  Ok (omap id outcomes).

(** The statement: a plain INSERT ... SELECT; the rows are added to
    whatever the table holds.  On an error nothing is inserted. *)
Definition TRANSFORM_SQL (literal : string) (w : warehouse) : pg warehouse :=
  let* rows := transform_rows literal (raw_earthquakes w) in
  Ok {| raw_earthquakes := raw_earthquakes w;
        analytics_earthquakes := analytics_earthquakes w ++ rows;
        earthquake_statistics := earthquake_statistics w |}.

End WithServer.

(** *** [AGGREGATE_STATISTICS_SQL] (scalar columns) *)

Definition Qsum (l : list Q) : Q := foldr Qplus 0%Q l.

Definition AVG (l : list (option Q)) : option Q :=
  match omap id l with
  | [] => None
  | x :: xs => Some (Qsum (x :: xs) / inject_Z (Z.of_nat (length (x :: xs))))%Q
  end.

Definition Qmax (a b : Q) : Q := if Qle_bool a b then b else a.
Definition Qmin (a b : Q) : Q := if Qle_bool a b then a else b.

Definition MAX (l : list (option Q)) : option Q :=
  match omap id l with
  | [] => None
  | x :: xs => Some (foldr Qmax x xs)
  end.

Definition MIN (l : list (option Q)) : option Q :=
  match omap id l with
  | [] => None
  | x :: xs => Some (foldr Qmin x xs)
  end.

Definition ROUND2 (x : option Q) : option Q := numeric_round 2 <$> x.

(** The statement inserts one row, also on an empty table.  The keys
    of by_month are the months of the table: [jsonb_object_agg(month,
    count)] raises on a NULL key, so a row without a month (a row
    without a date) makes the statement fail.  The keys of the two other
    mappings come from CASE expressions with an ELSE branch and are
    never NULL. *)
Definition AGGREGATE_STATISTICS_SQL (today : date) (w : warehouse)
  : pg warehouse :=
  let a := analytics_earthquakes w in
  if negb (forallb (λ r, is_true (is_not_null (month r))) a)
  then Err NullFieldName else
  let row :=
    {| calculation_date := today;
       total_earthquakes := Z.of_nat (length a);
       avg_magnitude := ROUND2 (AVG (magnitude <$> a));
       max_magnitude := MAX (magnitude <$> a);
       min_magnitude := MIN (magnitude <$> a);
       avg_depth := ROUND2 (AVG (depth_km <$> a));
       significant_count :=
         match a with
         | [] => None
         | _ =>
             Some (Z.of_nat
               (length (List.filter (λ r, is_true (is_significant r)) a)))
         end |} in
  Ok {| raw_earthquakes := raw_earthquakes w;
        analytics_earthquakes := a;
        earthquake_statistics := earthquake_statistics w ++ [row] |}.

End Warehouse.

(* ===================================================================== *)
(** ** A reference implementation of the date functions *)
(* ===================================================================== *)

Module ReferenceDates.
Import Sql.

(** Used to run the statement on examples.  It reads the canonical
    spellings [DD/MM/YYYY] and [DD/MM/YYYY HH:MI:SS] with range checks
    and raises on every other text.  The server accepts some looser
    spellings (one-digit fields, other separators); the examples use
    canonical texts, and texts without any digit, which the server
    rejects as well ("invalid value ... for DD"). *)

Definition digit (c : ascii) : option Z :=
  if Text.is_digit c then Some (Z.of_N (N_of_ascii c) - 48) else None.

Definition two_digits (a b : ascii) : option Z :=
  x ← digit a; y ← digit b; Some (10 * x + y).

Definition is_leap (y : Z) : bool :=
  ((y mod 4 =? 0) && negb (y mod 100 =? 0)) || (y mod 400 =? 0).

Definition days_in_month (y m : Z) : Z :=
  match m with
  | 2 => if is_leap y then 29 else 28
  | 4 | 6 | 9 | 11 => 30
  | _ => 31
  end.

Definition valid_date (d : date) : bool :=
  (1 <=? d_year d) && (1 <=? d_month d) && (d_month d <=? 12)
  && (1 <=? d_day d) && (d_day d <=? days_in_month (d_year d) (d_month d)).

(** Reads [DD/MM/YYYY] at the head of the text; returns the rest. *)
Definition read_date (s : string) : option (date * string) :=
  match s with
  | String d1 (String d2 (String "/" (String m1 (String m2 (String "/"
      (String y1 (String y2 (String y3 (String y4 rest))))))))) =>
      dd ← two_digits d1 d2;
      mm ← two_digits m1 m2;
      yh ← two_digits y1 y2;
      yl ← two_digits y3 y4;
      let d := mkDate (100 * yh + yl) mm dd in
      if valid_date d then Some (d, rest) else None
  | _ => None
  end.

Definition read_time (s : string) : option (Z * Z * Z) :=
  match s with
  | String h1 (String h2 (String ":" (String m1 (String m2 (String ":"
      (String s1 (String s2 EmptyString))))))) =>
      hh ← two_digits h1 h2;
      mi ← two_digits m1 m2;
      ss ← two_digits s1 s2;
      if (hh <=? 23) && (mi <=? 59) && (ss <=? 59)
      then Some (hh, mi, ss) else None
  | _ => None
  end.

Definition reference_to_date (s : string) : pg date :=
  match read_date s with
  | Some (d, EmptyString) => Ok d
  | _ => Err (DatetimeFieldError s)
  end.

Definition reference_to_timestamp (s : string) : pg timestamp :=
  match read_date s with
  | Some (d, String " " t) =>
      match read_time t with
      | Some (hh, mi, ss) => Ok (mkTimestamp d hh mi ss)
      | None => Err (DatetimeFieldError s)
      end
  | _ => Err (DatetimeFieldError s)
  end.

#[global] Instance reference_dates : DateFunctions := {|
  to_date_DDMMYYYY := reference_to_date;
  to_timestamp_DDMMYYYY_HH24MISS := reference_to_timestamp
|}.

End ReferenceDates.

(* ===================================================================== *)
(** ** A reference implementation of the case folding *)
(* ===================================================================== *)

Module ReferenceLocale.
Import Sql.

(** Used to run the statement on examples: the folding of a UTF-8
    locale on the letters of Basic Latin and of the Latin-1 Supplement.
    The upper-case letters U+00C0 .. U+00DE (but the sign U+00D7) are the
    two bytes C3 80 .. C3 9E (but C3 97); their lower-case letters are
    32 further.  Letters outside the two blocks are left as they are. *)
Definition fold_byte (after_C3 : bool) (c : ascii) : ascii :=
  let n := N_of_ascii c in
  if after_C3 && ((128 <=? n) && (n <=? 158) && negb (n =? 151))%N
  then ascii_of_N (n + 32)
  else Text.lower_ascii c.

Fixpoint lower_utf8 (after_C3 : bool) (s : string) : string :=
  match s with
  | EmptyString => EmptyString
  | String c s' =>
      String (fold_byte after_C3 c) (lower_utf8 (N_of_ascii c =? 195)%N s')
  end.

#[global, refine] Instance reference_locale : Locale := {|
  lower_text := lower_utf8 false
|}.
Proof.
  - intros s. induction s as [|c s IH]; simpl; [done |].
    intros [Hc Hs]%andb_true_iff. unfold Text.is_ascii in Hc.
    apply N.ltb_lt in Hc.
    replace (N_of_ascii c =? 195)%N with false
      by (symmetry; apply N.eqb_neq; lia).
    by rewrite IH.
  - generalize false. intros b s. revert b.
    induction s as [|c s IH]; intros b; simpl; [done |].
    rewrite IH. f_equal.
    + destruct b; destruct c as [[] [] [] [] [] [] [] []]; reflexivity.
    + f_equal. destruct c as [[] [] [] [] [] [] [] []]; reflexivity.
  - generalize false. intros b s. revert b.
    induction s as [|c s IH]; intros b; simpl; [done |].
    rewrite IH. f_equal.
    + destruct b; destruct c as [[] [] [] [] [] [] [] []]; reflexivity.
    + f_equal. destruct c as [[] [] [] [] [] [] [] []]; reflexivity.
Defined.

End ReferenceLocale.

(* ===================================================================== *)
(** ** The task callables and the DAG *)
(* ===================================================================== *)

Module Dag.
Import Sql Unicode Warehouse.

(** *** Configuration *)

Definition RAW_DATA_PATH : string := "/opt/airflow/data/raw".
Definition ANALYTICS_DATA_PATH : string := "/opt/airflow/data/analytics".
Definition CSV_FILE : string := RAW_DATA_PATH +:+ "/Sismos.csv".

(** [f"{RAW_DATA_PATH}/earthquakes_raw_{batch_id}.parquet"]. *)
Definition raw_file_path (batch_id : string) : string :=
  RAW_DATA_PATH +:+ "/earthquakes_raw_" +:+ batch_id +:+ ".parquet".

(** [default_args['retries']]. *)
Definition retries : nat := 3.

(** *** Frames, files, XCom *)

(** A frame read with [dtype=str]: every cell is text or missing. *)
Record DataFrame : Type := mkFrame {
  columns : list pystr;
  rows : list (list (option string))
}.

Definition len (df : DataFrame) : Z := Z.of_nat (length (rows df)).

Inductive file : Type :=
| Csv (df : DataFrame)         (* the frame [pd.read_csv(.., dtype=str)] yields *)
| Parquet (df : DataFrame).

Inductive xval : Type :=
| XStr (s : string)
| XInt (n : Z).

#[global] Instance xval_eq_dec : EqDecision xval.
Proof. solve_decision. Defined.

(** The world the tasks act on.  XCom is keyed by (task_id, key).  The
    export artifact lives at one fixed path outside [RAW_DATA_PATH]; the
    order of its rows is not modelled. *)
Record world : Type := mkWorld {
  files : gmap string file;
  dw : warehouse;
  xcom : gmap (string * string) xval;
  export_artifact : option (list analytics_row)
}.

(** The template context of a run. *)
Record context : Type := mkContext {
  ts_nodash : string;       (* the run's logical timestamp *)
  now : Z;                  (* datetime.now() *)
  today : date              (* CURRENT_DATE *)
}.

Definition xcom_push (task key : string) (value : xval) (w : world) : world :=
  {| files := files w; dw := dw w;
     xcom := <[(task, key) := value]> (xcom w);
     export_artifact := export_artifact w |}.

Definition xcom_pull (key task_ids : string) (w : world) : option xval :=
  xcom w !! (task_ids, key).

(** [str(v)] inside an f-string or a template; a missing value is
    Python's [None]. *)
Definition py_format (v : option xval) : string :=
  match v with
  | Some (XStr s) => s
  | Some (XInt n) => pretty n
  | None => "None"
  end.

(** A pulled value as a TEXT cell. *)
Definition as_cell (v : option xval) : option string :=
  match v with
  | Some (XStr s) => Some s
  | Some (XInt n) => Some (pretty n)
  | None => None
  end.

Definition read_csv (f : file) : result exn DataFrame :=
  match f with
  | Csv df => Ok df
  | Parquet _ => Err CsvReadError
  end.

(** [df.to_parquet(path)]: writes the file, replacing what is there;
    pyarrow refuses a frame with repeated column names. *)
Definition to_parquet (df : DataFrame) (path : string)
    (fs : gmap string file) : result exn (gmap string file) :=
  if decide (NoDup (columns df))
  then Ok (<[path := Parquet df]> fs)
  else Err DuplicateColumnNames.

Definition read_parquet (path : option xval) (fs : gmap string file)
  : result exn DataFrame :=
  match path with
  | Some (XStr p) =>
      match fs !! p with
      | Some (Parquet df) => Ok df
      | _ => Err ParquetReadError
      end
  | _ => Err ParquetReadError
  end.

(** [df.rename(columns={old: new})]. *)
Definition rename (old new : pystr) (df : DataFrame) : DataFrame :=
  {| columns := (λ c, if decide (c = old) then new else c) <$> columns df;
     rows := rows df |}.

(** One frame row as the column/value map that [to_sql] sends. *)
Definition record_of (cols : list pystr) (row : list (option string))
  : gmap pystr (option string) :=
  list_to_map (zip cols row).

Definition set_db (d : warehouse) (w : world) : world :=
  {| files := files w; dw := d; xcom := xcom w;
     export_artifact := export_artifact w |}.

(** Number of raw rows tagged with the batch:
    [SELECT COUNT( * ) FROM raw_earthquakes WHERE batch_id = '<literal>']. *)
Definition count_batch (literal : string) (d : warehouse) : Z :=
  Z.of_nat (length (List.filter (in_batch literal) (raw_earthquakes d))).

(** What a callable returns: a dict; a value can be Python's [None]. *)
Definition retval : Type := list (string * option xval).

(** *** The DAG *)

Inductive task : Type :=
| extract_task
| load_task
| validate_task
| transform_task
| aggregate_task
| export_task.

#[global] Instance task_eq_dec : EqDecision task.
Proof. solve_decision. Defined.

(** [extract_task >> load_task >> validate_task >> transform_group >>
    export_task], with [transform_task >> aggregate_task] inside the
    group: an edge (u, t) makes u upstream of t. *)
Definition dependencies : list (task * task) :=
  [ (extract_task, load_task);
    (load_task, validate_task);
    (validate_task, transform_task);
    (transform_task, aggregate_task);
    (aggregate_task, export_task) ].

Definition upstream (t : task) : list task :=
  fst <$> List.filter (λ e, bool_decide (e.2 = t)) dependencies.

Inductive task_state : Type :=
| success
| failed (e : exn)
| upstream_failed.

Definition state_of (states : list (task * task_state)) (t : task)
  : option task_state :=
  snd <$> List.find (λ s, bool_decide (s.1 = t)) states.

Definition succeeded (states : list (task * task_state)) (t : task) : bool :=
  match state_of states t with
  | Some success => true
  | _ => false
  end.

Section Callables.
Context `{UnicodeData} `{Locale} `{DateFunctions}.

Definition extract_earthquake_data (ctx : context) (w : world)
  : result exn (world * retval) :=
  (* Check if CSV exists *)
  match files w !! CSV_FILE with
  | None => Err (FileNotFoundError CSV_FILE)
  | Some f =>
      let* df := read_csv f in
      (* Normalize column names immediately after reading *)
      let df := {| columns := normalize_column_name <$> columns df;
                   rows := rows df |} in
      (* Generate batch ID for tracking *)
      let batch_id := ts_nodash ctx in
      let raw_file := raw_file_path batch_id in
      let* fs := to_parquet df raw_file (files w) in
      let w := {| files := fs; dw := dw w; xcom := xcom w;
                  export_artifact := export_artifact w |} in
      (* Push metadata to XCom *)
      let w := xcom_push "extract_data" "batch_id" (XStr batch_id) w in
      let w := xcom_push "extract_data" "raw_file" (XStr raw_file) w in
      let w := xcom_push "extract_data" "record_count" (XInt (len df)) w in
      Ok (w, [("status", Some (XStr "success"));
              ("records", Some (XInt (len df)));
              ("batch_id", Some (XStr batch_id))])
  end.

(** The rows that [df.to_sql('raw_earthquakes', if_exists='append')]
    adds: every frame row with [batch_id] and [loaded_at] set; the
    table numbers them on. *)
Definition stamped_rows (ctx : context) (batch_id : option xval)
    (df : DataFrame) (first_id : Z) : list raw_row :=
  imap (λ i row,
          {| raw_id := first_id + Z.of_nat i;
             raw_cells := <[py "batch_id" := as_cell batch_id]>
                            (record_of (columns df) row);
             raw_loaded_at := now ctx |})
       (rows df).

Definition load_raw_data (ctx : context) (w : world)
  : result exn (world * retval) :=
  (* Get batch info from previous task *)
  let batch_id := xcom_pull "batch_id" "extract_data" w in
  let raw_file := xcom_pull "raw_file" "extract_data" w in
  let* df := read_parquet raw_file (files w) in
  (* The database has 'referencia_localizacion' without 'de' *)
  let df := rename (py "referencia_de_localizacion")
                   (py "referencia_localizacion") df in
  let d := dw w in
  let first_id := Z.of_nat (length (raw_earthquakes d)) + 1 in
  let d := {| raw_earthquakes :=
                raw_earthquakes d ++ stamped_rows ctx batch_id df first_id;
              analytics_earthquakes := analytics_earthquakes d;
              earthquake_statistics := earthquake_statistics d |} in
  let w := set_db d w in
  let w := xcom_push "load_raw_data" "loaded_records" (XInt (len df)) w in
  Ok (w, [("status", Some (XStr "success"));
          ("loaded_records", Some (XInt (len df)));
          ("batch_id", batch_id)]).

Definition validate_raw_data (ctx : context) (w : world)
  : result exn (world * retval) :=
  let batch_id := xcom_pull "batch_id" "extract_data" w in
  (* Check record count *)
  let loaded_count := count_batch (py_format batch_id) (dw w) in
  let expected_count := xcom_pull "record_count" "extract_data" w in
  if decide (expected_count = Some (XInt loaded_count))
  then Ok (w, [("status", Some (XStr "success"));
               ("validated_records", Some (XInt loaded_count))])
  else Err (ValidationFailed (py_format expected_count) loaded_count).

(** [transform_task]: the template is rendered, then the statement runs. *)
Definition transform_to_analytics (ctx : context) (w : world)
  : result exn (world * retval) :=
  let literal := py_format (xcom_pull "batch_id" "extract_data" w) in
  let* d := lift_db (TRANSFORM_SQL literal (dw w)) in
  Ok (set_db d w, []).

Definition calculate_statistics (ctx : context) (w : world)
  : result exn (world * retval) :=
  let* d := lift_db (AGGREGATE_STATISTICS_SQL (today ctx) (dw w)) in
  Ok (set_db d w, []).

Definition export_analytics_to_parquet (ctx : context) (w : world)
  : result exn (world * retval) :=
  let df := analytics_earthquakes (dw w) in
  let output_file := ANALYTICS_DATA_PATH +:+ "/earthquakes_analytics.parquet" in
  Ok ({| files := files w; dw := dw w; xcom := xcom w;
         export_artifact := Some df |},
      [("status", Some (XStr "success"));
       ("exported_records", Some (XInt (Z.of_nat (length df))));
       ("file", Some (XStr output_file))]).

Definition python_callable (t : task)
  : context → world → result exn (world * retval) :=
  match t with
  | extract_task => extract_earthquake_data
  | load_task => load_raw_data
  | validate_task => validate_raw_data
  | transform_task => transform_to_analytics
  | aggregate_task => calculate_statistics
  | export_task => export_analytics_to_parquet
  end.

(** One try, then up to [n] retries; a failed try leaves the world as
    it was. *)
Fixpoint attempt (n : nat) (f : world → result exn (world * retval))
    (w : world) : result exn (world * retval) :=
  match f w, n with
  | Ok r, _ => Ok r
  | Err e, O => Err e
  | Err _, S n' => attempt n' f w
  end.

(** Trigger rule [all_success]: a task runs only when every upstream
    task succeeded. *)
Definition run_task (ctx : context) (s : world * list (task * task_state))
    (t : task) : world * list (task * task_state) :=
  let '(w, states) := s in
  if forallb (succeeded states) (upstream t)
  then match attempt retries (python_callable t ctx) w with
       | Ok (w', _) => (w', states ++ [(t, success)])
       | Err e => (w, states ++ [(t, failed e)])
       end
  else (w, states ++ [(t, upstream_failed)]).

(** The tasks in an order compatible with [dependencies]. *)
Definition schedule : list task :=
  [extract_task; load_task; validate_task; transform_task;
   aggregate_task; export_task].

Definition dag_run (ctx : context) (w : world)
  : world * list (task * task_state) :=
  foldl (run_task ctx) (w, []) schedule.

End Callables.

End Dag.

(* ===================================================================== *)
(** ** The contract's wording, and example data *)
(* ===================================================================== *)

Module Contract.
Import Sql Warehouse.

(** "Optional leading minus, digits, optional fractional part": the
    strict decimal pattern in the specification's words.
    [minus_allowed] tells whether the field's pattern admits the sign. *)
Definition decimal_spelling (minus_allowed : bool) (t : string) : Prop :=
  ∃ sign digits fraction,
    t = sign +:+ digits +:+ fraction ∧
    (sign = "" ∨ (minus_allowed = true ∧ sign = "-")) ∧
    digits ≠ "" ∧ Text.all_digits digits = true ∧
    (fraction = "" ∨
     ∃ fd, fraction = String "." fd ∧ Text.all_digits fd = true).

(** The four coerced fields of [TRANSFORM_SQL]. *)
Inductive numeric_field : Type := Magnitude | Latitude | Longitude | Depth.

Definition coerce_field (f : numeric_field) : option string → pg (option Q) :=
  match f with
  | Magnitude => coerce_magnitude
  | Latitude => coerce_latitude
  | Longitude => coerce_longitude
  | Depth => coerce_depth
  end.

(** The field's source column and the pattern of its guard. *)
Definition column (f : numeric_field) : string :=
  match f with
  | Magnitude => "magnitud"
  | Latitude => "latitud"
  | Longitude => "longitud"
  | Depth => "profundidad"
  end.

Definition pattern (f : numeric_field) : Regex.regex :=
  match f with
  | Latitude | Longitude => Regex.signed_decimal
  | Magnitude | Depth => Regex.unsigned_decimal
  end.

(** The field's column of [parsed_data]. *)
Definition parsed_field (f : numeric_field) : parsed_row → option Q :=
  match f with
  | Magnitude => p_magnitude
  | Latitude => p_latitude
  | Longitude => p_longitude
  | Depth => p_depth_km
  end.

(** Whether the field's pattern starts with [-?]. *)
Definition minus_allowed (f : numeric_field) : bool :=
  match f with
  | Latitude | Longitude => true
  | Magnitude | Depth => false
  end.

(** NUMERIC(precision, scale) of the field's cast. *)
Definition precision (f : numeric_field) : nat :=
  match f with Magnitude => 3 | Latitude | Longitude => 8 | Depth => 6 end%nat.

Definition scale (f : numeric_field) : nat :=
  match f with Magnitude => 1 | Latitude | Longitude => 5 | Depth => 2 end%nat.

(** The rounded value has at most [precision - scale] digits before the
    point. *)
Definition fits_column (f : numeric_field) (q : Q) : Prop :=
  Z.abs (Qnum (numeric_round (scale f) q)) < ten_to (precision f).

(** The three mandatory fields of a raw row coerce to a number. *)
Definition coerces_mandatory (r : raw_row) : Prop :=
  (∃ m, coerce_magnitude (col r "magnitud") = Ok (Some m)) ∧
  (∃ la, coerce_latitude (col r "latitud") = Ok (Some la)) ∧
  (∃ lo, coerce_longitude (col r "longitud") = Ok (Some lo)).

(** [fecha_utc || ' ' || hora_utc]. *)
Definition datetime_text (r : raw_row) : option string :=
  concat_text (concat_text (col r "fecha_utc") (Some " ")) (col r "hora_utc").

Definition no_null_coordinates (a : analytics_row) : Prop :=
  is_Some (magnitude a) ∧ is_Some (latitude a) ∧ is_Some (longitude a).

(** Categories of a magnitude or depth text, through the coercion. *)
Definition magnitude_category_of_text (t : string) : pg string :=
  let* m := coerce_magnitude (Some t) in Ok (category_of_magnitude m).

Definition depth_category_of_text (t : string) : pg string :=
  let* d := coerce_depth (Some t) in Ok (category_of_depth d).

End Contract.

Module Examples.
Import Sql Unicode Warehouse ReferenceDates ReferenceLocale Dag.

Definition cells (fecha hora magnitud latitud longitud profundidad : option string)
    (batch : string) : gmap pystr (option string) :=
  list_to_map
    [ (py "fecha_utc", fecha); (py "hora_utc", hora);
      (py "magnitud", magnitud); (py "latitud", latitud);
      (py "longitud", longitud); (py "profundidad", profundidad);
      (py "referencia_localizacion", Some "12 km al SUR de OAXACA, OAX");
      (py "estatus", Some "Revisado"); (py "batch_id", Some batch) ].

Definition batch0 : string := "20240101T000000".

(** A well-formed event. *)
Definition good_row : raw_row :=
  mkRaw 1 (cells (Some "01/02/2024") (Some "03:04:05") (Some "5.2")
                 (Some "18.1") (Some "-99.2") (Some "10") batch0) 0.

(** Same event, date text that no date function can read. *)
Definition undated_row : raw_row :=
  mkRaw 2 (cells (Some "sin fecha") (Some "03:04:05") (Some "5.2")
                 (Some "18.1") (Some "-99.2") (Some "10") batch0) 0.

(** Date and time missing. *)
Definition null_date_row : raw_row :=
  mkRaw 3 (cells None None (Some "5.2")
                 (Some "18.1") (Some "-99.2") (Some "10") batch0) 0.

(** Magnitude text that matches the pattern and exceeds NUMERIC(3,1). *)
Definition overflow_row : raw_row :=
  mkRaw 4 (cells None None (Some "100")
                 (Some "18.1") (Some "-99.2") (Some "10") batch0) 0.

(** Magnitude text that is not a number. *)
Definition uncomputable_row : raw_row :=
  mkRaw 5 (cells (Some "01/02/2024") (Some "03:04:05") (Some "no calculable")
                 (Some "18.1") (Some "-99.2") (Some "10") batch0) 0.

(** A row of another batch whose date no date function can read. *)
Definition other_batch_row : raw_row :=
  mkRaw 9 (cells (Some "sin fecha") (Some "03:04:05") (Some "5.2")
                 (Some "18.1") (Some "-99.2") (Some "10")
                 "20231231T000000") 0.

Definition good_analytics : analytics_row :=
  {| earthquake_date := Some (mkDate 2024 2 1);
     earthquake_datetime := Some (mkTimestamp (mkDate 2024 2 1) 3 4 5);
     magnitude := Some 5.2%Q;
     latitude := Some 18.10000%Q;
     longitude := Some (-99.20000)%Q;
     depth_km := Some 10.00%Q;
     location_reference := Some "12 km al SUR de OAXACA, OAX";
     status := Some "revisado";
     year := Some 2024;
     month := Some 2;
     day_of_week := Some "Thursday ";
     hour_of_day := Some 3;
     magnitude_category := "Strong";
     depth_category := "Shallow";
     region := "Oaxaca";
     is_significant := Some true;
     batch_id := Some batch0 |}.

Definition warehouse_of (raw : list raw_row) : warehouse :=
  mkWarehouse raw [] [].

(** A source file of three events and a world that holds only it. *)
Definition source_frame : DataFrame :=
  mkFrame
    [ py "Fecha UTC"; py "Hora UTC"; py "Magnitud"; py "Latitud";
      py "Longitud"; py "Profundidad"; referencia_de_localizacion_label;
      py "Estatus" ]
    [ [ Some "01/02/2024"; Some "03:04:05"; Some "5.2"; Some "18.1";
        Some "-99.2"; Some "10"; Some "OAXACA"; Some "Revisado" ];
      [ Some "01/02/2024"; Some "03:04:05"; Some "not computable";
        Some "18.1"; Some "-99.2"; Some "10"; Some "x"; Some "Revisado" ];
      [ Some "01/02/2024"; Some "03:04:05"; Some "2.1"; Some "bad";
        Some "-100"; Some "5"; Some "x"; Some "Revisado" ] ].

Definition context0 : context := mkContext batch0 0 (mkDate 2024 1 1).

Definition fresh_world : world :=
  mkWorld {[ CSV_FILE := Csv source_frame ]} (mkWarehouse [] [] []) ∅ None.

Definition snapshot_path : string := raw_file_path batch0.

(** A world where a snapshot for the batch already exists. *)
Definition old_snapshot : DataFrame := mkFrame [py "fecha_utc"] [[Some "old"]].

Definition world_with_snapshot : world :=
  mkWorld {[ CSV_FILE := Csv source_frame; snapshot_path := Parquet old_snapshot ]}
          (mkWarehouse [] [] []) ∅ None.

(** The snapshot that extraction writes for [source_frame]. *)
Definition new_snapshot : DataFrame :=
  mkFrame
    [ py "fecha_utc"; py "hora_utc"; py "magnitud"; py "latitud";
      py "longitud"; py "profundidad"; py "referencia_de_localizacion";
      py "estatus" ]
    (rows source_frame).

(** The world a callable leaves, and what it returns. *)
Definition world_of (r : result exn (world * retval)) (w : world) : world :=
  match r with Ok (w', _) => w' | Err _ => w end.

Definition retval_of (r : result exn (world * retval)) : retval :=
  match r with Ok (_, rv) => rv | Err _ => [] end.

(** The analytics row of the first event of [source_frame]. *)
Definition first_run_analytics : analytics_row :=
  {| earthquake_date := Some (mkDate 2024 2 1);
     earthquake_datetime := Some (mkTimestamp (mkDate 2024 2 1) 3 4 5);
     magnitude := Some 5.2%Q;
     latitude := Some 18.10000%Q;
     longitude := Some (-99.20000)%Q;
     depth_km := Some 10.00%Q;
     location_reference := Some "OAXACA";
     status := Some "revisado";
     year := Some 2024;
     month := Some 2;
     day_of_week := Some "Thursday ";
     hour_of_day := Some 3;
     magnitude_category := "Strong";
     depth_category := "Shallow";
     region := "Oaxaca";
     is_significant := Some true;
     batch_id := Some batch0 |}.

(** A world whose raw table already holds a row of another batch, with
    a date text that no date function can read. *)
Definition mixed_world : world :=
  mkWorld {[ CSV_FILE := Csv source_frame ]}
          (mkWarehouse [other_batch_row] [] []) ∅ None.

(** The world after one complete run on [fresh_world]. *)
Definition rerun_world : world := (dag_run context0 fresh_world).1.

End Examples.

(* ===================================================================== *)
(** ** Further notions used by the properties of the whole pipeline *)
(* ===================================================================== *)

Module Further.
Import Sql Unicode Warehouse ReferenceDates ReferenceLocale Dag Contract Examples.

(** The bound of a field's column: 10 ^ (precision - scale). *)
Definition column_bound (f : numeric_field) : Q :=
  inject_Z (ten_to (precision f - scale f)).

(** The region rules of [TRANSFORM_SQL] as one ordered keyword list, the
    longer alternatives OAXACA, PUEBLA and VERACRUZ left out: the first
    rule whose keyword occurs decides. *)
Definition region_rules : list (string * string) :=
  [ ("MICH", "Michoacán"); ("OAX", "Oaxaca");
    ("GUERRERO", "Guerrero"); ("GRO", "Guerrero");
    ("CHIAPAS", "Chiapas"); ("CHIS", "Chiapas");
    ("CDMX", "CDMX"); ("CIUDAD DE MEXICO", "CDMX");
    ("PUE", "Puebla"); ("VER", "Veracruz") ].

Definition first_matching_region `{Locale} (location_reference : option string)
  : string :=
  match List.find (λ rule, is_true (ILIKE_contains location_reference rule.1))
                  region_rules with
  | Some rule => rule.2
  | None => "Other"
  end.

(** [column_mapping] of [load_raw_data], on one column name. *)
Definition loader_alias (c : pystr) : pystr :=
  if decide (c = py "referencia_de_localizacion")
  then py "referencia_localizacion" else c.

(** The states of a run in schedule order: successes, then at most one
    failure, then upstream_failed to the end. *)
Inductive fail_fast : list task_state → Prop :=
| ff_done : fail_fast []
| ff_success l : fail_fast l → fail_fast (success :: l)
| ff_failed e l :
    Forall (λ s, s = upstream_failed) l → fail_fast (failed e :: l).

(** From [w] to [w'] the three tables are only appended to and no file
    disappears. *)
Definition grows (w w' : world) : Prop :=
  raw_earthquakes (dw w) `prefix_of` raw_earthquakes (dw w') ∧
  analytics_earthquakes (dw w) `prefix_of` analytics_earthquakes (dw w') ∧
  earthquake_statistics (dw w) `prefix_of` earthquake_statistics (dw w') ∧
  dom (files w) ⊆ dom (files w').

(** The code points of Basic Latin and Latin-1. *)
Definition latin1_codepoints : list codepoint := N.of_nat <$> seq 0 256.

(** [c] is left alone by every step of [normalize_column_name]. *)
Definition latin1_settled (c : codepoint) : bool :=
  bool_decide (latin1_decompose c = [c]) && negb (latin1_is_Mn c)
  && negb (latin1_isspace c) && (latin1_lower c =? c)%N
  && negb (c =? SPACE)%N && (latin1_isalnum c || (c =? UNDERSCORE)%N).

(** What the steps after decomposition make of a character [y]. *)
Definition latin1_outcome (y : codepoint) : option codepoint :=
  if latin1_is_Mn y then None
  else
    let c :=
      if (latin1_lower y =? SPACE)%N then UNDERSCORE else latin1_lower y in
    if latin1_isalnum c || (c =? UNDERSCORE)%N then Some c else None.

(** *** Example data *)

(** [good_row] as the CTE parses it. *)
Definition good_parsed : parsed_row :=
  {| p_id := 1;
     p_batch_id := Some batch0;
     p_earthquake_date := Some (mkDate 2024 2 1);
     p_earthquake_datetime := Some (mkTimestamp (mkDate 2024 2 1) 3 4 5);
     p_magnitude := Some 5.2%Q;
     p_latitude := Some 18.10000%Q;
     p_longitude := Some (-99.20000)%Q;
     p_depth_km := Some 10.00%Q;
     p_location_reference := Some "12 km al SUR de OAXACA, OAX";
     p_status := Some "revisado" |}.

(** [null_date_row] as the CTE parses it. *)
Definition null_date_parsed : parsed_row :=
  {| p_id := 3;
     p_batch_id := Some batch0;
     p_earthquake_date := None;
     p_earthquake_datetime := None;
     p_magnitude := Some 5.2%Q;
     p_latitude := Some 18.10000%Q;
     p_longitude := Some (-99.20000)%Q;
     p_depth_km := Some 10.00%Q;
     p_location_reference := Some "12 km al SUR de OAXACA, OAX";
     p_status := Some "revisado" |}.

(** A source whose two labels normalize to the same name. *)
Definition colliding_frame : DataFrame :=
  mkFrame [py "Fecha"; py " fecha "] [[Some "01/02/2024"; Some "02/02/2024"]].

Definition colliding_world : world :=
  mkWorld {[ CSV_FILE := Csv colliding_frame ]} (mkWarehouse [] [] []) ∅ None.

(** The worlds of a first run on [fresh_world], stage by stage. *)
Definition extracted_world : world :=
  world_of (extract_earthquake_data context0 fresh_world) fresh_world.

Definition loaded_world : world :=
  world_of (load_raw_data context0 extracted_world) fresh_world.

End Further.


(* ********************************************************************* *)
(** * Verified properties *)
(* ********************************************************************* *)

Import Py Sql Unicode Warehouse ReferenceDates ReferenceLocale Dag Contract
  Examples.

(* ===================================================================== *)
(** ** Text and patterns *)
(* ===================================================================== *)

Section TextFacts.

Lemma string_app_cons c (s t : string) : String c s +:+ t = String c (s +:+ t).
Proof. reflexivity. Qed.

Lemma string_app_nil_l (t : string) : "" +:+ t = t.
Proof. reflexivity. Qed.

Lemma string_app_nil_r (s : string) : s +:+ "" = s.
Proof. induction s as [|c s IH]; [done | by rewrite string_app_cons, IH]. Qed.

Lemma string_app_eq_nil (s1 s2 : string) : s1 +:+ s2 = "" → s1 = "" ∧ s2 = "".
Proof. destruct s1; [done | rewrite string_app_cons; discriminate]. Qed.

Lemma all_digits_app (s t : string) :
  Text.all_digits (s +:+ t) = Text.all_digits s && Text.all_digits t.
Proof.
  induction s as [|c s IH]; [done |].
  rewrite string_app_cons. simpl. rewrite IH. by rewrite andb_assoc.
Qed.

End TextFacts.

Section RegexFacts.
Import Regex.

Lemma nullable_lang r : nullable r = true ↔ lang r "".
Proof.
  split.
  - induction r; simpl; intros Hn; try discriminate.
    + constructor.
    + apply andb_true_iff in Hn as [H1 H2].
      change (lang (Seq r1 r2) ("" +:+ "")). constructor; auto.
    + apply orb_true_iff in Hn as [H1 | H2]; [apply L_AltL | apply L_AltR]; auto.
    + apply L_OptN.
    + apply L_StarN.
    + change (lang (Plus r) ("" +:+ "")). constructor; [auto | apply L_StarN].
  - intros Hl. remember EmptyString as s eqn:Hs.
    induction Hl; simpl; try discriminate; try done.
    + apply string_app_eq_nil in Hs as [-> ->]. rewrite IHHl1, IHHl2; done.
    + rewrite IHHl; done.
    + rewrite IHHl, orb_true_r; done.
    + apply string_app_eq_nil in Hs as [-> ->]. auto.
Qed.

Ltac inv_lang :=
  match goal with
  | H : lang Void _ |- _ => inversion H
  | H : lang Eps _ |- _ => inversion H; subst; clear H
  | H : lang (Seq _ _) _ |- _ => inversion H; subst; clear H
  | H : lang (Alt _ _) _ |- _ => inversion H; subst; clear H
  end.

Lemma deriv_sound a r : ∀ s, lang (deriv a r) s → lang r (String a s).
Proof.
  induction r; simpl; intros s Hl.
  - inv_lang.
  - inv_lang.
  - destruct (Ascii.eqb_spec a c) as [->|]; inv_lang. constructor.
  - destruct (Text.is_digit a) eqn:Hd; inv_lang. by constructor.
  - destruct (nullable r1) eqn:Hn; repeat inv_lang.
    + rewrite <- string_app_cons. constructor; auto.
    + rewrite <- (string_app_nil_l (String a s)).
      constructor; [by apply nullable_lang | auto].
    + rewrite <- string_app_cons. constructor; auto.
  - inv_lang; [apply L_AltL | apply L_AltR]; auto.
  - apply L_OptS; auto.
  - inv_lang. rewrite <- string_app_cons. constructor; auto.
  - inv_lang. rewrite <- string_app_cons. constructor; auto.
Qed.

Lemma deriv_complete r t :
  lang r t → ∀ a s, t = String a s → lang (deriv a r) s.
Proof.
  induction 1 as [ | c | c Hd | r1 r2 s1 s2 H1 IH1 H2 IH2 | r1 r2 s0 H1 IH1
                 | r1 r2 s0 H2 IH2 | r | r s0 H1 IH1 | r
                 | r s1 s2 H1 IH1 H2 IH2 | r s1 s2 H1 IH1 H2 IH2 ];
    intros a s Heq; simpl.
  - discriminate.
  - injection Heq as -> <-. rewrite Ascii.eqb_refl. constructor.
  - injection Heq as -> <-. rewrite Hd. constructor.
  - destruct s1 as [|b s1'].
    + rewrite string_app_nil_l in Heq. subst s2.
      assert (nullable r1 = true) as -> by (by apply nullable_lang).
      apply L_AltR. by apply IH2.
    + rewrite string_app_cons in Heq. injection Heq as -> <-.
      destruct (nullable r1); [apply L_AltL |]; constructor; auto.
  - apply L_AltL; auto.
  - apply L_AltR; auto.
  - discriminate.
  - auto.
  - discriminate.
  - destruct s1 as [|b s1'].
    + rewrite string_app_nil_l in Heq. by apply IH2.
    + rewrite string_app_cons in Heq. injection Heq as -> <-. constructor; auto.
  - destruct s1 as [|b s1'].
    + rewrite string_app_nil_l in Heq. subst s2.
      specialize (IH2 a s eq_refl). simpl in IH2. exact IH2.
    + rewrite string_app_cons in Heq. injection Heq as -> <-. constructor; auto.
Qed.

(** The matcher decides the language of the pattern. *)
Lemma matches_lang r s : matches r s = true ↔ lang r s.
Proof.
  revert r. induction s as [|a s IH]; intros r; simpl.
  - apply nullable_lang.
  - rewrite IH. split; [apply deriv_sound | intros Hl; by eapply deriv_complete].
Qed.

Lemma lang_digit t :
  lang Digit t ↔ ∃ c, t = String c "" ∧ Text.is_digit c = true.
Proof.
  split.
  - inversion 1; subst; eauto.
  - intros (c & -> & Hd). by constructor.
Qed.

Lemma lang_star_digit s : lang (Star Digit) s ↔ Text.all_digits s = true.
Proof.
  split.
  - intros Hl. remember (Star Digit) as r eqn:Hr.
    induction Hl; try discriminate; [done |].
    injection Hr as ->. rewrite all_digits_app.
    apply lang_digit in Hl1 as (c & -> & Hd). simpl. rewrite Hd. simpl. auto.
  - induction s as [|c s IH]; simpl; intros Hd; [apply L_StarN |].
    apply andb_true_iff in Hd as [Hc Hs].
    rewrite <- (string_app_nil_l s), <- string_app_cons.
    apply L_StarS; [by constructor | auto].
Qed.

Lemma lang_plus_digit s :
  lang (Plus Digit) s ↔ s ≠ "" ∧ Text.all_digits s = true.
Proof.
  split.
  - inversion 1 as [| | | | | | | | | |r s1 s2 H1 H2]; subst.
    apply lang_digit in H1 as (c & -> & Hd).
    rewrite string_app_cons, string_app_nil_l.
    split; [discriminate |]. simpl. rewrite Hd. by apply lang_star_digit.
  - intros [Hne Hd]. destruct s as [|c s]; [done |].
    simpl in Hd. apply andb_true_iff in Hd as [Hc Hs].
    rewrite <- (string_app_nil_l s), <- string_app_cons.
    constructor; [by constructor | by apply lang_star_digit].
Qed.

Lemma lang_opt_chr c s : lang (Opt (Chr c)) s ↔ s = "" ∨ s = String c "".
Proof.
  split.
  - inversion 1 as [| | | | | | |r s0 H1| | |]; subst; [by left |].
    inversion H1; subst. by right.
  - intros [-> | ->]; [apply L_OptN | apply L_OptS; constructor].
Qed.

Lemma lang_seq r1 r2 s :
  lang (Seq r1 r2) s ↔ ∃ s1 s2, s = s1 +:+ s2 ∧ lang r1 s1 ∧ lang r2 s2.
Proof.
  split.
  - inversion 1; subst; eauto.
  - intros (s1 & s2 & -> & H1 & H2). by constructor.
Qed.

(** ['^[0-9]+\.?[0-9]*$'] accepts the unsigned decimal spellings... *)
Lemma lang_unsigned_decimal s :
  lang unsigned_decimal s ↔ decimal_spelling false s.
Proof.
  unfold unsigned_decimal, decimal_spelling. rewrite lang_seq. split.
  - intros (d1 & rest & -> & H1 & H2).
    apply lang_seq in H2 as (p & d2 & -> & Hp & H2).
    apply lang_plus_digit in H1 as [Hne Hd1].
    apply lang_opt_chr in Hp. apply lang_star_digit in H2.
    destruct Hp as [-> | ->].
    + exists "", (d1 +:+ d2), "".
      rewrite !string_app_nil_l, string_app_nil_r, all_digits_app, Hd1, H2.
      repeat split; auto.
      intros Hnil. apply string_app_eq_nil in Hnil as [? _]. done.
    + exists "", d1, (String "." d2).
      rewrite string_app_cons, !string_app_nil_l. repeat split; eauto.
  - intros (sign & ds & fs & -> & Hsign & Hne & Hd & Hf).
    destruct Hsign as [-> | [? _]]; [| done].
    rewrite string_app_nil_l. exists ds, fs. split; [done |].
    split; [by apply lang_plus_digit |].
    apply lang_seq. destruct Hf as [-> | (fd & -> & Hfd)].
    + exists "", "". repeat split; [apply L_OptN | apply L_StarN].
    + exists ".", fd.
      repeat split; [apply L_OptS; constructor | by apply lang_star_digit].
Qed.

Lemma decimal_spelling_signed t :
  decimal_spelling true t ↔
  decimal_spelling false t ∨ ∃ u, t = String "-" u ∧ decimal_spelling false u.
Proof.
  unfold decimal_spelling. split.
  - intros (sign & ds & fs & -> & Hsign & Hrest).
    destruct Hsign as [-> | [_ ->]].
    + left. exists "", ds, fs. split; [done |]. split; [by left | done].
    + right. exists (ds +:+ fs). rewrite string_app_cons, string_app_nil_l.
      split; [done |]. exists "", ds, fs. split; [done |]. split; [by left | done].
  - intros [(sign & ds & fs & -> & Hsign & Hrest)
           | (u & -> & sign & ds & fs & -> & Hsign & Hrest)];
      (destruct Hsign as [-> | [? _]]; [| done]).
    + exists "", ds, fs. split; [done |]. split; [by left | done].
    + exists "-", ds, fs. rewrite string_app_cons, !string_app_nil_l.
      split; [done |]. split; [by right | done].
Qed.

(** ... and ['^-?[0-9]+\.?[0-9]*$'] the signed ones. *)
Lemma lang_signed_decimal s :
  lang signed_decimal s ↔ decimal_spelling true s.
Proof.
  rewrite decimal_spelling_signed, <- lang_unsigned_decimal.
  unfold signed_decimal. fold unsigned_decimal. rewrite lang_seq. split.
  - intros (sg & u & -> & Hs & Hu). apply lang_opt_chr in Hs as [-> | ->].
    + by left.
    + right. exists u. split; [done |]. by apply lang_unsigned_decimal.
  - intros [Hu | (u & -> & Hu)].
    + exists "", s. repeat split; [apply L_OptN | done].
    + exists "-", u. repeat split; [apply L_OptS; constructor |].
      by apply lang_unsigned_decimal.
Qed.

End RegexFacts.

(* ===================================================================== *)
(** ** Numeric coercion *)
(* ===================================================================== *)

Section NumericFacts.

Lemma is_digit_not_minus c : Text.is_digit c = true → Ascii.eqb c "-" = false.
Proof.
  intros Hd. destruct (Ascii.eqb_spec c "-") as [-> |]; [discriminate | done].
Qed.

Lemma span_digits_app ds rest :
  Text.all_digits ds = true →
  (rest = "" ∨ ∃ c r, rest = String c r ∧ Text.is_digit c = false) →
  Text.span_digits (ds +:+ rest) = (ds, rest).
Proof.
  intros Hd Hrest. induction ds as [|c ds IH].
  - rewrite string_app_nil_l. destruct Hrest as [-> | (c & r & -> & Hc)]; [done |].
    simpl. by rewrite Hc.
  - simpl in Hd. apply andb_true_iff in Hd as [Hc Hd].
    rewrite string_app_cons. simpl. rewrite Hc, (IH Hd). done.
Qed.

Lemma numeric_in_unsigned t :
  decimal_spelling false t → ∃ q, numeric_in t = Some q.
Proof.
  intros (sign & ds & fs & -> & Hsign & Hne & Hd & Hf).
  destruct Hsign as [-> | [? _]]; [| done]. rewrite string_app_nil_l.
  destruct ds as [|c ds]; [done |].
  unfold numeric_in, strip_minus. rewrite string_app_cons.
  simpl in Hd. apply andb_true_iff in Hd as [Hc Hd].
  rewrite (is_digit_not_minus c Hc). rewrite <- string_app_cons.
  rewrite span_digits_app.
  - destruct Hf as [-> | (fd & -> & Hfd)]; simpl; [eauto |].
    rewrite Hfd. simpl. eauto.
  - simpl. by rewrite Hc, Hd.
  - destruct Hf as [-> | (fd & -> & Hfd)]; [by left | right; eauto].
Qed.

Lemma numeric_in_signed t :
  decimal_spelling true t → ∃ q, numeric_in t = Some q.
Proof.
  intros [Hu | (u & -> & Hu)]%decimal_spelling_signed.
  - by apply numeric_in_unsigned.
  - destruct Hu as (sign & ds & fs & -> & Hsign & Hne & Hd & Hf).
    destruct Hsign as [-> | [? _]]; [| done]. rewrite string_app_nil_l.
    unfold numeric_in, strip_minus. replace (Ascii.eqb "-" "-") with true by done.
    rewrite span_digits_app; [| done |].
    + destruct ds as [|c ds]; [done |].
      destruct Hf as [-> | (fd & -> & Hfd)]; simpl; [eauto |].
      rewrite Hfd. simpl. eauto.
    + destruct Hf as [-> | (fd & -> & Hfd)]; [by left | right; eauto].
Qed.

Lemma spelling_of_field f t :
  Regex.matches (pattern f) t = true
  ↔ decimal_spelling (minus_allowed f) t.
Proof.
  rewrite matches_lang.
  destruct f; simpl; auto using lang_unsigned_decimal, lang_signed_decimal.
Qed.

Lemma coerce_field_unfold f t :
  coerce_field f (Some t) =
  if Regex.matches (pattern f) (Text.trim t)
  then CAST_NUMERIC (precision f) (scale f) (Some (Text.trim t))
  else Ok None.
Proof.
  destruct f; unfold coerce_field, coerce_magnitude, coerce_latitude,
    coerce_longitude, coerce_depth, coerce_numeric; simpl;
    by destruct (Regex.matches _ _).
Qed.


Lemma spelling_weaken b t : decimal_spelling b t → decimal_spelling true t.
Proof.
  destruct b; [done |]. intros Hu. apply decimal_spelling_signed. by left.
Qed.

Lemma coerce_no_match f t :
  ¬ decimal_spelling (minus_allowed f) (Text.trim t) →
  coerce_field f (Some t) = Ok None.
Proof.
  intros Hn. rewrite coerce_field_unfold.
  destruct (Regex.matches _ _) eqn:Hm; [| done].
  by apply spelling_of_field in Hm.
Qed.

Lemma coerce_match f t :
  decimal_spelling (minus_allowed f) (Text.trim t) →
  ∃ q, numeric_in (Text.trim t) = Some q ∧
       coerce_field f (Some t) =
         if ten_to (precision f) <=? Z.abs (Qnum (numeric_round (scale f) q))
         then Err (NumericFieldOverflow (Text.trim t))
         else Ok (Some (numeric_round (scale f) q)).
Proof.
  intros Hs. destruct (numeric_in_signed _ (spelling_weaken _ _ Hs)) as [q Hq].
  exists q. split; [done |]. rewrite coerce_field_unfold.
  apply spelling_of_field in Hs as ->. unfold CAST_NUMERIC. by rewrite Hq.
Qed.

End NumericFacts.


(** C4 (as amended).  For each of the four fields, NULL stays NULL; a
    text is turned into an absent value, without any error, exactly when
    its trimmed form is not a decimal spelling of the field's pattern:
    digits, an optional point and optional further digits, with a
    leading minus admitted for latitude and longitude only.  A trimmed
    text of that spelling is read as a number and, when the number fits
    the column's NUMERIC(precision, scale), the field holds it rounded
    to the scale. *)
Theorem C4_numeric_coercion_by_pattern (f : numeric_field) (t : string) :
  coerce_field f None = Ok None ∧
  (coerce_field f (Some t) = Ok None ↔
     ¬ decimal_spelling (minus_allowed f) (Text.trim t)) ∧
  (decimal_spelling (minus_allowed f) (Text.trim t) →
     ∃ q, numeric_in (Text.trim t) = Some q ∧
       (fits_column f q →
        coerce_field f (Some t) = Ok (Some (numeric_round (scale f) q)))).
Proof.
  split; [by destruct f |]. split; [split |].
  - intros Hc Hs. destruct (coerce_match f t Hs) as (q & _ & Heq).
    rewrite Hc in Heq. by destruct (_ <=? _).
  - apply coerce_no_match.
  - intros Hs. destruct (coerce_match f t Hs) as (q & Hq & Heq).
    exists q. split; [done |]. unfold fits_column. intros Hfit.
    rewrite Heq. destruct (Z.leb_spec (ten_to (precision f))
      (Z.abs (Qnum (numeric_round (scale f) q)))); [lia | done].
Qed.

(** C4 as stated fails: "-1.5" has the signed decimal spelling, yet
    magnitude and depth turn it into an absent value; "100" has the
    spelling and the magnitude cast raises instead of giving a number. *)
Lemma C4_counterexample_minus_and_range :
  decimal_spelling true (Text.trim "-1.5") ∧
  coerce_field Magnitude (Some "-1.5") = Ok None ∧
  coerce_field Depth (Some "-1.5") = Ok None ∧
  decimal_spelling true (Text.trim "100") ∧
  coerce_field Magnitude (Some "100") = Err (NumericFieldOverflow "100").
Proof.
  repeat split; try reflexivity.
  - exists "-", "1", ".5". repeat split; eauto.
  - exists "", "100", "". repeat split; eauto.
Qed.

(** The coercion at the latitude text " -99.2 ". *)
Lemma C4_witness :
  decimal_spelling (minus_allowed Latitude) (Text.trim " -99.2 ") ∧
  ∃ q, numeric_in (Text.trim " -99.2 ") = Some q ∧
       coerce_field Latitude (Some " -99.2 ") = Ok (Some (numeric_round (scale Latitude) q)).
Proof.
  assert (Hs : decimal_spelling (minus_allowed Latitude) (Text.trim " -99.2 ")).
  { exists "-", "99", ".2". repeat split; eauto. }
  split; [exact Hs |].
  destruct (C4_numeric_coercion_by_pattern Latitude " -99.2 ") as (_ & _ & H).
  destruct (H Hs) as (q & Hq & Hfit). exists q. split; [exact Hq |].
  apply Hfit. vm_compute in Hq. injection Hq as <-. vm_compute. reflexivity.
Defined.


(* ===================================================================== *)
(** ** Significance and categories *)
(* ===================================================================== *)

Section ThreeValued.

Lemma Qlt_bool_iff (x y : Q) : Qlt_bool x y = true ↔ (x < y)%Q.
Proof.
  unfold Qlt_bool. rewrite negb_true_iff. split.
  - intros Hb. apply Qnot_le_lt. intros Hle. apply Qle_bool_iff in Hle. congruence.
  - intros Hlt. destruct (Qle_bool y x) eqn:Hb; [| done].
    apply Qle_bool_iff in Hb. lra.
Qed.

Lemma Qlt_bool_false_iff (x y : Q) : Qlt_bool x y = false ↔ (y <= x)%Q.
Proof.
  unfold Qlt_bool. rewrite negb_false_iff. apply Qle_bool_iff.
Qed.

Lemma Qle_bool_false_iff (x y : Q) : Qle_bool x y = false ↔ (y < x)%Q.
Proof.
  split.
  - intros Hb. apply Qnot_le_lt. intros Hle. apply Qle_bool_iff in Hle. congruence.
  - intros Hlt. destruct (Qle_bool x y) eqn:Hb; [| done].
    apply Qle_bool_iff in Hb. lra.
Qed.

End ThreeValued.

Ltac q_cases :=
  repeat match goal with
  | |- context [Qle_bool ?a ?b] =>
      let H := fresh "Hq" in
      destruct (Qle_bool a b) eqn:H;
      [apply Qle_bool_iff in H | apply Qle_bool_false_iff in H]
  end.

Ltac q_finish :=
  simpl; q_cases; simpl; try split; intros;
  repeat match goal with
         | H : _ ∨ _ |- _ => destruct H
         | H : _ ∧ _ |- _ => destruct H
         end;
  try done; try lra; try (left; lra); try (right; lra); try (split; lra).


(** C5 (as amended).  With both values present the flag is true exactly
    when magnitude >= 5.0 or depth < 50, and false exactly when
    magnitude < 5.0 and depth >= 50.  With the depth absent nothing is
    raised: the flag is true exactly when magnitude >= 5.0, and it is
    NULL, not false, exactly when magnitude < 5.0.  Magnitude 5.0 with
    depth 100 and magnitude 2.0 with depth 40 are significant, magnitude
    2.0 with depth 100 is not. *)
Theorem C5_significance_flag (m : Q) :
  (∀ d, significance (Some m) (Some d) = Some true ↔ (5.0 <= m ∨ d < 50)%Q) ∧
  (∀ d, significance (Some m) (Some d) = Some false ↔ (m < 5.0 ∧ 50 <= d)%Q) ∧
  (significance (Some m) None = Some true ↔ (5.0 <= m)%Q) ∧
  (significance (Some m) None = None ↔ (m < 5.0)%Q) ∧
  significance (Some 5.0%Q) (Some 100%Q) = Some true ∧
  significance (Some 2.0%Q) (Some 40%Q) = Some true ∧
  significance (Some 2.0%Q) (Some 100%Q) = Some false.
Proof.
  unfold significance, sql_or, sql_ge, sql_lt, Qlt_bool.
  split; [intros d; q_finish |]. split; [intros d; q_finish |].
  split; [q_finish |]. split; [q_finish |]. done.
Qed.

(** C5 as stated fails: magnitude 2.0 with the depth absent gives NULL,
    not false. *)
Lemma C5_counterexample_null_flag :
  significance (Some 2.0%Q) None = None ∧
  significance (Some 2.0%Q) None ≠ Some false.
Proof. split; [reflexivity | discriminate]. Qed.


(** A magnitude that went through the cast has one decimal: no text is
    coerced to 6.999. *)
Lemma coerced_magnitude_one_decimal (x : option string) (m : Q) :
  coerce_magnitude x = Ok (Some m) → Qden m = 10%positive ∧ ¬ (m == 6.999)%Q.
Proof.
  unfold coerce_magnitude, coerce_numeric, CAST_NUMERIC. intros Hc.
  assert (Hden : Qden m = 10%positive).
  { destruct (is_true _); [| done]. destruct (TRIM x); [| done].
    destruct (numeric_in _); [| done]. destruct (_ <=? _); [done |].
    by injection Hc as <-. }
  split; [done |]. unfold Qeq. rewrite Hden. simpl. lia.
Qed.


(** The values the categories see went through the cast, which rounds:
    the text 6.999 is coerced to 7.0 and the text 69.999 to 70.00, so
    these two texts end in the next category. *)
Lemma cast_rounds_before_categories :
  magnitude_category_of_text "6.999" = Ok "Great" ∧
  magnitude_category_of_text "6.94" = Ok "Major" ∧
  depth_category_of_text "69.999" = Ok "Intermediate" ∧
  depth_category_of_text "69.99" = Ok "Shallow".
Proof. repeat split; vm_compute; reflexivity. Qed.

(* ===================================================================== *)
(** ** The transform statement *)
(* ===================================================================== *)

Section Traverse.
Context {E A B : Type} (f : A → result E B).

Lemma traverse_ok (l : list A) (bs : list B) :
  traverse f l = Ok bs ↔ Forall2 (λ a b, f a = Ok b) l bs.
Proof.
  revert bs. induction l as [|a l IH]; intros bs; simpl.
  - split; [intros [= <-]; constructor | by inversion 1].
  - destruct (f a) as [b|e] eqn:Hfa; simpl.
    + destruct (traverse f l) as [bs'|e] eqn:Htl; simpl.
      * split.
        -- intros [= <-]. constructor; [done | by apply IH].
        -- inversion 1 as [|? b' ? bs'' Hb Hbs]; subst.
           apply IH in Hbs. congruence.
      * split; [done |].
        inversion 1 as [|? b' ? bs'' Hb Hbs]; subst.
        apply IH in Hbs. congruence.
    + split; [done |]. inversion 1; congruence.
Qed.

Lemma traverse_err (l : list A) (a : A) (e : E) :
  In a l → f a = Err e → ∃ e', traverse f l = Err e'.
Proof.
  induction l as [|x l IH]; simpl; [done |].
  intros [-> | Hin] Hfa.
  - rewrite Hfa. simpl. eauto.
  - destruct (f x); simpl; [| eauto].
    destruct (IH Hin Hfa) as [e' ->]. simpl. eauto.
Qed.

Lemma traverse_total (l : list A) :
  (∀ a, In a l → is_ok (f a) = true) → ∃ bs, traverse f l = Ok bs.
Proof.
  induction l as [|x l IH]; simpl; [eauto |].
  intros Hall. destruct (f x) as [b|e] eqn:Hfx.
  - destruct IH as [bs ->]; [by auto |]. simpl. eauto.
  - specialize (Hall x (or_introl eq_refl)). by rewrite Hfx in Hall.
Qed.

End Traverse.

Section TransformFacts.
Context `{Locale} `{DateFunctions}.

Lemma in_batch_rows lit raw r :
  In r (List.filter (in_batch lit) raw) ↔ In r raw ∧ in_batch lit r = true.
Proof. apply filter_In. Qed.

Lemma in_batch_col lit r : in_batch lit r = true ↔ col r "batch_id" = Some lit.
Proof.
  unfold in_batch, sql_eq_text. destruct (col r "batch_id") as [b|]; simpl.
  - destruct (String.eqb_spec b lit) as [-> |]; simpl; split; congruence.
  - done.
Qed.

(** The batch filter keeps the rows whose [batch_id] is the literal. *)
Lemma filter_in_batch lit raw :
  List.filter (in_batch lit) raw
    = filter (λ r, col r "batch_id" = Some lit) raw.
Proof.
  induction raw as [|r raw IH]; [done |]. simpl. rewrite filter_cons, IH.
  destruct (in_batch lit r) eqn:Hb.
  - apply in_batch_col in Hb. by rewrite decide_True.
  - rewrite decide_False; [done |]. intros Hc%in_batch_col. congruence.
Qed.

(** An error on one row of the batch is an error of the statement. *)
Lemma transform_row_error lit w r e :
  In r (raw_earthquakes w) → in_batch lit r = true → transform_row r = Err e →
  ∃ e', TRANSFORM_SQL lit w = Err e'.
Proof.
  intros Hin Hb He. unfold TRANSFORM_SQL, transform_rows.
  destruct (traverse_err transform_row
              (List.filter (in_batch lit) (raw_earthquakes w)) r e)
    as [e' ->]; [by apply filter_In | done | simpl; eauto].
Qed.

Lemma transform_inv lit w w' :
  TRANSFORM_SQL lit w = Ok w' →
  ∃ rows, transform_rows lit (raw_earthquakes w) = Ok rows ∧
    w' = {| raw_earthquakes := raw_earthquakes w;
            analytics_earthquakes := analytics_earthquakes w ++ rows;
            earthquake_statistics := earthquake_statistics w |}.
Proof.
  unfold TRANSFORM_SQL. destruct (transform_rows _ _) as [rows|e]; simpl; [| done].
  intros [= <-]. eauto.
Qed.

(** What [parse_row] returns when it returns. *)
Lemma parse_row_ok r p :
  parse_row r = Ok p →
  TO_DATE (col r "fecha_utc") = Ok (p_earthquake_date p) ∧
  TO_TIMESTAMP (datetime_text r) = Ok (p_earthquake_datetime p) ∧
  coerce_magnitude (col r "magnitud") = Ok (p_magnitude p) ∧
  coerce_latitude (col r "latitud") = Ok (p_latitude p) ∧
  coerce_longitude (col r "longitud") = Ok (p_longitude p) ∧
  coerce_depth (col r "profundidad") = Ok (p_depth_km p).
Proof.
  unfold parse_row, datetime_text.
  destruct (TO_DATE _) as [d|]; simpl; [| done].
  destruct (TO_TIMESTAMP _) as [t|]; simpl; [| done].
  destruct (coerce_magnitude _) as [m|]; simpl; [| done].
  destruct (coerce_latitude _) as [la|]; simpl; [| done].
  destruct (coerce_longitude _) as [lo|]; simpl; [| done].
  destruct (coerce_depth _) as [dp|]; simpl; [| done].
  by intros [= <-].
Qed.

Lemma parse_row_total r :
  is_ok (TO_DATE (col r "fecha_utc")) = true →
  is_ok (TO_TIMESTAMP (datetime_text r)) = true →
  (∀ f, is_ok (coerce_field f (col r (column f))) = true) →
  ∃ p, parse_row r = Ok p.
Proof.
  intros Hd Ht Hf. unfold parse_row. fold (datetime_text r).
  destruct (TO_DATE _) as [d|]; [simpl | done].
  destruct (TO_TIMESTAMP _) as [t|]; [simpl | done].
  pose proof (Hf Magnitude) as Hm. pose proof (Hf Latitude) as Hla.
  pose proof (Hf Longitude) as Hlo. pose proof (Hf Depth) as Hdp.
  simpl in Hm, Hla, Hlo, Hdp.
  destruct (coerce_magnitude _) as [m|]; [simpl | done].
  destruct (coerce_latitude _) as [la|]; [simpl | done].
  destruct (coerce_longitude _) as [lo|]; [simpl | done].
  destruct (coerce_depth _) as [dp|]; [simpl | done].
  eauto.
Qed.

Lemma insert_of_gate p :
  is_Some (insert_of p) ↔
  is_Some (p_magnitude p) ∧ is_Some (p_latitude p) ∧ is_Some (p_longitude p).
Proof.
  unfold insert_of, where_not_null, is_not_null.
  destruct (p_magnitude p), (p_latitude p), (p_longitude p); simpl;
    split; try (intros (? & ? & ?)); try intros ?;
    repeat match goal with H : is_Some None |- _ => by destruct H end;
    eauto.
Qed.

Lemma inserted_not_null p a :
  insert_of p = Some a → no_null_coordinates a.
Proof.
  intros Hi. assert (Hs : is_Some (insert_of p)) by eauto.
  apply insert_of_gate in Hs. unfold insert_of in Hi.
  destruct (where_not_null p); [| done]. injection Hi as <-. exact Hs.
Qed.

Lemma parse_row_text r p :
  parse_row r = Ok p →
  p_batch_id p = col r "batch_id" ∧ p_id p = raw_id r ∧
  p_location_reference p = TRIM (col r "referencia_localizacion") ∧
  p_status p = LOWER (TRIM (col r "estatus")).
Proof.
  unfold parse_row.
  destruct (TO_DATE _) as [d|]; simpl; [| done].
  destruct (TO_TIMESTAMP _) as [t|]; simpl; [| done].
  destruct (coerce_magnitude _) as [m|]; simpl; [| done].
  destruct (coerce_latitude _) as [la|]; simpl; [| done].
  destruct (coerce_longitude _) as [lo|]; simpl; [| done].
  destruct (coerce_depth _) as [dp|]; simpl; [| done].
  by intros [= <-].
Qed.

Lemma insert_of_inv (p : parsed_row) (a : analytics_row) :
  insert_of p = Some a →
  a = select_row p ∧
  ∃ m la lo, p_magnitude p = Some m ∧ p_latitude p = Some la ∧ p_longitude p = Some lo.
Proof.
  intros Hi. assert (Hs : is_Some (insert_of p)) by eauto.
  apply insert_of_gate in Hs as ([m Hm] & [la Hla] & [lo Hlo]).
  unfold insert_of in Hi. destruct (where_not_null p); [| done].
  injection Hi as <-. eauto 10.
Qed.

(** A row that passes the WHERE clause goes through the SELECT lists. *)
Lemma transform_row_passes r :
  coerces_mandatory r →
  transform_row r = (let* p := parse_row r in Ok (Some (select_row p))).
Proof.
  intros ([m Em] & [la Ela] & [lo Elo]). unfold transform_row.
  rewrite Em, Ela, Elo. simpl.
  destruct (parse_row r) as [p|e] eqn:Hp; simpl; [| done].
  apply parse_row_ok in Hp as (_ & _ & Hm & Hla & Hlo & _).
  rewrite Em in Hm. rewrite Ela in Hla. rewrite Elo in Hlo.
  injection Hm as Hm. injection Hla as Hla. injection Hlo as Hlo.
  unfold insert_of, where_not_null. by rewrite <- Hm, <- Hla, <- Hlo.
Qed.

(** A row that does not pass contributes nothing, if it does not raise. *)
Lemma transform_row_rejects r o :
  ¬ coerces_mandatory r → transform_row r = Ok o → o = None.
Proof.
  intros Hn. unfold transform_row, coerces_mandatory in *.
  destruct (coerce_magnitude _) as [[m|]|]; simpl; [| by intros [= <-] | done].
  destruct (coerce_latitude _) as [[la|]|]; simpl; [| by intros [= <-] | done].
  destruct (coerce_longitude _) as [[lo|]|]; simpl; [| by intros [= <-] | done].
  destruct Hn. eauto 10.
Qed.

(** What raises on a row: one of the three casts of the WHERE clause,
    or the SELECT list. *)
Lemma transform_row_raises r e :
  transform_row r = Err e →
  parse_row r = Err e ∨ ∃ f, coerce_field f (col r (column f)) = Err e.
Proof.
  unfold transform_row.
  destruct (coerce_magnitude _) as [[m|]|] eqn:Hm; simpl; try done;
    [| intros [= <-]; right; by exists Magnitude].
  destruct (coerce_latitude _) as [[la|]|] eqn:Hla; simpl; try done;
    [| intros [= <-]; right; by exists Latitude].
  destruct (coerce_longitude _) as [[lo|]|] eqn:Hlo; simpl; try done;
    [| intros [= <-]; right; by exists Longitude].
  destruct (parse_row r) as [p|e'] eqn:Hp; simpl; [done |].
  intros [= <-]. by left.
Qed.

(** The rows of the batch all go through the SELECT lists when none of
    them raises there. *)
Lemma transform_rows_total lit raw :
  (∀ r, In r raw → in_batch lit r = true → is_ok (parse_row r) = true) →
  ∃ rows, transform_rows lit raw = Ok rows.
Proof.
  intros Hall. unfold transform_rows.
  destruct (traverse_total transform_row (List.filter (in_batch lit) raw))
    as [outcomes ->]; [| simpl; eauto].
  intros r [Hin Hb]%filter_In. specialize (Hall r Hin Hb).
  destruct (transform_row r) as [o|e] eqn:Hr; [done |].
  apply transform_row_raises in Hr as [Hp | [f Hf]].
  - by rewrite Hp in Hall.
  - destruct (parse_row r) as [p|] eqn:Hp; [| done].
    apply parse_row_ok in Hp as (_ & _ & Hm & Hla & Hlo & Hdp).
    destruct f; simpl in Hf; congruence.
Qed.

(** Every row the statement inserts carries the literal of the
    statement as its batch_id. *)
Lemma transform_rows_batch_id lit raw rows :
  transform_rows lit raw = Ok rows → Forall (λ a, batch_id a = Some lit) rows.
Proof.
  unfold transform_rows.
  destruct (traverse _ _) as [outcomes|] eqn:Ht; simpl; [| done].
  intros [= <-]. apply traverse_ok in Ht.
  apply Forall_forall. intros a (o & Ho & Hoa)%list_elem_of_omap.
  simpl in Hoa. subst o. apply list_elem_of_lookup in Ho as [i Hi].
  destruct (Forall2_lookup_r _ _ _ _ _ Ht Hi) as (r & Hr & Hra).
  apply list_elem_of_lookup_2, list_elem_of_In, filter_In in Hr as [_ Hb].
  simpl in Hra. unfold transform_row in Hra.
  destruct (coerce_magnitude _) as [[m|]|]; simpl in Hra; try done.
  destruct (coerce_latitude _) as [[la|]|]; simpl in Hra; try done.
  destruct (coerce_longitude _) as [[lo|]|]; simpl in Hra; try done.
  destruct (parse_row r) as [p|] eqn:Hp; simpl in Hra; [| done].
  injection Hra as Hra. apply insert_of_inv in Hra as [-> _]. simpl.
  apply parse_row_text in Hp as [-> _]. by apply in_batch_col.
Qed.

(** The statement does not see the rows of other batches. *)
Lemma transform_rows_of_batch lit raw :
  transform_rows lit (filter (λ r, col r "batch_id" = Some lit) raw)
    = transform_rows lit raw.
Proof.
  unfold transform_rows. f_equal. f_equal. rewrite <- filter_in_batch.
  induction raw as [|r raw IH]; [done |]. simpl.
  destruct (in_batch lit r) eqn:Hb; [| done]. simpl. by rewrite Hb, IH.
Qed.

End TransformFacts.

(** C3 (as amended).  The statement evaluates when no row of the batch
    raises in its SELECT lists.  When it evaluates, every raw row of the
    batch, that is every raw row whose batch_id is the one of the
    statement, contributes its analytics row if magnitude, latitude and
    longitude all coerce to a number and contributes nothing otherwise;
    the row it contributes carries the three coerced values and the
    batch_id, so no inserted row has a null magnitude, latitude or
    longitude, and the raw rows stay as they are.  When a row whose
    three values coerce raises in the SELECT lists (an unreadable date,
    a depth out of range), the statement fails and inserts nothing, the
    rows that coerce included. *)
Theorem C3_row_inclusion_gate `{Locale} `{DateFunctions} (lit : string)
    (w : warehouse) :
  let batch := filter (λ r, col r "batch_id" = Some lit) (raw_earthquakes w) in
  ((∀ r, r ∈ batch → is_ok (parse_row r) = true) →
   is_ok (TRANSFORM_SQL lit w) = true) ∧
  (∀ w', TRANSFORM_SQL lit w = Ok w' →
     ∃ outcomes,
       Forall2 (λ r o,
         (coerces_mandatory r →
          ∃ p a, parse_row r = Ok p ∧ a = select_row p ∧ o = Some a ∧
            coerce_magnitude (col r "magnitud") = Ok (magnitude a) ∧
            coerce_latitude (col r "latitud") = Ok (latitude a) ∧
            coerce_longitude (col r "longitud") = Ok (longitude a) ∧
            batch_id a = Some lit) ∧
         (¬ coerces_mandatory r → o = None)) batch outcomes ∧
       analytics_earthquakes w' = analytics_earthquakes w ++ omap id outcomes ∧
       raw_earthquakes w' = raw_earthquakes w ∧
       Forall no_null_coordinates (omap id outcomes)) ∧
  (∀ r, r ∈ batch → coerces_mandatory r → is_ok (parse_row r) = false →
     is_ok (TRANSFORM_SQL lit w) = false).
Proof.
  intros batch. subst batch. rewrite <- filter_in_batch. split; [| split].
  - intros Hall.
    destruct (transform_rows_total lit (raw_earthquakes w)) as [rows Hrows].
    + intros r Hin Hb. apply Hall, list_elem_of_In, filter_In. done.
    + unfold TRANSFORM_SQL. by rewrite Hrows.
  - intros w' (rows & Hrows & ->)%transform_inv. unfold transform_rows in Hrows.
    destruct (traverse _ _) as [outcomes|] eqn:Ht; simpl in Hrows; [| done].
    injection Hrows as <-. exists outcomes. apply traverse_ok in Ht.
    assert (Hrow : Forall2 (λ r o, in_batch lit r = true ∧ transform_row r = Ok o)
                     (List.filter (in_batch lit) (raw_earthquakes w)) outcomes).
    { apply Forall2_same_length_lookup_2; [by eapply Forall2_length |].
      intros i r o Hr Ho. split.
      - by apply list_elem_of_lookup_2, list_elem_of_In, filter_In in Hr as [_ ?].
      - exact (Forall2_lookup_lr _ _ _ _ _ _ Ht Hr Ho). }
    split; [| split; [done | split; [done |]]].
    + eapply Forall2_impl; [exact Hrow |]. intros r o [Hb Hro]. split.
      * intros Hc. rewrite (transform_row_passes r Hc) in Hro.
        destruct (parse_row r) as [p|] eqn:Hp; simpl in Hro; [| done].
        injection Hro as <-. exists p, (select_row p).
        pose proof (parse_row_ok r p Hp) as (_ & _ & Hm & Hla & Hlo & _).
        repeat split; try done. simpl.
        unfold parse_row in Hp.
        destruct (TO_DATE _); simpl in Hp; [| done].
        destruct (TO_TIMESTAMP _); simpl in Hp; [| done].
        destruct (coerce_magnitude _); simpl in Hp; [| done].
        destruct (coerce_latitude _); simpl in Hp; [| done].
        destruct (coerce_longitude _); simpl in Hp; [| done].
        destruct (coerce_depth _); simpl in Hp; [| done].
        injection Hp as <-. simpl. by apply in_batch_col.
      * intros Hn. by eapply transform_row_rejects.
    + apply Forall_forall. intros a (o & Ho & Hoa)%list_elem_of_omap.
      simpl in Hoa. subst o.
      apply list_elem_of_lookup in Ho as [i Hi].
      destruct (Forall2_lookup_r _ _ _ _ _ Hrow Hi) as (r & _ & _ & Hr).
      unfold transform_row in Hr.
      destruct (coerce_magnitude _) as [[m|]|]; simpl in Hr; try done.
      destruct (coerce_latitude _) as [[la|]|]; simpl in Hr; try done.
      destruct (coerce_longitude _) as [[lo|]|]; simpl in Hr; try done.
      destruct (parse_row r) as [p|]; simpl in Hr; [| done].
      injection Hr as Hr. by eapply inserted_not_null.
  - intros r [Hin Hb]%list_elem_of_In%filter_In Hc Hbad.
    destruct (parse_row r) as [p|e] eqn:Hp; [done |].
    destruct (transform_row_error lit w r e Hin Hb) as [e' ->]; [| done].
    by rewrite (transform_row_passes r Hc), Hp.
Qed.

(** C3 as stated fails: the magnitude, latitude and longitude of the
    well-formed row coerce, yet the statement inserts no row for it,
    because another row of the batch carries a date text the server
    cannot read. *)
Lemma C3_counterexample_aborted_batch :
  In good_row [good_row; undated_row] ∧
  col good_row "batch_id" = Some batch0 ∧
  coerce_magnitude (col good_row "magnitud") = Ok (Some 5.2%Q) ∧
  coerce_latitude (col good_row "latitud") = Ok (Some 18.10000%Q) ∧
  coerce_longitude (col good_row "longitud") = Ok (Some (-99.20000)%Q) ∧
  TRANSFORM_SQL batch0 (warehouse_of [good_row; undated_row])
    = Err (DatetimeFieldError "sin fecha").
Proof. repeat split; try (vm_compute; reflexivity). by left. Qed.

(** The gate on a batch of a well-formed event and one with an
    uncomputable magnitude, beside a row of another batch. *)
Lemma C3_witness :
  ∃ w', TRANSFORM_SQL batch0
          (warehouse_of [good_row; uncomputable_row; other_batch_row]) = Ok w' ∧
        analytics_earthquakes w' = [good_analytics].
Proof.
  destruct (C3_row_inclusion_gate batch0
              (warehouse_of [good_row; uncomputable_row; other_batch_row]))
    as (Hev & Hrows & _).
  destruct (TRANSFORM_SQL batch0 _) as [w'|e] eqn:Ht.
  - exists w'. split; [done |].
    destruct (Hrows w' eq_refl) as (outcomes & Hgate & Ha & _).
    rewrite Ha. vm_compute in Ht. injection Ht as <-.
    apply Forall2_cons_inv_l in Hgate as (o1 & os1 & [Hin1 _] & Hgate & ->).
    apply Forall2_cons_inv_l in Hgate as (o2 & os2 & [_ Hout2] & Hgate & ->).
    apply Forall2_nil_inv_l in Hgate as ->.
    destruct Hin1 as (p & a & Hp & -> & -> & _).
    { repeat split; eexists; vm_compute; reflexivity. }
    rewrite Hout2.
    { vm_compute in Hp. injection Hp as <-. reflexivity. }
    intros ([m Hm] & _). vm_compute in Hm. discriminate.
  - exfalso. assert (Hok : false = true); [| discriminate].
    apply Hev. intros r Hr. vm_compute in Hr.
    apply list_elem_of_In in Hr. simpl in Hr.
    destruct Hr as [<- | [<- | []]]; vm_compute; reflexivity.
Defined.

(** C1 (as amended).  The statement is a plain INSERT: a run appends
    the rows of the batch to the table.  On unchanged raw data a second
    run computes the same rows and appends them again, so the table then
    holds them twice; both runs leave the raw rows as they are, and the
    table after two runs equals the table after one only when the batch
    contributes no row. *)
Theorem C1_transform_rerun_appends `{Locale} `{DateFunctions}
    (lit : string) (w w1 : warehouse) :
  TRANSFORM_SQL lit w = Ok w1 →
  ∃ rows w2,
    transform_rows lit (raw_earthquakes w) = Ok rows ∧
    analytics_earthquakes w1 = analytics_earthquakes w ++ rows ∧
    TRANSFORM_SQL lit w1 = Ok w2 ∧
    analytics_earthquakes w2 = analytics_earthquakes w ++ rows ++ rows ∧
    raw_earthquakes w2 = raw_earthquakes w ∧
    (analytics_earthquakes w2 = analytics_earthquakes w1 ↔ rows = []).
Proof.
  intros Ht. apply transform_inv in Ht as (rows & Hrows & ->).
  exists rows. eexists. split; [done |]. split; [done |].
  unfold TRANSFORM_SQL at 1. simpl. rewrite Hrows. simpl.
  split; [reflexivity |]. simpl. rewrite <- (assoc_L (++)).
  split; [done |]. split; [done |]. split.
  - intros Heq. apply (f_equal length) in Heq. rewrite !length_app in Heq.
    destruct rows; [done | simpl in Heq; lia].
  - intros ->. by rewrite !app_nil_r.
Qed.

(** C1 as stated fails: one well-formed event gives one analytics row
    after one run and the same row twice after two. *)
Lemma C1_counterexample_duplicates :
  (let* w1 := TRANSFORM_SQL batch0 (warehouse_of [good_row]) in
   Ok (analytics_earthquakes w1)) = Ok [good_analytics] ∧
  (let* w1 := TRANSFORM_SQL batch0 (warehouse_of [good_row]) in
   let* w2 := TRANSFORM_SQL batch0 w1 in
   Ok (analytics_earthquakes w2)) = Ok [good_analytics; good_analytics].
Proof. split; vm_compute; reflexivity. Qed.

(** Two runs on a one-event batch. *)
Lemma C1_witness :
  ∃ w1 w2,
    TRANSFORM_SQL batch0 (warehouse_of [good_row]) = Ok w1 ∧
    TRANSFORM_SQL batch0 w1 = Ok w2 ∧
    analytics_earthquakes w2 = [good_analytics; good_analytics].
Proof.
  destruct (TRANSFORM_SQL batch0 (warehouse_of [good_row])) as [w1|e] eqn:Ht;
    [| by vm_compute in Ht].
  destruct (C1_transform_rerun_appends batch0 _ w1 Ht)
    as (rows & w2 & Hrows & _ & Ht2 & Ha2 & _).
  exists w1, w2. split; [done |]. split; [exact Ht2 |]. rewrite Ha2.
  vm_compute in Hrows. injection Hrows as <-. reflexivity.
Defined.

(** C2 (as amended).  A date or date-time text that the server cannot
    read, on a row of the batch whose magnitude, latitude and longitude
    coerce, is an error of the whole statement, which then inserts
    nothing.  A missing date or time gives an absent timestamp, and the
    row goes on with its other fields.  A numeric text off its pattern
    is never an error: it gives an absent value for that field. *)
Theorem C2_date_errors_abort `{Locale} `{DateFunctions} (lit : string)
    (w : warehouse) (r : raw_row) :
  (In r (raw_earthquakes w) → in_batch lit r = true →
   coerces_mandatory r →
   is_ok (TO_DATE (col r "fecha_utc")) = false
   ∨ is_ok (TO_TIMESTAMP (datetime_text r)) = false →
   ∃ e, TRANSFORM_SQL lit w = Err e) ∧
  (datetime_text r = None →
   is_ok (TO_DATE (col r "fecha_utc")) = true →
   (∀ f, is_ok (coerce_field f (col r (column f))) = true) →
   ∃ p, parse_row r = Ok p ∧ p_earthquake_datetime p = None ∧
        ∀ f, coerce_field f (col r (column f)) = Ok (parsed_field f p)) ∧
  (∀ f t, ¬ decimal_spelling (minus_allowed f) (Text.trim t) →
          coerce_field f (Some t) = Ok None).
Proof.
  split; [| split].
  - intros Hin Hb Hc Hbad.
    destruct (parse_row r) as [p|e] eqn:Hp.
    + apply parse_row_ok in Hp as (Hd & Ht & _).
      rewrite Hd, Ht in Hbad. by destruct Hbad.
    + apply (transform_row_error lit w r e Hin Hb).
      by rewrite (transform_row_passes r Hc), Hp.
  - intros Hnull Hd Hf.
    destruct (parse_row_total r) as [p Hp]; [done | by rewrite Hnull | done |].
    exists p. split; [done |].
    apply parse_row_ok in Hp as (_ & Ht & Hm & Hla & Hlo & Hdp).
    rewrite Hnull in Ht. simpl in Ht. injection Ht as <-.
    split; [done |]. by intros [].
  - intros f t. apply coerce_no_match.
Qed.

(** C2 as stated fails: a row with the date text "sin fecha" makes the
    statement fail for the whole batch, the well-formed row included;
    so does a magnitude text "100", which passes the pattern and
    overflows NUMERIC(3,1). *)
Lemma C2_counterexample_abort :
  TRANSFORM_SQL batch0 (warehouse_of [good_row; undated_row])
    = Err (DatetimeFieldError "sin fecha") ∧
  TRANSFORM_SQL batch0 (warehouse_of [null_date_row; overflow_row])
    = Err (NumericFieldOverflow "100").
Proof. split; vm_compute; reflexivity. Qed.

(** The three parts at concrete rows. *)
Lemma C2_witness :
  (∃ e, TRANSFORM_SQL batch0 (warehouse_of [good_row; undated_row]) = Err e) ∧
  (∃ p, parse_row null_date_row = Ok p ∧ p_earthquake_datetime p = None ∧
        p_magnitude p = Some 5.2%Q) ∧
  coerce_field Magnitude (Some "no calculable") = Ok None.
Proof.
  split; [| split].
  - apply (C2_date_errors_abort batch0 (warehouse_of [good_row; undated_row])
             undated_row).
    + right. left. reflexivity.
    + reflexivity.
    + repeat split; eexists; vm_compute; reflexivity.
    + left. reflexivity.
  - destruct (C2_date_errors_abort batch0 (warehouse_of []) null_date_row)
      as (_ & Hnull & _).
    destruct Hnull as (p & Hp & Ht & Hf).
    + reflexivity.
    + reflexivity.
    + intros []; reflexivity.
    + exists p. split; [exact Hp |]. split; [exact Ht |].
      specialize (Hf Magnitude).
      assert (Hm : coerce_field Magnitude (col null_date_row (column Magnitude))
                   = Ok (Some 5.2%Q)) by (vm_compute; reflexivity).
      rewrite Hm in Hf. injection Hf as Hf. symmetry. exact Hf.
  - apply (C2_date_errors_abort batch0 (warehouse_of []) good_row).
    intros Hs. apply spelling_of_field in Hs. vm_compute in Hs. discriminate.
Defined.

(* ===================================================================== *)
(** ** Column labels *)
(* ===================================================================== *)

Section NormalizerFacts.
Context `{UnicodeData}.

Lemma join_singletons (P : codepoint → bool) (l : pystr) :
  mjoin ((λ c, if P c then [c] else []) <$> l) = List.filter P l.
Proof.
  induction l as [|c l IH]; [done |].
  rewrite fmap_cons. change (mjoin (?x :: ?xs)) with (x ++ mjoin xs).
  rewrite IH. simpl. by destruct (P c).
Qed.

Lemma normalize_column_name_filter (s : pystr) :
  normalize_column_name s =
  List.filter (λ c, isalnum c || (c =? UNDERSCORE)%N)
    (replace_space_underscore (str_lower (strip
       (List.filter (λ c, negb (category_is_Mn c)) (normalize_NFD s))))).
Proof. unfold normalize_column_name. apply join_singletons. Qed.

Lemma normalize_alphabet (s : pystr) :
  Forall (λ c, isalnum c = true ∨ c = UNDERSCORE) (normalize_column_name s).
Proof.
  rewrite normalize_column_name_filter. apply List.Forall_forall.
  intros c [_ Hc]%filter_In. apply orb_true_iff in Hc as [Ha | Hu]; [by left |].
  right. by apply N.eqb_eq.
Qed.

Lemma lstrip_incl (l : pystr) c : In c (lstrip l) → In c l.
Proof.
  induction l as [|x l IH]; simpl; [done |].
  destruct (isspace x); [right; auto | done].
Qed.

Lemma strip_incl (l : pystr) c : In c (strip l) → In c l.
Proof.
  unfold strip. intros Hc. apply in_rev in Hc. apply lstrip_incl in Hc.
  apply in_rev in Hc. by apply lstrip_incl.
Qed.

End NormalizerFacts.

Section Latin1Facts.

Ltac n_bool :=
  repeat match goal with
  | |- context [(?a <=? ?b)%N] => destruct (N.leb_spec a b)
  | |- context [(?a =? ?b)%N] => destruct (N.eqb_spec a b)
  | |- context [(?a <? ?b)%N] => destruct (N.ltb_spec a b)
  end; simpl; try done; try lia.

Lemma latin1_lower_cases c :
  ((65 ≤ c ≤ 90 ∨ (192 ≤ c ≤ 222 ∧ c ≠ 215)) ∧ latin1_lower c = c + 32)%N
  ∨ (¬ (65 ≤ c ≤ 90 ∨ (192 ≤ c ≤ 222 ∧ c ≠ 215)) ∧ latin1_lower c = c)%N.
Proof. unfold latin1_lower. n_bool. Qed.

Lemma latin1_isspace_cases c :
  latin1_isspace c = true ↔
  (9 ≤ c ≤ 13 ∨ 28 ≤ c ≤ 32 ∨ c = 133 ∨ c = 160)%N.
Proof. unfold latin1_isspace. n_bool; split; intros; try done; lia. Qed.

Lemma latin1_lower_idem c : latin1_lower (latin1_lower c) = latin1_lower c.
Proof.
  destruct (latin1_lower_cases c) as [[Hc ->] | [Hc ->]].
  - destruct (latin1_lower_cases (c + 32)) as [[Hc' ->] | [Hc' ->]]; lia.
  - destruct (latin1_lower_cases c) as [[Hc' ->] | [Hc' ->]]; lia.
Qed.

Lemma latin1_lower_space c :
  latin1_isspace (latin1_lower c) = true → latin1_lower c = c.
Proof.
  rewrite latin1_isspace_cases.
  destruct (latin1_lower_cases c) as [[Hc ->] | [Hc ->]]; lia.
Qed.

Lemma decomposition_table_no_space :
  List.Forall (λ e, latin1_isspace e.2.1 = false ∧ latin1_isspace e.2.2 = false)
    decomposition_table.
Proof. repeat constructor. Qed.

Lemma latin1_decompose_space c c' :
  In c' (latin1_decompose c) → latin1_isspace c' = true → c' = c.
Proof.
  unfold latin1_decompose.
  destruct (List.find _ _) as [[k [b m]]|] eqn:Hf.
  - apply find_some in Hf as [Hin _].
    pose proof (proj1 (List.Forall_forall _ _) decomposition_table_no_space _ Hin)
      as [Hb Hm]. simpl in Hb, Hm.
    intros [<- | [<- | []]] Hs; congruence.
  - by intros [<- | []].
Qed.

Lemma in_join_decompose (s : pystr) c' :
  In c' (mjoin (latin1_decompose <$> s)) → ∃ c, In c s ∧ In c' (latin1_decompose c).
Proof.
  induction s as [|x s IH]; simpl; [done |].
  intros [Hx | Hs]%in_app_or; [eauto |].
  destruct (IH Hs) as (c & Hc & Hd). eauto.
Qed.

Lemma latin1_lowercase (s : pystr) :
  Forall (λ c, c = UNDERSCORE ∨ (latin1_isalnum c = true ∧ latin1_lower c = c))
    (normalize_column_name s).
Proof.
  rewrite normalize_column_name_filter. apply List.Forall_forall.
  intros c [Hin Hc]%filter_In.
  apply orb_true_iff in Hc as [Ha | Hu]; [| left; by apply N.eqb_eq].
  unfold replace_space_underscore in Hin. apply in_map_iff in Hin as (x & Hx & Hin).
  destruct (N.eqb_spec x SPACE); [left; done |]. subst c.
  right. split; [done |]. simpl in Hin.
  apply in_map_iff in Hin as (y & <- & _). apply latin1_lower_idem.
Qed.

Lemma latin1_agrees_with_contract (s : pystr) :
  Forall (λ c, latin1_isspace c = true → c = SPACE) s →
  normalize_column_name s = normalize_column_name_spec s.
Proof.
  intros Hs. rewrite normalize_column_name_filter. unfold normalize_column_name_spec.
  f_equal. unfold replace_space_underscore, replace_whitespace_underscore.
  apply map_ext_in. intros c Hc. simpl in Hc.
  apply in_map_iff in Hc as (y & <- & Hy).
  apply strip_incl in Hy. apply filter_In in Hy as [Hy _].
  apply in_join_decompose in Hy as (x & Hx & Hy).
  simpl. destruct (latin1_isspace (latin1_lower y)) eqn:Hsp.
  - pose proof (latin1_lower_space y Hsp) as Hl. rewrite Hl in *.
    pose proof (latin1_decompose_space x y Hy Hsp) as ->.
    rewrite (proj1 (List.Forall_forall _ _) Hs x Hx Hsp). done.
  - destruct (N.eqb_spec (latin1_lower y) SPACE) as [He |]; [| done].
    rewrite He in Hsp. done.
Qed.

Lemma decomposition_table_keys :
  List.Forall (λ e, (192 ≤ e.1)%N) decomposition_table.
Proof. repeat constructor; simpl; lia. Qed.

Lemma latin1_decompose_ascii c c' :
  (c < 128)%N → In c' (latin1_decompose c) → c' = c.
Proof.
  intros Hc. unfold latin1_decompose.
  destruct (List.find _ _) as [[k [b m]]|] eqn:Hf.
  - apply find_some in Hf as [Hin Hk]. apply N.eqb_eq in Hk. simpl in Hk.
    pose proof (proj1 (List.Forall_forall _ _) decomposition_table_keys _ Hin)
      as Hge. simpl in Hge. lia.
  - by intros [<- | []].
Qed.

Lemma latin1_ascii_output (s : pystr) :
  Forall (λ c, (c < 128)%N) s →
  Forall (λ c, c = UNDERSCORE ∨ (48 ≤ c ≤ 57)%N ∨ (97 ≤ c ≤ 122)%N)
    (normalize_column_name s).
Proof.
  intros Hs. rewrite normalize_column_name_filter. apply List.Forall_forall.
  intros c [Hin Hc]%filter_In.
  apply orb_true_iff in Hc as [Ha | Hu]; [| left; by apply N.eqb_eq].
  unfold replace_space_underscore in Hin. apply in_map_iff in Hin as (x & Hx & Hin).
  destruct (N.eqb_spec x SPACE); [left; done |]. subst c. simpl in Hin.
  apply in_map_iff in Hin as (y & <- & Hy).
  apply strip_incl in Hy. apply filter_In in Hy as [Hy _].
  apply in_join_decompose in Hy as (z & Hz & Hy).
  pose proof (proj1 (List.Forall_forall _ _) Hs z Hz) as Hlt. simpl in Hlt.
  apply (latin1_decompose_ascii z y Hlt) in Hy as ->.
  right. simpl in Ha. unfold latin1_isalnum in Ha.
  rewrite !orb_true_iff, !andb_true_iff, !N.leb_le, !N.eqb_eq in Ha.
  destruct (latin1_lower_cases z) as [[Hc Hl] | [Hc Hl]]; rewrite Hl in *; lia.
Qed.

End Latin1Facts.

(** C9 (as amended).  [normalize_column_name] is a function of its
    argument alone, defined on every label: it removes the combining
    marks of the canonical decomposition, trims, lower-cases, replaces
    each space character (U+0020) by an underscore and removes every
    character that is neither alphanumeric nor underscore.  For every
    label and every character database the result holds only
    alphanumeric characters and underscores; for labels of Basic Latin
    and Latin-1 these characters are fixed by lower-casing, and for
    ASCII labels they are a-z, 0-9 and underscore.  On labels whose
    whitespace is the space character only, the function is the
    contract's; "Referencia de Localización" gives
    referencia_de_localizacion. *)
Theorem C9_normalize_column_name :
  (∀ (U : UnicodeData) (s : pystr),
     Forall (λ c, isalnum c = true ∨ c = UNDERSCORE) (normalize_column_name s)) ∧
  (∀ s : pystr,
     Forall (λ c, in_latin1 c = true) s →
     Forall (λ c, c = UNDERSCORE ∨ (latin1_isalnum c = true ∧ latin1_lower c = c))
       (normalize_column_name s)) ∧
  (∀ s : pystr,
     Forall (λ c, (c < 128)%N) s →
     Forall (λ c, c = UNDERSCORE ∨ (48 ≤ c ≤ 57)%N ∨ (97 ≤ c ≤ 122)%N)
       (normalize_column_name s)) ∧
  (∀ s : pystr,
     Forall (λ c, in_latin1 c = true ∧ (latin1_isspace c = true → c = SPACE)) s →
     normalize_column_name s = normalize_column_name_spec s) ∧
  normalize_column_name referencia_de_localizacion_label
    = py "referencia_de_localizacion".
Proof.
  split; [intros U s; apply normalize_alphabet |].
  split; [intros s _; apply latin1_lowercase |].
  split; [apply latin1_ascii_output |].
  split; [| vm_compute; reflexivity].
  intros s Hs. apply latin1_agrees_with_contract.
  eapply Forall_impl; [exact Hs |]. by intros c [_ Hc].
Qed.

(** C9 as stated fails: a tab inside a label is interior whitespace; the
    function drops it, where the contract replaces it by an underscore. *)
Lemma C9_counterexample_tab :
  latin1_isspace 9%N = true ∧
  normalize_column_name (py "a" ++ [9%N] ++ py "b") = py "ab" ∧
  normalize_column_name_spec (py "a" ++ [9%N] ++ py "b") = py "a_b".
Proof. repeat split; vm_compute; reflexivity. Qed.

(** The function on two labels of the source file. *)
Lemma C9_witness :
  normalize_column_name (py " Fecha UTC ") = py "fecha_utc" ∧
  normalize_column_name_spec (py " Fecha UTC ") = py "fecha_utc" ∧
  Forall (λ c, c = UNDERSCORE ∨ (latin1_isalnum c = true ∧ latin1_lower c = c))
    (normalize_column_name referencia_de_localizacion_label).
Proof.
  destruct C9_normalize_column_name as (_ & Hlow & _ & Hagree & _).
  split; [vm_compute; reflexivity |]. split.
  - rewrite <- (Hagree (py " Fecha UTC ")); [vm_compute; reflexivity |].
    vm_compute. repeat constructor; intros; done.
  - apply Hlow. vm_compute. repeat constructor.
Defined.

(* ===================================================================== *)
(** ** Tasks and the DAG *)
(* ===================================================================== *)

Section PathFacts.

Lemma string_app_inv_head (s a b : string) : s +:+ a = s +:+ b → a = b.
Proof.
  induction s as [|c s IH]; [done |]. rewrite !string_app_cons.
  intros [= Heq]. by apply IH.
Qed.

Lemma string_length_app (a b : string) :
  String.length (a +:+ b) = (String.length a + String.length b)%nat.
Proof. induction a as [|c a IH]; [done |]. rewrite string_app_cons. simpl. by rewrite IH. Qed.

Lemma string_app_inv_tail (a b t : string) : a +:+ t = b +:+ t → a = b.
Proof.
  revert b. induction a as [|c a IH]; intros [|d b] Heq.
  - done.
  - apply (f_equal String.length) in Heq.
    rewrite string_app_nil_l, string_app_cons in Heq. simpl in Heq.
    rewrite string_length_app in Heq. lia.
  - apply (f_equal String.length) in Heq.
    rewrite string_app_nil_l, string_app_cons in Heq. simpl in Heq.
    rewrite string_length_app in Heq. lia.
  - rewrite !string_app_cons in Heq. injection Heq as -> Heq. f_equal. by apply IH.
Qed.

Lemma raw_file_path_inj (b1 b2 : string) :
  raw_file_path b1 = raw_file_path b2 → b1 = b2.
Proof.
  unfold raw_file_path. intros Heq.
  apply string_app_inv_head, string_app_inv_head in Heq.
  by apply string_app_inv_tail in Heq.
Qed.

Lemma raw_file_path_not_source (b : string) : raw_file_path b ≠ CSV_FILE.
Proof. intros Heq. vm_compute in Heq. discriminate. Qed.

End PathFacts.

Lemma filter_all {A} (P : A → bool) (l : list A) :
  Forall (λ x, P x = true) l → List.filter P l = l.
Proof. induction 1 as [|x l Hx _ IH]; simpl; [done |]. by rewrite Hx, IH. Qed.

Section DagFacts.
Context `{UnicodeData} `{Locale} `{DateFunctions}.

Lemma attempt_once n (f : world → result exn (world * retval)) w :
  attempt n f w = f w.
Proof.
  induction n as [|n IH]; simpl.
  - by destruct (f w).
  - destruct (f w) eqn:Hf; [done | exact IH].
Qed.

Lemma run_task_success ctx w st t w' rv :
  forallb (succeeded st) (upstream t) = true →
  python_callable t ctx w = Ok (w', rv) →
  run_task ctx (w, st) t = (w', st ++ [(t, success)]).
Proof. intros Hu Hc. unfold run_task. by rewrite Hu, attempt_once, Hc. Qed.

Lemma run_task_failure ctx w st t e :
  forallb (succeeded st) (upstream t) = true →
  python_callable t ctx w = Err e →
  run_task ctx (w, st) t = (w, st ++ [(t, failed e)]).
Proof. intros Hu Hc. unfold run_task. by rewrite Hu, attempt_once, Hc. Qed.

Lemma run_task_skipped ctx w st t :
  forallb (succeeded st) (upstream t) = false →
  run_task ctx (w, st) t = (w, st ++ [(t, upstream_failed)]).
Proof. intros Hu. unfold run_task. by rewrite Hu. Qed.

Lemma extract_inv ctx w w1 rv :
  extract_earthquake_data ctx w = Ok (w1, rv) →
  ∃ df, files w !! CSV_FILE = Some (Csv df) ∧
    NoDup (normalize_column_name <$> columns df) ∧
    files w1 = <[raw_file_path (ts_nodash ctx) :=
                   Parquet {| columns := normalize_column_name <$> columns df;
                              rows := rows df |}]> (files w) ∧
    dw w1 = dw w ∧
    export_artifact w1 = export_artifact w ∧
    xcom w1 = <[("extract_data", "record_count") := XInt (len df)]>
              (<[("extract_data", "raw_file") := XStr (raw_file_path (ts_nodash ctx))]>
              (<[("extract_data", "batch_id") := XStr (ts_nodash ctx)]> (xcom w))).
Proof.
  unfold extract_earthquake_data.
  destruct (files w !! CSV_FILE) as [[df|df]|] eqn:Hf; simpl; try done.
  unfold to_parquet. simpl. case_decide as Hnd; simpl; [| done].
  intros [= <- <-]. exists df. simpl. done.
Qed.

Lemma extract_ok ctx w df :
  files w !! CSV_FILE = Some (Csv df) →
  NoDup (normalize_column_name <$> columns df) →
  ∃ w1 rv, extract_earthquake_data ctx w = Ok (w1, rv).
Proof.
  intros Hf Hnd. unfold extract_earthquake_data. rewrite Hf. simpl.
  unfold to_parquet. simpl. rewrite decide_True by done. simpl. eauto.
Qed.

Lemma xcom_batch_after_extract ctx w w1 rv :
  extract_earthquake_data ctx w = Ok (w1, rv) →
  xcom_pull "batch_id" "extract_data" w1 = Some (XStr (ts_nodash ctx)) ∧
  xcom_pull "raw_file" "extract_data" w1
    = Some (XStr (raw_file_path (ts_nodash ctx))) ∧
  ∃ df, files w !! CSV_FILE = Some (Csv df) ∧
        xcom_pull "record_count" "extract_data" w1 = Some (XInt (len df)).
Proof.
  intros (df & Hf & _ & _ & _ & _ & Hx)%extract_inv.
  unfold xcom_pull. rewrite Hx. split; [| split].
  - by rewrite !lookup_insert_ne, lookup_insert_eq by done.
  - by rewrite lookup_insert_ne, lookup_insert_eq by done.
  - exists df. split; [done |]. by rewrite lookup_insert_eq.
Qed.

Lemma load_inv ctx w w2 rv :
  load_raw_data ctx w = Ok (w2, rv) →
  ∃ df,
    read_parquet (xcom_pull "raw_file" "extract_data" w) (files w) = Ok df ∧
    files w2 = files w ∧
    export_artifact w2 = export_artifact w ∧
    xcom w2 = <[("load_raw_data", "loaded_records") := XInt (len df)]> (xcom w) ∧
    analytics_earthquakes (dw w2) = analytics_earthquakes (dw w) ∧
    earthquake_statistics (dw w2) = earthquake_statistics (dw w) ∧
    raw_earthquakes (dw w2) =
      raw_earthquakes (dw w) ++
      stamped_rows ctx (xcom_pull "batch_id" "extract_data" w)
        (rename (py "referencia_de_localizacion") (py "referencia_localizacion") df)
        (Z.of_nat (length (raw_earthquakes (dw w))) + 1).
Proof.
  unfold load_raw_data.
  destruct (read_parquet _ _) as [df|] eqn:Hr; simpl; [| done].
  intros [= <- <-]. exists df. simpl. done.
Qed.

Lemma stamped_rows_batch ctx v df first :
  Forall (λ r, col r "batch_id" = as_cell v) (stamped_rows ctx v df first).
Proof.
  unfold stamped_rows. apply Forall_forall. intros r Hr.
  apply list_elem_of_lookup in Hr as [i Hi].
  rewrite list_lookup_imap in Hi.
  destruct (rows df !! i) as [row|]; simpl in Hi; [| done].
  injection Hi as <-. unfold col. simpl. by rewrite lookup_insert_eq.
Qed.

Lemma stamped_rows_length ctx v df first :
  length (stamped_rows ctx v df first) = length (rows df).
Proof. unfold stamped_rows. by rewrite length_imap. Qed.

Lemma validate_unfold ctx w :
  validate_raw_data ctx w =
  let literal := py_format (xcom_pull "batch_id" "extract_data" w) in
  let expected := xcom_pull "record_count" "extract_data" w in
  if decide (expected = Some (XInt (count_batch literal (dw w))))
  then Ok (w, [("status", Some (XStr "success"));
               ("validated_records", Some (XInt (count_batch literal (dw w))))])
  else Err (ValidationFailed (py_format expected) (count_batch literal (dw w))).
Proof. reflexivity. Qed.

Lemma load_keeps_extract_xcom ctx w w2 rv key :
  load_raw_data ctx w = Ok (w2, rv) →
  xcom_pull key "extract_data" w2 = xcom_pull key "extract_data" w.
Proof.
  intros (df & _ & _ & _ & Hx & _)%load_inv.
  unfold xcom_pull. rewrite Hx. by rewrite lookup_insert_ne.
Qed.

(** C10.  In a run, the extractor publishes the run timestamp
    [ts_nodash] as [batch_id]; the loader, the validator and the
    transformer each pull that very value.  The rows the loader adds all
    carry it in their batch_id column; the count the validator compares
    is the number of raw rows that carry it; the statement of the
    transformer reads the raw rows that carry it and no other, and every
    analytics row it inserts carries it. *)
Theorem C10_single_batch_id (ctx : context) (w w1 w2 : world) (rv1 rv2 : retval) :
  extract_earthquake_data ctx w = Ok (w1, rv1) →
  load_raw_data ctx w1 = Ok (w2, rv2) →
  let tagged := filter (λ r, col r "batch_id" = Some (ts_nodash ctx)) in
  xcom_pull "batch_id" "extract_data" w1 = Some (XStr (ts_nodash ctx)) ∧
  xcom_pull "batch_id" "extract_data" w2 = Some (XStr (ts_nodash ctx)) ∧
  (∃ new, raw_earthquakes (dw w2) = raw_earthquakes (dw w) ++ new ∧
          tagged new = new ∧
          tagged (raw_earthquakes (dw w2))
            = tagged (raw_earthquakes (dw w)) ++ new) ∧
  validate_raw_data ctx w2 =
    (let loaded_count :=
       Z.of_nat (length (tagged (raw_earthquakes (dw w2)))) in
     let expected_count := xcom_pull "record_count" "extract_data" w2 in
     if decide (expected_count = Some (XInt loaded_count))
     then Ok (w2, [("status", Some (XStr "success"));
                   ("validated_records", Some (XInt loaded_count))])
     else Err (ValidationFailed (py_format expected_count) loaded_count)) ∧
  transform_to_analytics ctx w2 =
    (let* rows :=
       lift_db (transform_rows (ts_nodash ctx)
                  (tagged (raw_earthquakes (dw w2)))) in
     Ok (set_db {| raw_earthquakes := raw_earthquakes (dw w2);
                   analytics_earthquakes :=
                     analytics_earthquakes (dw w2) ++ rows;
                   earthquake_statistics := earthquake_statistics (dw w2) |}
                w2, [])) ∧
  (∀ w3 rv3, transform_to_analytics ctx w2 = Ok (w3, rv3) →
     ∃ rows, analytics_earthquakes (dw w3)
               = analytics_earthquakes (dw w2) ++ rows ∧
             Forall (λ a, batch_id a = Some (ts_nodash ctx)) rows).
Proof.
  intros He Hl tagged.
  pose proof (xcom_batch_after_extract ctx w w1 rv1 He) as (Hb1 & _ & _).
  assert (Hb2 : xcom_pull "batch_id" "extract_data" w2 = Some (XStr (ts_nodash ctx))).
  { by rewrite (load_keeps_extract_xcom ctx w1 w2 rv2). }
  assert (Ht : transform_to_analytics ctx w2 =
    (let* rows :=
       lift_db (transform_rows (ts_nodash ctx)
                  (tagged (raw_earthquakes (dw w2)))) in
     Ok (set_db {| raw_earthquakes := raw_earthquakes (dw w2);
                   analytics_earthquakes :=
                     analytics_earthquakes (dw w2) ++ rows;
                   earthquake_statistics := earthquake_statistics (dw w2) |}
                w2, []))).
  { unfold transform_to_analytics, TRANSFORM_SQL, tagged.
    rewrite Hb2, transform_rows_of_batch. simpl.
    by destruct (transform_rows _ _). }
  split; [done |]. split; [done |]. split; [| split; [| split; [done |]]].
  - pose proof (extract_inv ctx w w1 rv1 He) as (_ & _ & _ & _ & Hdw & _).
    pose proof (load_inv ctx w1 w2 rv2 Hl) as (df & _ & _ & _ & _ & _ & _ & Hraw).
    rewrite Hdw, Hb1 in Hraw. eexists. split; [exact Hraw |].
    assert (Hnew : tagged (stamped_rows ctx (Some (XStr (ts_nodash ctx)))
                     (rename (py "referencia_de_localizacion")
                        (py "referencia_localizacion") df)
                     (Z.of_nat (length (raw_earthquakes (dw w))) + 1))
                   = stamped_rows ctx (Some (XStr (ts_nodash ctx)))
                       (rename (py "referencia_de_localizacion")
                          (py "referencia_localizacion") df)
                       (Z.of_nat (length (raw_earthquakes (dw w))) + 1)).
    { unfold tagged. rewrite <- filter_in_batch. apply filter_all.
      eapply Forall_impl; [apply stamped_rows_batch |].
      intros r Hr. by apply in_batch_col. }
    split; [exact Hnew |].
    rewrite Hraw. unfold tagged at 1. rewrite filter_app.
    fold tagged. by rewrite Hnew.
  - rewrite validate_unfold, Hb2. simpl. unfold count_batch, tagged.
    by rewrite filter_in_batch.
  - intros w3 rv3 Ht3. rewrite Ht in Ht3. clear Ht. unfold tagged in Ht3.
    rewrite transform_rows_of_batch in Ht3.
    destruct (transform_rows (ts_nodash ctx) (raw_earthquakes (dw w2)))
      as [rows|] eqn:Hrows; simpl in Ht3; [| done].
    injection Ht3 as <- _. exists rows. split; [done |].
    by eapply transform_rows_batch_id.
Qed.

Lemma dag_run_unfold ctx w :
  dag_run ctx w =
  run_task ctx (run_task ctx (run_task ctx (run_task ctx (run_task ctx
    (run_task ctx (w, []) extract_task) load_task) validate_task)
    transform_task) aggregate_task) export_task.
Proof. reflexivity. Qed.

(** C7.  When, after extraction and load, the number of raw rows tagged
    with the run's batch differs from the number of extracted rows, the
    validator fails with the count mismatch, the transform task and the
    tasks after it are not executed (upstream_failed), and the analytics
    table is what it was before the run. *)
Theorem C7_validation_gate (ctx : context) (w w1 w2 : world) (rv1 rv2 : retval)
    (df : DataFrame) :
  files w !! CSV_FILE = Some (Csv df) →
  extract_earthquake_data ctx w = Ok (w1, rv1) →
  load_raw_data ctx w1 = Ok (w2, rv2) →
  count_batch (ts_nodash ctx) (dw w2) ≠ len df →
  let e := ValidationFailed (pretty (len df))
             (count_batch (ts_nodash ctx) (dw w2)) in
  validate_raw_data ctx w2 = Err e ∧
  dag_run ctx w =
    (w2, [ (extract_task, success); (load_task, success);
           (validate_task, failed e); (transform_task, upstream_failed);
           (aggregate_task, upstream_failed); (export_task, upstream_failed) ]) ∧
  analytics_earthquakes (dw w2) = analytics_earthquakes (dw w).
Proof.
  intros Hf He Hl Hne e.
  pose proof (xcom_batch_after_extract ctx w w1 rv1 He)
    as (Hb1 & _ & df' & Hf' & Hc1).
  rewrite Hf in Hf'. injection Hf' as <-.
  assert (Hb2 : xcom_pull "batch_id" "extract_data" w2
                = Some (XStr (ts_nodash ctx))).
  { by rewrite (load_keeps_extract_xcom ctx w1 w2 rv2). }
  assert (Hc2 : xcom_pull "record_count" "extract_data" w2
                = Some (XInt (len df))).
  { by rewrite (load_keeps_extract_xcom ctx w1 w2 rv2). }
  assert (Hv : validate_raw_data ctx w2 = Err e).
  { rewrite validate_unfold, Hb2, Hc2. simpl.
    rewrite decide_False; [done |]. intros [= Heq]. by apply Hne. }
  split; [exact Hv |]. split.
  - rewrite dag_run_unfold.
    rewrite (run_task_success ctx w [] extract_task w1 rv1) by done.
    rewrite (run_task_success ctx w1 _ load_task w2 rv2) by done.
    rewrite (run_task_failure ctx w2 _ validate_task e) by done.
    rewrite !run_task_skipped by done. done.
  - pose proof (extract_inv ctx w w1 rv1 He) as (_ & _ & _ & _ & Hdw & _).
    pose proof (load_inv ctx w1 w2 rv2 Hl) as (_ & _ & _ & _ & _ & Ha & _).
    by rewrite Ha, Hdw.
Qed.

(** C8 (as amended).  The extractor never looks at the snapshot store
    before it writes: it does the same whatever file, if any, sits at
    the snapshot path of the batch.  It succeeds exactly when the source
    file is a readable CSV file whose normalized column names are
    distinct; it then puts the new snapshot at the path of the batch, in
    place of what was there, leaves the other files and the warehouse
    alone, and publishes batch_id, raw_file and record_count.  It fails
    when the source file is missing, when it is not a CSV file, and when
    two columns have the same normalized name, never because a snapshot
    exists. *)
Theorem C8_extract_overwrites_snapshot (ctx : context) (w : world) :
  let path := raw_file_path (ts_nodash ctx) in
  let with_files fs :=
    {| files := fs; dw := dw w; xcom := xcom w;
       export_artifact := export_artifact w |} in
  (∀ old : file,
     extract_earthquake_data ctx (with_files (<[path := old]> (files w)))
     = extract_earthquake_data ctx (with_files (delete path (files w)))) ∧
  (is_ok (extract_earthquake_data ctx w) = true ↔
   ∃ df, files w !! CSV_FILE = Some (Csv df) ∧
         NoDup (normalize_column_name <$> columns df)) ∧
  (files w !! CSV_FILE = None →
   extract_earthquake_data ctx w = Err (FileNotFoundError CSV_FILE)) ∧
  (∀ df, files w !! CSV_FILE = Some (Parquet df) →
   extract_earthquake_data ctx w = Err CsvReadError) ∧
  (∀ df, files w !! CSV_FILE = Some (Csv df) →
   ¬ NoDup (normalize_column_name <$> columns df) →
   extract_earthquake_data ctx w = Err DuplicateColumnNames) ∧
  (∀ df, files w !! CSV_FILE = Some (Csv df) →
   NoDup (normalize_column_name <$> columns df) →
   ∃ w',
     extract_earthquake_data ctx w =
       Ok (w', [("status", Some (XStr "success"));
                ("records", Some (XInt (len df)));
                ("batch_id", Some (XStr (ts_nodash ctx)))]) ∧
     files w' =
       <[path := Parquet {| columns := normalize_column_name <$> columns df;
                            rows := rows df |}]> (files w) ∧
     dw w' = dw w ∧
     export_artifact w' = export_artifact w ∧
     xcom_pull "batch_id" "extract_data" w' = Some (XStr (ts_nodash ctx)) ∧
     xcom_pull "raw_file" "extract_data" w' = Some (XStr path) ∧
     xcom_pull "record_count" "extract_data" w' = Some (XInt (len df))).
Proof.
  intros path with_files.
  assert (Hcases :
    (files w !! CSV_FILE = None →
     extract_earthquake_data ctx w = Err (FileNotFoundError CSV_FILE)) ∧
    (∀ df, files w !! CSV_FILE = Some (Parquet df) →
     extract_earthquake_data ctx w = Err CsvReadError) ∧
    (∀ df, files w !! CSV_FILE = Some (Csv df) →
     ¬ NoDup (normalize_column_name <$> columns df) →
     extract_earthquake_data ctx w = Err DuplicateColumnNames)).
  { unfold extract_earthquake_data. split; [| split].
    - by intros ->.
    - by intros df ->.
    - intros df -> Hnd. simpl. unfold to_parquet. simpl.
      by rewrite decide_False. }
  destruct Hcases as (Hnone & Hparquet & Hdup).
  split; [| split; [| split; [done | split; [done | split; [done |]]]]].
  - intros old. unfold extract_earthquake_data, with_files. simpl.
    rewrite lookup_insert_ne by apply raw_file_path_not_source.
    rewrite lookup_delete_ne by apply raw_file_path_not_source.
    destruct (files w !! CSV_FILE) as [f|]; [| done].
    destruct (read_csv f) as [df|]; simpl; [| done].
    unfold to_parquet. simpl. case_decide; simpl; [| done].
    fold path. by rewrite insert_insert_eq, insert_delete_eq.
  - split.
    + destruct (extract_earthquake_data ctx w) as [[w' rv]|] eqn:He; [| done].
      intros _. apply extract_inv in He as (df & Hf & Hnd & _). eauto.
    + intros (df & Hf & Hnd).
      by destruct (extract_ok ctx w df Hf Hnd) as (w' & rv & ->).
  - intros df Hf Hnd.
    destruct (extract_ok ctx w df Hf Hnd) as (w' & rv & He).
    pose proof (xcom_batch_after_extract ctx w w' rv He)
      as (Hb & Hp & df' & Hf' & Hc).
    rewrite Hf in Hf'. injection Hf' as <-.
    pose proof (extract_inv ctx w w' rv He)
      as (df' & Hf' & _ & Hfiles & Hdw & Hex & _).
    rewrite Hf in Hf'. injection Hf' as <-.
    exists w'. split; [| done].
    rewrite He. f_equal. f_equal.
    unfold extract_earthquake_data in He. rewrite Hf in He. simpl in He.
    unfold to_parquet in He. simpl in He. rewrite decide_True in He by done.
    simpl in He. by injection He as _ <-.
Qed.

End DagFacts.

(** C8 as stated fails: with a snapshot for the batch in place, the
    extractor returns normally and the snapshot holds the new frame. *)
Lemma C8_counterexample_silent_overwrite :
  files world_with_snapshot !! snapshot_path = Some (Parquet old_snapshot) ∧
  (let* r := extract_earthquake_data context0 world_with_snapshot in
   Ok (files r.1 !! snapshot_path)) = Ok (Some (Parquet new_snapshot)) ∧
  new_snapshot ≠ old_snapshot.
Proof. split; [| split]; [vm_compute; reflexivity .. | discriminate]. Qed.

(** Extraction over an existing snapshot. *)
Lemma C8_witness :
  ∃ w',
    extract_earthquake_data context0 world_with_snapshot =
      Ok (w', [("status", Some (XStr "success"));
               ("records", Some (XInt 3));
               ("batch_id", Some (XStr batch0))]) ∧
    files w' !! snapshot_path = Some (Parquet new_snapshot) ∧
    xcom_pull "raw_file" "extract_data" w' = Some (XStr snapshot_path) ∧
    xcom_pull "record_count" "extract_data" w' = Some (XInt 3).
Proof.
  destruct (C8_extract_overwrites_snapshot context0 world_with_snapshot)
    as (_ & _ & _ & _ & _ & Hok).
  destruct (Hok source_frame) as (w' & He & Hfiles & _ & _ & _ & Hp & Hc).
  - vm_compute; reflexivity.
  - compute_done.
  - exists w'. split; [exact He |]. split; [| split; [exact Hp | exact Hc]].
    rewrite Hfiles. etrans; [apply lookup_insert_eq | vm_compute; reflexivity].
Defined.

(** A second run for the same timestamp: the loader has added the rows
    again, six rows carry the batch where three were extracted. *)
Lemma C7_witness :
  (dag_run context0 rerun_world).2 =
    [ (extract_task, success); (load_task, success);
      (validate_task, failed (ValidationFailed "3" 6));
      (transform_task, upstream_failed); (aggregate_task, upstream_failed);
      (export_task, upstream_failed) ].
Proof.
  set (r1 := extract_earthquake_data context0 rerun_world).
  set (r2 := load_raw_data context0 (world_of r1 rerun_world)).
  destruct (C7_validation_gate context0 rerun_world (world_of r1 rerun_world)
              (world_of r2 rerun_world) (retval_of r1) (retval_of r2) source_frame)
    as (_ & Hrun & _).
  - vm_compute; reflexivity.
  - vm_compute; reflexivity.
  - vm_compute; reflexivity.
  - vm_compute. discriminate.
  - rewrite Hrun. vm_compute; reflexivity.
Defined.

(** A first run for the three-event source on a raw table that holds a
    row of another batch: the validator counts three rows, not four,
    and the transformer does not read the unreadable date of the other
    batch. *)
Lemma C10_witness :
  ∃ w2 w3 rv3,
    length (raw_earthquakes (dw w2)) = 4%nat ∧
    validate_raw_data context0 w2 =
      Ok (w2, [("status", Some (XStr "success"));
               ("validated_records", Some (XInt 3))]) ∧
    transform_to_analytics context0 w2 = Ok (w3, rv3) ∧
    analytics_earthquakes (dw w3) = [first_run_analytics].
Proof.
  set (r1 := extract_earthquake_data context0 mixed_world).
  set (w1 := world_of r1 mixed_world).
  set (r2 := load_raw_data context0 w1).
  set (w2 := world_of r2 mixed_world).
  destruct (C10_single_batch_id context0 mixed_world w1 w2
              (retval_of r1) (retval_of r2))
    as (_ & _ & _ & Hv & Ht & _).
  - vm_compute; reflexivity.
  - vm_compute; reflexivity.
  - cbv zeta in Hv, Ht.
    assert (Htagged :
      filter (λ r, col r "batch_id" = Some (ts_nodash context0))
             (raw_earthquakes (dw w2))
      = drop 1 (raw_earthquakes (dw w2))) by (vm_compute; reflexivity).
    rewrite Htagged in Hv, Ht.
    exists w2. eexists. exists [].
    split; [vm_compute; reflexivity |]. split.
    + rewrite Hv. vm_compute; reflexivity.
    + split; [rewrite Ht; vm_compute; reflexivity | vm_compute; reflexivity].
Defined.

(* ********************************************************************* *)
(** * Further properties of the pipeline *)
(* ********************************************************************* *)

Import Further.

(* ===================================================================== *)
(** ** Coercion and the transform statement *)
(* ===================================================================== *)

Section CoercionFurther.

Lemma traverse_err_inv {E A B} (f : A → result E B) (l : list A) (e : E) :
  traverse f l = Err e → ∃ a, In a l ∧ f a = Err e.
Proof.
  induction l as [|x l IH]; simpl; [done |].
  destruct (f x) as [b|e'] eqn:Hx; simpl.
  - destruct (traverse f l) as [bs|e'']; simpl; [done |].
    intros [= <-]. destruct (IH eq_refl) as (a & Ha & Hf). eauto.
  - intros [= <-]. eauto.
Qed.

Lemma coerce_error f x e :
  coerce_field f x = Err e →
  ∃ t, x = Some t ∧ e = NumericFieldOverflow (Text.trim t) ∧
       decimal_spelling (minus_allowed f) (Text.trim t).
Proof.
  destruct x as [t|]; [| by destruct f].
  intros He. exists t. split; [done |].
  destruct (Regex.matches (pattern f) (Text.trim t)) eqn:Hm.
  - apply spelling_of_field in Hm.
    destruct (coerce_match f t Hm) as (q & _ & Heq). rewrite Heq in He.
    destruct (_ <=? _); [| done]. by injection He as <-.
  - rewrite coerce_field_unfold, Hm in He. done.
Qed.

End CoercionFurther.

Section TransformErrors.
Context `{Locale} `{DateFunctions}.

Lemma parse_row_error r e :
  parse_row r = Err e →
  TO_DATE (col r "fecha_utc") = Err e
  ∨ TO_TIMESTAMP (datetime_text r) = Err e
  ∨ ∃ f, coerce_field f (col r (column f)) = Err e.
Proof.
  unfold parse_row. fold (datetime_text r).
  destruct (TO_DATE _) as [d|]; simpl; [| intros [= <-]; by left].
  destruct (TO_TIMESTAMP _) as [t|]; simpl; [| intros [= <-]; right; by left].
  intros He. right. right.
  destruct (coerce_magnitude _) as [m|] eqn:Hm; simpl in He;
    [| injection He as <-; by exists Magnitude].
  destruct (coerce_latitude _) as [la|] eqn:Hla; simpl in He;
    [| injection He as <-; by exists Latitude].
  destruct (coerce_longitude _) as [lo|] eqn:Hlo; simpl in He;
    [| injection He as <-; by exists Longitude].
  destruct (coerce_depth _) as [dp|] eqn:Hdp; simpl in He;
    [done | injection He as <-; by exists Depth].
Qed.

(** X1.  The statement fails only because of a row of its own batch:
    either a date function raised on that row, or one of its four
    numeric texts has the decimal spelling of its pattern and overflows
    the column.  The guards keep every other text away from the casts,
    so no cast ever fails on the syntax of a number. *)
Theorem transform_error_causes (lit : string) (w : warehouse) (e : db_error) :
  TRANSFORM_SQL lit w = Err e →
  ∃ r, In r (raw_earthquakes w) ∧ in_batch lit r = true ∧
    (TO_DATE (col r "fecha_utc") = Err e
     ∨ TO_TIMESTAMP (datetime_text r) = Err e
     ∨ ∃ f t, col r (column f) = Some t ∧
              decimal_spelling (minus_allowed f) (Text.trim t) ∧
              e = NumericFieldOverflow (Text.trim t)).
Proof.
  unfold TRANSFORM_SQL, transform_rows.
  destruct (traverse _ _) as [outcomes|e'] eqn:Ht; simpl; [done |].
  intros [= <-]. apply traverse_err_inv in Ht as (r & [Hin Hb]%filter_In & Hr).
  exists r. split; [done |]. split; [done |].
  assert (Hcause : TO_DATE (col r "fecha_utc") = Err e'
                   ∨ TO_TIMESTAMP (datetime_text r) = Err e'
                   ∨ ∃ f, coerce_field f (col r (column f)) = Err e').
  { apply transform_row_raises in Hr as [Hp | Hf]; [| by auto].
    by apply parse_row_error. }
  destruct Hcause as [Hd | [Hts | [f Hf]]]; [by left | right; by left |].
  right. right. apply coerce_error in Hf as (t & Ht & -> & Hs). eauto.
Qed.

End TransformErrors.


(** The overflowing batch. *)
Lemma transform_error_causes_witness :
  ∃ r, In r [null_date_row; overflow_row] ∧ in_batch batch0 r = true ∧
    (TO_DATE (col r "fecha_utc") = Err (NumericFieldOverflow "100")
     ∨ TO_TIMESTAMP (datetime_text r) = Err (NumericFieldOverflow "100")
     ∨ ∃ f t, col r (column f) = Some t ∧
              decimal_spelling (minus_allowed f) (Text.trim t) ∧
              NumericFieldOverflow "100" = NumericFieldOverflow (Text.trim t)).
Proof.
  apply (transform_error_causes batch0
           (warehouse_of [null_date_row; overflow_row])).
  vm_compute. reflexivity.
Defined.

Section CoercionBounds.

Lemma digits_value_nonneg (s : string) (acc : Z) :
  Text.all_digits s = true → 0 ≤ acc → 0 ≤ Text.digits_value acc s.
Proof.
  revert acc. induction s as [|c s IH]; simpl; intros acc Hd Hacc; [done |].
  apply andb_true_iff in Hd as [Hc Hd]. apply IH; [done |].
  unfold Text.is_digit in Hc. apply andb_true_iff in Hc as [Hlo _].
  apply N.leb_le in Hlo. lia.
Qed.

Lemma numeric_in_unsigned_nonneg t :
  decimal_spelling false t → ∃ q, numeric_in t = Some q ∧ 0 ≤ Qnum q.
Proof.
  intros (sign & ds & fs & -> & Hsign & Hne & Hd & Hf).
  destruct Hsign as [-> | [? _]]; [| done]. rewrite string_app_nil_l.
  destruct ds as [|c ds]; [done |].
  unfold numeric_in, strip_minus. rewrite string_app_cons.
  pose proof Hd as Hd'. simpl in Hd. apply andb_true_iff in Hd as [Hc Hd].
  rewrite (is_digit_not_minus c Hc). rewrite <- string_app_cons.
  rewrite span_digits_app;
    [| done | destruct Hf as [-> | (fd & -> & Hfd)]; [by left | right; eauto]].
  destruct Hf as [-> | (fd & -> & Hfd)]; simpl.
  - eexists. split; [done |]. simpl. rewrite string_app_nil_r.
    apply (digits_value_nonneg (String c ds) 0 Hd'). done.
  - rewrite Hfd. simpl. eexists. split; [done |]. simpl.
    apply (digits_value_nonneg (String c (ds +:+ fd)) 0); [| done].
    simpl. rewrite Hc, all_digits_app, Hd, Hfd. done.
Qed.

Lemma numeric_round_sign scale q : 0 ≤ Qnum q → 0 ≤ Qnum (numeric_round scale q).
Proof.
  intros Hq. unfold numeric_round. simpl.
  assert (0 ≤ Qnum q * ten_to scale) by (unfold ten_to; nia).
  assert (0 ≤ (2 * Z.abs (Qnum q * ten_to scale) + Z.pos (Qden q))
              / (2 * Z.pos (Qden q))) by (apply Z.div_pos; lia).
  destruct (Z.sgn_spec (Qnum q * ten_to scale)) as [[_ ->] | [[_ ->] | [? _]]]; lia.
Qed.

Lemma coerce_value f x v :
  coerce_field f x = Ok (Some v) →
  ∃ t q, x = Some t ∧ numeric_in (Text.trim t) = Some q ∧
         decimal_spelling (minus_allowed f) (Text.trim t) ∧
         v = numeric_round (scale f) q ∧ fits_column f q.
Proof.
  destruct x as [t|]; [| by destruct f]. intros Hv.
  destruct (Regex.matches (pattern f) (Text.trim t)) eqn:Hm.
  - apply spelling_of_field in Hm.
    destruct (coerce_match f t Hm) as (q & Hq & Heq). rewrite Heq in Hv.
    destruct (Z.leb_spec (ten_to (precision f))
                (Z.abs (Qnum (numeric_round (scale f) q)))); [done |].
    injection Hv as <-. exists t, q. done.
  - rewrite coerce_field_unfold, Hm in Hv. done.
Qed.

End CoercionBounds.

Lemma bound_of_fit (f : numeric_field) (n : Z) :
  Z.abs n < ten_to (precision f) →
  (- column_bound f < Qmake n (Z.to_pos (ten_to (scale f))) < column_bound f)%Q.
Proof.
  intros Hn.
  destruct f;
    [ change (Z.abs n < 1000) in Hn;
      change (- (100 # 1) < n # 10 < 100 # 1)%Q
    | change (Z.abs n < 100000000) in Hn;
      change (- (1000 # 1) < n # 100000 < 1000 # 1)%Q
    | change (Z.abs n < 100000000) in Hn;
      change (- (1000 # 1) < n # 100000 < 1000 # 1)%Q
    | change (Z.abs n < 1000000) in Hn;
      change (- (10000 # 1) < n # 100 < 10000 # 1)%Q ];
    unfold Qlt; simpl; lia.
Qed.

(** X2.  A coerced value has exactly the decimals of its column's
    scale, lies strictly between -10^(precision-scale) and
    10^(precision-scale) (100 for magnitude, 1000 for latitude and
    longitude, 10000 for depth), and is not negative for magnitude and
    depth.  Nothing narrower is checked: a latitude of 999 is coerced. *)
Theorem coerced_value_bounds (f : numeric_field) (x : option string) (v : Q) :
  coerce_field f x = Ok (Some v) →
  Qden v = Z.to_pos (ten_to (scale f)) ∧
  (- column_bound f < v < column_bound f)%Q ∧
  (minus_allowed f = false → 0 <= v)%Q.
Proof.
  intros (t & q & -> & Hq & Hs & -> & Hfit)%coerce_value.
  split; [done |]. unfold fits_column in Hfit. split.
  - apply (bound_of_fit f (Qnum (numeric_round (scale f) q)) Hfit).
  - intros Hm. rewrite Hm in Hs.
    destruct (numeric_in_unsigned_nonneg _ Hs) as (q' & Hq' & Hpos).
    rewrite Hq in Hq'. injection Hq' as <-.
    pose proof (numeric_round_sign (scale f) q Hpos) as Hr.
    unfold Qle. change (Qnum 0%Q) with 0. change (Qden 0%Q) with 1%positive. lia.
Qed.


(** A latitude of 999 and a magnitude of 5.2. *)
Lemma coerced_value_bounds_witness :
  (- column_bound Latitude < 999.00000 < column_bound Latitude)%Q ∧
  (0 <= 5.2)%Q.
Proof.
  split.
  - apply (coerced_value_bounds Latitude (Some "999") 999.00000%Q).
    vm_compute. reflexivity.
  - apply (coerced_value_bounds Magnitude (Some " 5.2") 5.2%Q);
      [vm_compute |]; reflexivity.
Defined.

Section TrimFacts.

Lemma ltrim_fixed (s : string) :
  Text.ltrim s = s ↔ s = "" ∨ ∃ c s', s = String c s' ∧ Text.is_space c = false.
Proof.
  assert (Hlen : ∀ u, (String.length (Text.ltrim u) ≤ String.length u)%nat).
  { induction u as [|c u IH]; simpl; [lia |]. destruct (Text.is_space c); simpl; lia. }
  destruct s as [|c s]; simpl; [split; auto |].
  destruct (Text.is_space c) eqn:Hc.
  - split.
    + intros Heq. pose proof (Hlen s) as Hl. rewrite Heq in Hl. simpl in Hl. lia.
    + intros [? | (c' & s' & [= <- <-] & Hc')]; [done | congruence].
  - split; [intros _; right; eauto | done].
Qed.

Lemma ltrim_ltrim (s : string) : Text.ltrim (Text.ltrim s) = Text.ltrim s.
Proof.
  induction s as [|c s IH]; simpl; [done |].
  destruct (Text.is_space c) eqn:Hc; [done |]. simpl. by rewrite Hc.
Qed.

Lemma rtrim_rtrim (s : string) : Text.rtrim (Text.rtrim s) = Text.rtrim s.
Proof.
  induction s as [|c s IH]; simpl; [done |].
  destruct (Text.rtrim s) as [|d u] eqn:Hr.
  - destruct (Text.is_space c) eqn:Hc; simpl; [done | by rewrite Hc].
  - change (Text.rtrim (String c (String d u)))
      with (match Text.rtrim (String d u) with
            | EmptyString => if Text.is_space c then EmptyString
                             else String c EmptyString
            | t => String c t
            end).
    by rewrite IH.
Qed.

Lemma rtrim_keeps_head (c : ascii) (s : string) :
  Text.is_space c = false → ∃ u, Text.rtrim (String c s) = String c u.
Proof.
  intros Hc. simpl. destruct (Text.rtrim s); [rewrite Hc |]; eauto.
Qed.

Lemma ltrim_rtrim_ltrim (s : string) :
  Text.ltrim (Text.rtrim (Text.ltrim s)) = Text.rtrim (Text.ltrim s).
Proof.
  destruct (proj1 (ltrim_fixed (Text.ltrim s)) (ltrim_ltrim s))
    as [-> | (c & u & -> & Hc)]; [done |].
  destruct (rtrim_keeps_head c u Hc) as [v ->]. simpl. by rewrite Hc.
Qed.

Lemma trim_trim (s : string) : Text.trim (Text.trim s) = Text.trim s.
Proof.
  unfold Text.trim. by rewrite ltrim_rtrim_ltrim, rtrim_rtrim.
Qed.

Lemma rtrim_app_space (s : string) : Text.rtrim (s +:+ " ") = Text.rtrim s.
Proof.
  induction s as [|c s IH]; [done |].
  rewrite string_app_cons. simpl. by rewrite IH.
Qed.

Lemma ltrim_app_space (s : string) :
  Text.ltrim (s +:+ " ") = "" ∧ Text.ltrim s = ""
  ∨ Text.ltrim (s +:+ " ") = Text.ltrim s +:+ " ".
Proof.
  induction s as [|c s IH]; [by left |].
  rewrite string_app_cons. simpl. destruct (Text.is_space c); [done |].
  right. by rewrite string_app_cons.
Qed.

Lemma trim_app_space (s : string) : Text.trim (s +:+ " ") = Text.trim s.
Proof.
  unfold Text.trim. destruct (ltrim_app_space s) as [[-> ->] | ->]; [done |].
  apply rtrim_app_space.
Qed.

Lemma trim_cons_space (s : string) : Text.trim (String " " s) = Text.trim s.
Proof. reflexivity. Qed.

Lemma spelling_head (b : bool) (c : ascii) (u : string) :
  decimal_spelling b (String c u) → c = "-"%char ∨ Text.is_digit c = true.
Proof.
  intros (sign & ds & fs & Heq & Hsign & Hne & Hd & _).
  destruct Hsign as [-> | [_ ->]].
  - destruct ds as [|d ds]; [done |]. rewrite string_app_nil_l, string_app_cons in Heq.
    injection Heq as -> _. simpl in Hd. apply andb_true_iff in Hd as [Hd _]. by right.
  - rewrite string_app_cons in Heq. injection Heq as -> _. by left.
Qed.

End TrimFacts.

(** X3.  Spaces before and after a numeric text do not change what it
    is coerced to, and coercing the trimmed text gives the same result;
    only the space character is trimmed: a text that starts with a tab
    is coerced to an absent value. *)
Theorem coercion_ignores_spaces (f : numeric_field) (t : string) :
  coerce_field f (Some (String " " t)) = coerce_field f (Some t) ∧
  coerce_field f (Some (t +:+ " ")) = coerce_field f (Some t) ∧
  coerce_field f (Some (Text.trim t)) = coerce_field f (Some t) ∧
  coerce_field f (Some (String "009" t)) = Ok None.
Proof.
  rewrite !coerce_field_unfold, trim_cons_space, trim_app_space, trim_trim.
  repeat split.
  assert (Ht : ∃ u, Text.trim (String "009" t) = String "009" u).
  { unfold Text.trim. change (Text.ltrim (String "009" t)) with (String "009" t).
    by apply rtrim_keeps_head. }
  destruct Ht as [u ->].
  destruct (Regex.matches _ _) eqn:Hm; [| done].
  apply spelling_of_field, spelling_head in Hm as [Hm | Hm]; discriminate.
Qed.

(** X4.  In an inserted row the magnitude category is one of Minor,
    Light, Moderate, Strong, Major, Great, never Unknown; the depth
    category is Unknown exactly when the depth is absent. *)
Theorem inserted_categories `{Locale} (p : parsed_row)
    (a : analytics_row) :
  insert_of p = Some a →
  In (magnitude_category a)
     ["Minor"; "Light"; "Moderate"; "Strong"; "Major"; "Great"] ∧
  (depth_category a = "Unknown" ↔ depth_km a = None) ∧
  In (depth_category a) ["Shallow"; "Intermediate"; "Deep"; "Unknown"].
Proof.
  intros (-> & m & la & lo & Hm & _ & _)%insert_of_inv. simpl.
  rewrite Hm. split; [| split].
  - unfold category_of_magnitude, sql_and, sql_ge, sql_lt, Qlt_bool. simpl.
    q_cases; simpl; auto 10; lra.
  - destruct (p_depth_km p) as [d|]; [| done].
    unfold category_of_depth, sql_and, sql_ge, sql_lt, Qlt_bool. simpl.
    q_cases; simpl; split; intros; try done; lra.
  - destruct (p_depth_km p) as [d|]; [| simpl; auto].
    unfold category_of_depth, sql_and, sql_ge, sql_lt, Qlt_bool. simpl.
    q_cases; simpl; auto 10; lra.
Qed.

(** X5.  In an inserted row, a Strong, Major or Great event is flagged
    significant whatever its depth; the flag is false only for a Minor,
    Light or Moderate event with a depth of at least 50; it is NULL
    exactly for a Minor, Light or Moderate event without a depth. *)
Theorem significance_by_category `{Locale} (p : parsed_row)
    (a : analytics_row) :
  insert_of p = Some a →
  (In (magnitude_category a) ["Strong"; "Major"; "Great"] →
   is_significant a = Some true) ∧
  (is_significant a = Some false →
   In (magnitude_category a) ["Minor"; "Light"; "Moderate"] ∧
   ∃ d, depth_km a = Some d ∧ (50 <= d)%Q) ∧
  (is_significant a = None ↔
   depth_km a = None ∧ In (magnitude_category a) ["Minor"; "Light"; "Moderate"]).
Proof.
  intros (-> & m & la & lo & Hm & _ & _)%insert_of_inv. simpl.
  rewrite Hm.
  unfold category_of_magnitude, significance, sql_or, sql_and, sql_ge, sql_lt, Qlt_bool.
  destruct (p_depth_km p) as [d|]; simpl; q_cases; simpl;
    (split; [| split]); try split; intros; 
    repeat match goal with
           | H : _ ∨ _ |- _ => destruct H
           | H : _ ∧ _ |- _ => destruct H
           | H : False |- _ => destruct H
           end; try done; try lra; auto 10;
    try (split; [auto 10 | eexists; split; [done | lra]]);
    try (eexists; split; [done | lra]).
Qed.

(** The categories of the well-formed event. *)
Lemma inserted_categories_witness :
  In (magnitude_category (select_row good_parsed))
     ["Minor"; "Light"; "Moderate"; "Strong"; "Major"; "Great"] ∧
  (depth_category (select_row good_parsed) = "Unknown" ↔
   depth_km (select_row good_parsed) = None).
Proof.
  destruct (inserted_categories good_parsed (select_row good_parsed))
    as (Hm & Hd & _); [reflexivity |]. split; [exact Hm | exact Hd].
Defined.

(** The well-formed event is Strong, hence significant. *)
Lemma significance_by_category_witness :
  is_significant (select_row good_parsed) = Some true.
Proof.
  destruct (significance_by_category good_parsed (select_row good_parsed))
    as (Hs & _); [reflexivity |].
  apply Hs. vm_compute. tauto.
Defined.

Section RegionFacts.
Context `{Locale}.

Lemma is_prefix_app (p q s : string) :
  Text.is_prefix (p +:+ q) s = true → Text.is_prefix p s = true.
Proof.
  revert s. induction p as [|a p IH]; intros s; [by destruct s |].
  rewrite string_app_cons. destruct s as [|b s]; simpl; [done |].
  intros [Hab Hp]%andb_true_iff. rewrite Hab. simpl. by apply IH.
Qed.

Lemma contains_app (s p q : string) :
  Text.contains s (p +:+ q) = true → Text.contains s p = true.
Proof.
  induction s as [|c s IH]; simpl.
  - rewrite !orb_false_r. apply is_prefix_app.
  - intros [Hp | Hs]%orb_true_iff.
    + by rewrite (is_prefix_app _ _ _ Hp).
    + rewrite (IH Hs). apply orb_true_r.
Qed.

Lemma map_string_app (f : ascii → ascii) (p q : string) :
  Text.map_string f (p +:+ q) = Text.map_string f p +:+ Text.map_string f q.
Proof.
  induction p as [|a p IH]; [done |].
  rewrite string_app_cons. simpl. by rewrite IH, string_app_cons.
Qed.

(** A keyword that extends another one adds nothing to it. *)
Lemma longer_keyword_redundant (x : option string) (p q : string) :
  Text.all_ascii (p +:+ q) = true → Text.all_ascii p = true →
  sql_or (ILIKE_contains x (p +:+ q)) (ILIKE_contains x p) = ILIKE_contains x p.
Proof.
  intros Hpq Hp. destruct x as [s|]; [| done]. simpl.
  rewrite (lower_text_ascii _ Hpq), (lower_text_ascii _ Hp), map_string_app.
  destruct (Text.contains _ (_ +:+ _)) eqn:Hc.
  - by rewrite (contains_app _ _ _ Hc).
  - by destruct (Text.contains _ (Text.map_string _ p)).
Qed.

Lemma ILIKE_case (s : string) (k : string) :
  ILIKE_contains (Some (Text.map_string Text.lower_ascii s)) k
    = ILIKE_contains (Some s) k ∧
  ILIKE_contains (Some (Text.map_string Text.upper_ascii s)) k
    = ILIKE_contains (Some s) k.
Proof. simpl. by rewrite lower_text_of_lower, lower_text_of_upper. Qed.

End RegionFacts.

(** X6.  The region is decided by the first keyword, in the order MICH,
    OAX, GUERRERO, GRO, CHIAPAS, CHIS, CDMX, CIUDAD DE MEXICO, PUE, VER,
    that occurs in the location text; the alternatives OAXACA, PUEBLA
    and VERACRUZ never change the outcome.  The result is one of the
    seven regions or Other, a missing location gives Other, and the
    ASCII letter case of the text does not matter. *)
Theorem region_first_match `{Locale} (x : option string) (s : string) :
  region_of x = first_matching_region x ∧
  In (region_of x)
     ["Michoacán"; "Oaxaca"; "Guerrero"; "Chiapas"; "CDMX"; "Puebla";
      "Veracruz"; "Other"] ∧
  region_of None = "Other" ∧
  region_of (Some (Text.map_string Text.lower_ascii s)) = region_of (Some s) ∧
  region_of (Some (Text.map_string Text.upper_ascii s)) = region_of (Some s).
Proof.
  assert (Heq : region_of x = first_matching_region x).
  { unfold region_of, first_matching_region, region_rules.
    change "OAXACA" with ("OAX" +:+ "ACA").
    change "PUEBLA" with ("PUE" +:+ "BLA").
    change "VERACRUZ" with ("VER" +:+ "ACRUZ").
    rewrite !longer_keyword_redundant by reflexivity. simpl.
    destruct (ILIKE_contains x "MICH") as [[]|]; simpl; try done;
    destruct (ILIKE_contains x "OAX") as [[]|]; simpl; try done;
    destruct (ILIKE_contains x "GUERRERO") as [[]|]; simpl; try done;
    destruct (ILIKE_contains x "GRO") as [[]|]; simpl; try done;
    destruct (ILIKE_contains x "CHIAPAS") as [[]|]; simpl; try done;
    destruct (ILIKE_contains x "CHIS") as [[]|]; simpl; try done;
    destruct (ILIKE_contains x "CDMX") as [[]|]; simpl; try done;
    destruct (ILIKE_contains x "CIUDAD DE MEXICO") as [[]|]; simpl; try done;
    destruct (ILIKE_contains x "PUE") as [[]|]; simpl; try done;
    destruct (ILIKE_contains x "VER") as [[]|]; simpl; try done. }
  split; [exact Heq |]. split; [| split; [done |]].
  - rewrite Heq. unfold first_matching_region.
    destruct (List.find _ _) as [rule|] eqn:Hf; [| simpl; auto 10].
    apply find_some in Hf as [Hin _]. simpl in Hin.
    repeat (destruct Hin as [<- | Hin]; [simpl; auto 10 |]). done.
  - unfold region_of.
    split; by rewrite ?(proj1 (ILIKE_case s _)), ?(proj2 (ILIKE_case s _)).
Qed.

Section CalendarAndBatch.
Context `{Locale} `{DateFunctions}.

(** X7.  A row without a date whose magnitude, latitude and longitude
    coerce passes the gate of the statement and is selected for
    insertion, with the date, the timestamp and the four calendar
    features all absent. *)
Theorem undated_rows_are_inserted (r : raw_row) (p : parsed_row) :
  parse_row r = Ok p →
  col r "fecha_utc" = None →
  coerces_mandatory r →
  ∃ a, insert_of p = Some a ∧
       earthquake_date a = None ∧ earthquake_datetime a = None ∧
       year a = None ∧ month a = None ∧ day_of_week a = None ∧
       hour_of_day a = None.
Proof.
  intros Hp Hf Hc.
  pose proof (parse_row_ok r p Hp) as (Hd & Ht & Hm & Hla & Hlo & _).
  unfold datetime_text in Ht. rewrite Hf in Hd, Ht. simpl in Hd, Ht.
  injection Hd as Hd. injection Ht as Ht.
  destruct Hc as ([m Em] & [la Ela] & [lo Elo]).
  rewrite Em in Hm. rewrite Ela in Hla. rewrite Elo in Hlo.
  injection Hm as Hm. injection Hla as Hla. injection Hlo as Hlo.
  exists (select_row p). split.
  - unfold insert_of, where_not_null. by rewrite <- Hm, <- Hla, <- Hlo.
  - simpl. by rewrite <- Hd, <- Ht.
Qed.

Lemma filter_in_batch_app lit (raw others : list raw_row) :
  Forall (λ r, in_batch lit r = false) others →
  List.filter (in_batch lit) (raw ++ others) = List.filter (in_batch lit) raw ∧
  List.filter (in_batch lit) (others ++ raw) = List.filter (in_batch lit) raw.
Proof.
  intros Ho.
  assert (Hnil : List.filter (in_batch lit) others = []).
  { induction Ho as [|r l Hr _ IH]; simpl; [done | by rewrite Hr]. }
  by rewrite !List.filter_app, Hnil, app_nil_r.
Qed.

(** X8.  Raw rows of other batches, before or after the rows of the
    batch, change neither the rows the statement inserts nor whether it
    fails. *)
Theorem transform_reads_only_its_batch (lit : string) (raw others : list raw_row) :
  Forall (λ r, in_batch lit r = false) others →
  transform_rows lit (raw ++ others) = transform_rows lit raw ∧
  transform_rows lit (others ++ raw) = transform_rows lit raw.
Proof.
  intros Ho. destruct (filter_in_batch_app lit raw others Ho) as [H1 H2].
  unfold transform_rows. by rewrite H1, H2.
Qed.

Lemma omap_length_le {A B} (f : A → option B) (l : list A) :
  (length (omap f l) ≤ length l)%nat.
Proof. induction l as [|x l IH]; csimpl; [done |]. destruct (f x); csimpl; lia. Qed.

(** X9.  Every row the statement inserts carries the batch identifier of
    the statement and is the image of a raw row of that batch; there are
    at most as many inserted rows as raw rows of the batch. *)
Theorem transform_rows_trace (lit : string) (raw : list raw_row)
    (rows : list analytics_row) :
  transform_rows lit raw = Ok rows →
  Forall (λ a, batch_id a = Some lit) rows ∧
  (length rows ≤ length (List.filter (in_batch lit) raw))%nat ∧
  Forall (λ a, ∃ r p, In r raw ∧ in_batch lit r = true ∧
                      parse_row r = Ok p ∧ a = select_row p) rows.
Proof.
  unfold transform_rows.
  destruct (traverse _ _) as [outcomes|] eqn:Ht; simpl; [| done].
  intros [= <-]. apply traverse_ok in Ht.
  assert (Hall : Forall (λ a, ∃ r p, In r raw ∧ in_batch lit r = true ∧
                                     parse_row r = Ok p ∧ a = select_row p)
                        (omap id outcomes)).
  { apply Forall_forall. intros a (o & Ho & Hoa)%list_elem_of_omap.
    simpl in Hoa. subst o.
    apply list_elem_of_lookup in Ho as [i Hi].
    destruct (Forall2_lookup_r _ _ _ _ _ Ht Hi) as (r & Hr & Hra).
    apply list_elem_of_lookup_2, list_elem_of_In, filter_In in Hr as [Hin Hb].
    simpl in Hra. unfold transform_row in Hra.
    destruct (coerce_magnitude _) as [[m|]|]; simpl in Hra; try done.
    destruct (coerce_latitude _) as [[la|]|]; simpl in Hra; try done.
    destruct (coerce_longitude _) as [[lo|]|]; simpl in Hra; try done.
    destruct (parse_row r) as [p|] eqn:Hp; simpl in Hra; [| done].
    injection Hra as Hra. apply insert_of_inv in Hra as [-> _]. eauto 10. }
  split; [| split; [| done]].
  - eapply Forall_impl; [exact Hall |]. intros a (r & p & _ & Hb & Hrp & ->).
    simpl. apply parse_row_text in Hrp as [-> _]. by apply in_batch_col.
  - rewrite (Forall2_length _ _ _ Ht). apply omap_length_le.
Qed.

End CalendarAndBatch.

(** The event without date and time. *)
Lemma undated_rows_are_inserted_witness :
  ∃ a, insert_of null_date_parsed = Some a ∧
       earthquake_date a = None ∧ earthquake_datetime a = None ∧
       year a = None ∧ month a = None ∧ day_of_week a = None ∧
       hour_of_day a = None.
Proof.
  apply (undated_rows_are_inserted null_date_row null_date_parsed).
  - vm_compute; reflexivity.
  - reflexivity.
  - repeat split; eexists; vm_compute; reflexivity.
Defined.

(** An unreadable date in another batch does not disturb this one. *)
Lemma transform_reads_only_its_batch_witness :
  transform_rows batch0 ([good_row] ++ [other_batch_row])
    = transform_rows batch0 [good_row] ∧
  transform_rows batch0 ([other_batch_row] ++ [good_row])
    = transform_rows batch0 [good_row].
Proof.
  apply (transform_reads_only_its_batch batch0 [good_row] [other_batch_row]).
  repeat constructor.
Defined.

(** The rows of a batch of two events, one of them uncomputable. *)
Lemma transform_rows_trace_witness :
  Forall (λ a, batch_id a = Some batch0) [good_analytics] ∧
  (length [good_analytics]
   ≤ length (List.filter (in_batch batch0) [good_row; uncomputable_row]))%nat.
Proof.
  destruct (transform_rows_trace batch0 [good_row; uncomputable_row]
              [good_analytics]) as (Hb & Hlen & _).
  - vm_compute; reflexivity.
  - split; [exact Hb | exact Hlen].
Defined.

(* ===================================================================== *)
(** ** Extraction and load *)
(* ===================================================================== *)

Section ExtractFurther.
Context `{UnicodeData}.

(** X10.  A successful extraction leaves the source file, the snapshots
    of all other batches, the warehouse and the export artifact as they
    were. *)
Theorem extract_keeps_other_files (ctx : context) (w w1 : world) (rv : retval) :
  extract_earthquake_data ctx w = Ok (w1, rv) →
  files w1 !! CSV_FILE = files w !! CSV_FILE ∧
  (∀ b, b ≠ ts_nodash ctx →
        files w1 !! raw_file_path b = files w !! raw_file_path b) ∧
  dw w1 = dw w ∧ export_artifact w1 = export_artifact w.
Proof.
  intros (df & _ & _ & Hfiles & Hdw & Hex & _)%extract_inv.
  rewrite Hfiles. split; [| split; [| done]].
  - apply lookup_insert_ne, raw_file_path_not_source.
  - intros b Hb. apply lookup_insert_ne. intros Heq. by apply raw_file_path_inj in Heq.
Qed.

(** X11.  Extracting again for the same run, on the world a successful
    extraction left, succeeds and changes nothing. *)
Theorem extract_idempotent (ctx : context) (w w1 : world) (rv : retval) :
  extract_earthquake_data ctx w = Ok (w1, rv) →
  extract_earthquake_data ctx w1 = Ok (w1, rv).
Proof.
  intros He. pose proof He as Hinv.
  apply extract_inv in Hinv as (df & Hf & Hnd & _).
  revert He. unfold extract_earthquake_data at 1. rewrite Hf. simpl.
  unfold to_parquet. simpl. rewrite decide_True by done. simpl.
  intros [= <- <-]. unfold extract_earthquake_data. simpl.
  rewrite lookup_insert_ne by apply raw_file_path_not_source.
  rewrite Hf. simpl. unfold to_parquet. simpl. rewrite decide_True by done. simpl.
  unfold xcom_push. simpl. rewrite insert_insert_eq.
  do 2 f_equal. f_equal.
  apply map_eq. intros k. rewrite !lookup_insert. by repeat case_decide.
Qed.

(** X12.  When two columns of the source have labels with the same
    normalized name, the extraction fails on the duplicate column
    names. *)
Theorem extract_rejects_colliding_labels (ctx : context) (w : world)
    (df : DataFrame) (i j : nat) (a b : pystr) :
  files w !! CSV_FILE = Some (Csv df) →
  columns df !! i = Some a → columns df !! j = Some b → i ≠ j →
  normalize_column_name a = normalize_column_name b →
  extract_earthquake_data ctx w = Err DuplicateColumnNames.
Proof.
  intros Hf Hi Hj Hij Hab. unfold extract_earthquake_data. rewrite Hf. simpl.
  unfold to_parquet. simpl. rewrite decide_False; [done |].
  intros Hnd. apply Hij. eapply (proj1 (NoDup_alt _) Hnd).
  - by rewrite list_lookup_fmap, Hi.
  - rewrite list_lookup_fmap, Hj. simpl. by rewrite Hab.
Qed.

End ExtractFurther.

(** The first extraction on the three-event source. *)
Lemma extract_keeps_other_files_witness :
  files extracted_world !! CSV_FILE = files fresh_world !! CSV_FILE ∧
  dw extracted_world = dw fresh_world.
Proof.
  destruct (extract_keeps_other_files context0 fresh_world extracted_world
              (retval_of (extract_earthquake_data context0 fresh_world)))
    as (Hsrc & _ & Hdw & _).
  - vm_compute; reflexivity.
  - split; [exact Hsrc | exact Hdw].
Defined.

(** Extracting twice. *)
Lemma extract_idempotent_witness :
  extract_earthquake_data context0 extracted_world
    = Ok (extracted_world,
          retval_of (extract_earthquake_data context0 fresh_world)).
Proof.
  apply (extract_idempotent context0 fresh_world).
  vm_compute; reflexivity.
Defined.

(** "Fecha" and " fecha " collide. *)
Lemma extract_rejects_colliding_labels_witness :
  extract_earthquake_data context0 colliding_world = Err DuplicateColumnNames.
Proof.
  apply (extract_rejects_colliding_labels context0 colliding_world
           colliding_frame 0 1 (py "Fecha") (py " fecha "));
    first [reflexivity | lia | vm_compute; reflexivity].
Defined.

Section LoadFurther.
Context `{UnicodeData}.

Lemma record_of_lookup (cols : list pystr) (row : list (option string))
    (j : nat) (c : pystr) (v : option string) :
  NoDup cols → cols !! j = Some c → row !! j = Some v →
  record_of cols row !! c = Some v.
Proof.
  unfold record_of. revert row j.
  induction cols as [|c0 cols IH]; intros row j Hnd Hc Hv; [done |].
  destruct row as [|v0 row]; [done |].
  apply NoDup_cons in Hnd as [Hnotin Hnd]. simpl.
  destruct j as [|j]; simpl in Hc, Hv.
  - injection Hc as ->. injection Hv as ->. apply lookup_insert_eq.
  - rewrite lookup_insert_ne; [by eapply IH |].
    intros ->. apply Hnotin. by eapply list_elem_of_lookup_2.
Qed.

Lemma rename_columns (df : DataFrame) :
  columns (rename (py "referencia_de_localizacion")
                  (py "referencia_localizacion") df)
  = loader_alias <$> columns df.
Proof. reflexivity. Qed.

Lemma count_batch_app lit (d : warehouse) (old new : list raw_row) :
  raw_earthquakes d = old ++ new →
  count_batch lit d =
    Z.of_nat (length (List.filter (in_batch lit) old))
    + Z.of_nat (length (List.filter (in_batch lit) new)).
Proof.
  intros Hr. unfold count_batch. rewrite Hr, List.filter_app, length_app. lia.
Qed.

Lemma load_after_extract (ctx : context) (w w1 w2 : world) (rv1 rv2 : retval)
    (df : DataFrame) :
  files w !! CSV_FILE = Some (Csv df) →
  extract_earthquake_data ctx w = Ok (w1, rv1) →
  load_raw_data ctx w1 = Ok (w2, rv2) →
  raw_earthquakes (dw w2) =
    raw_earthquakes (dw w) ++
    stamped_rows ctx (Some (XStr (ts_nodash ctx)))
      {| columns := loader_alias <$> (normalize_column_name <$> columns df);
         rows := rows df |}
      (Z.of_nat (length (raw_earthquakes (dw w))) + 1) ∧
  analytics_earthquakes (dw w2) = analytics_earthquakes (dw w) ∧
  earthquake_statistics (dw w2) = earthquake_statistics (dw w) ∧
  xcom_pull "loaded_records" "load_raw_data" w2 = Some (XInt (len df)).
Proof.
  intros Hf He Hl.
  pose proof (xcom_batch_after_extract ctx w w1 rv1 He) as (Hb & Hp & _).
  pose proof (extract_inv ctx w w1 rv1 He) as (df' & Hf' & _ & Hfiles & Hdw & _).
  rewrite Hf in Hf'. injection Hf' as <-.
  pose proof (load_inv ctx w1 w2 rv2 Hl) as (dfl & Hread & _ & _ & Hx & Ha & Hs & Hraw).
  rewrite Hp in Hread. simpl in Hread. rewrite Hfiles, lookup_insert_eq in Hread.
  injection Hread as <-. rewrite Hb, Hdw in Hraw. rewrite Hdw in Ha, Hs.
  split; [exact Hraw |]. split; [done |]. split; [done |].
  unfold xcom_pull. rewrite Hx. by rewrite lookup_insert_eq.
Qed.

Lemma load_count (ctx : context) (w w1 w2 : world) (rv1 rv2 : retval)
    (df : DataFrame) :
  files w !! CSV_FILE = Some (Csv df) →
  extract_earthquake_data ctx w = Ok (w1, rv1) →
  load_raw_data ctx w1 = Ok (w2, rv2) →
  count_batch (ts_nodash ctx) (dw w2)
    = count_batch (ts_nodash ctx) (dw w) + len df.
Proof.
  intros Hf He Hl.
  destruct (load_after_extract ctx w w1 w2 rv1 rv2 df Hf He Hl) as (Hraw & _).
  rewrite (count_batch_app _ _ _ _ Hraw). unfold count_batch. f_equal.
  rewrite filter_all.
  - rewrite stamped_rows_length. done.
  - eapply Forall_impl; [apply stamped_rows_batch |].
    intros r Hr. by apply in_batch_col.
Qed.

Lemma validate_after_load (ctx : context) (w w1 w2 : world) (rv1 rv2 : retval)
    (df : DataFrame) :
  files w !! CSV_FILE = Some (Csv df) →
  extract_earthquake_data ctx w = Ok (w1, rv1) →
  load_raw_data ctx w1 = Ok (w2, rv2) →
  validate_raw_data ctx w2 =
    let loaded_count := count_batch (ts_nodash ctx) (dw w) + len df in
    if decide (Some (XInt (len df)) = Some (XInt loaded_count))
    then Ok (w2, [("status", Some (XStr "success"));
                  ("validated_records", Some (XInt loaded_count))])
    else Err (ValidationFailed (py_format (Some (XInt (len df)))) loaded_count).
Proof.
  intros Hf He Hl.
  pose proof (xcom_batch_after_extract ctx w w1 rv1 He) as (Hb & _ & df' & Hf' & Hc).
  rewrite Hf in Hf'. injection Hf' as <-.
  assert (Hb2 : xcom_pull "batch_id" "extract_data" w2 = Some (XStr (ts_nodash ctx))).
  { by rewrite (load_keeps_extract_xcom ctx w1 w2 rv2). }
  assert (Hc2 : xcom_pull "record_count" "extract_data" w2 = Some (XInt (len df))).
  { by rewrite (load_keeps_extract_xcom ctx w1 w2 rv2). }
  rewrite validate_unfold, Hb2, Hc2. simpl.
  by rewrite (load_count ctx w w1 w2 rv1 rv2 df Hf He Hl).
Qed.

(** X13.  After an extraction, the loader appends one raw row per source
    row behind the rows already there, each stamped with the load time
    and tagged with the batch; the count of rows of the batch grows by
    the number of source rows, which is also what the loader publishes
    as loaded_records; the analytics and statistics tables are left
    alone. *)
Theorem load_appends_batch (ctx : context) (w w1 w2 : world) (rv1 rv2 : retval)
    (df : DataFrame) :
  files w !! CSV_FILE = Some (Csv df) →
  extract_earthquake_data ctx w = Ok (w1, rv1) →
  load_raw_data ctx w1 = Ok (w2, rv2) →
  ∃ new,
    raw_earthquakes (dw w2) = raw_earthquakes (dw w) ++ new ∧
    Z.of_nat (length new) = len df ∧
    Forall (λ r, raw_loaded_at r = now ctx ∧
                 col r "batch_id" = Some (ts_nodash ctx)) new ∧
    count_batch (ts_nodash ctx) (dw w2)
      = count_batch (ts_nodash ctx) (dw w) + len df ∧
    xcom_pull "loaded_records" "load_raw_data" w2 = Some (XInt (len df)) ∧
    analytics_earthquakes (dw w2) = analytics_earthquakes (dw w) ∧
    earthquake_statistics (dw w2) = earthquake_statistics (dw w).
Proof.
  intros Hf He Hl.
  destruct (load_after_extract ctx w w1 w2 rv1 rv2 df Hf He Hl)
    as (Hraw & Ha & Hs & Hx).
  eexists. split; [exact Hraw |].
  pose proof (stamped_rows_batch ctx (Some (XStr (ts_nodash ctx)))
    {| columns := loader_alias <$> (normalize_column_name <$> columns df);
       rows := rows df |}
    (Z.of_nat (length (raw_earthquakes (dw w))) + 1)) as Hbatch.
  split; [by rewrite stamped_rows_length |].
  split; [| split; [by eapply load_count | done]].
  apply Forall_lookup. intros i r Hi. split.
  - unfold stamped_rows in Hi. rewrite list_lookup_imap in Hi.
    destruct (_ !! i); simpl in Hi; [| done]. by injection Hi as <-.
  - eapply (proj1 (Forall_forall _ _) Hbatch). by eapply list_elem_of_lookup_2.
Qed.

(** X14.  After extraction and load, validation passes exactly when the
    raw store held no row of this batch before the load; when it passes
    it leaves the world as it is. *)
Theorem validation_passes_iff_fresh_batch (ctx : context) (w w1 w2 : world)
    (rv1 rv2 : retval) :
  extract_earthquake_data ctx w = Ok (w1, rv1) →
  load_raw_data ctx w1 = Ok (w2, rv2) →
  (is_ok (validate_raw_data ctx w2) = true ↔
   count_batch (ts_nodash ctx) (dw w) = 0) ∧
  (∀ w3 rv3, validate_raw_data ctx w2 = Ok (w3, rv3) → w3 = w2).
Proof.
  intros He Hl.
  pose proof (xcom_batch_after_extract ctx w w1 rv1 He) as (_ & _ & df & Hf & _).
  rewrite (validate_after_load ctx w w1 w2 rv1 rv2 df Hf He Hl). simpl. split.
  - case_decide as Hd; simpl.
    + split; [| done]. intros _. injection Hd as Hd. lia.
    + split; [done |]. intros H0. destruct Hd. rewrite H0. done.
  - case_decide; [| done]. by intros w3 rv3 [= <- _].
Qed.

(** X15.  Every cell of the source reaches the raw store unchanged,
    under the normalized and aliased name of its column, provided these
    names are distinct and the column is called neither batch_id nor
    loaded_at, the two columns the loader sets itself. *)
Theorem load_keeps_cells_verbatim (ctx : context) (w w1 w2 : world)
    (rv1 rv2 : retval) (df : DataFrame) (i j : nat)
    (row : list (option string)) (label : pystr) (v : option string) :
  files w !! CSV_FILE = Some (Csv df) →
  extract_earthquake_data ctx w = Ok (w1, rv1) →
  load_raw_data ctx w1 = Ok (w2, rv2) →
  NoDup (loader_alias <$> (normalize_column_name <$> columns df)) →
  rows df !! i = Some row → columns df !! j = Some label → row !! j = Some v →
  loader_alias (normalize_column_name label) ≠ py "batch_id" →
  loader_alias (normalize_column_name label) ≠ py "loaded_at" →
  ∃ r, raw_earthquakes (dw w2) !! (length (raw_earthquakes (dw w)) + i)%nat
         = Some r ∧
       raw_cells r !! loader_alias (normalize_column_name label) = Some v.
Proof.
  intros Hf He Hl Hnd Hi Hj Hv Hne _.
  destruct (load_after_extract ctx w w1 w2 rv1 rv2 df Hf He Hl) as (Hraw & _).
  rewrite Hraw. rewrite lookup_app_r by lia.
  replace (length (raw_earthquakes (dw w)) + i - length (raw_earthquakes (dw w)))%nat
    with i by lia.
  unfold stamped_rows. rewrite list_lookup_imap. simpl. rewrite Hi. simpl.
  eexists. split; [done |]. simpl.
  rewrite lookup_insert_ne by done.
  apply (record_of_lookup _ _ j); [done | | done].
  by rewrite !list_lookup_fmap, Hj.
Qed.

End LoadFurther.

(** The load of a first run. *)
Lemma load_appends_batch_witness :
  ∃ new,
    raw_earthquakes (dw loaded_world) = [] ++ new ∧
    Z.of_nat (length new) = 3 ∧
    count_batch batch0 (dw loaded_world) = 0 + 3.
Proof.
  destruct (load_appends_batch context0 fresh_world extracted_world loaded_world
              (retval_of (extract_earthquake_data context0 fresh_world))
              (retval_of (load_raw_data context0 extracted_world))
              source_frame)
    as (new & Hraw & Hlen & _ & Hcount & _);
    [vm_compute; reflexivity .. |].
  exists new. split; [exact Hraw |]. split; [exact Hlen | exact Hcount].
Defined.

(** Validation of a first run, and of a second run for the same
    timestamp. *)
Lemma validation_passes_iff_fresh_batch_witness :
  is_ok (validate_raw_data context0 loaded_world) = true ∧
  is_ok (validate_raw_data context0
           (world_of (load_raw_data context0
              (world_of (extract_earthquake_data context0 rerun_world)
                 rerun_world)) rerun_world)) = false.
Proof.
  split.
  - destruct (validation_passes_iff_fresh_batch context0 fresh_world
                extracted_world loaded_world
                (retval_of (extract_earthquake_data context0 fresh_world))
                (retval_of (load_raw_data context0 extracted_world)))
      as [Hiff _]; [vm_compute; reflexivity .. |].
    apply Hiff. vm_compute; reflexivity.
  - set (w1 := world_of (extract_earthquake_data context0 rerun_world) rerun_world).
    set (w2 := world_of (load_raw_data context0 w1) rerun_world).
    destruct (validation_passes_iff_fresh_batch context0 rerun_world w1 w2
                (retval_of (extract_earthquake_data context0 rerun_world))
                (retval_of (load_raw_data context0 w1)))
      as [Hiff _]; [vm_compute; reflexivity .. |].
    destruct (is_ok (validate_raw_data context0 w2)); [| reflexivity].
    pose proof (proj1 Hiff eq_refl) as Hcount.
    vm_compute in Hcount. discriminate.
Defined.

(** The uncomputable magnitude of the second source row reaches the raw
    store as it is. *)
Lemma load_keeps_cells_verbatim_witness :
  ∃ r, raw_earthquakes (dw loaded_world)
         !! (length (raw_earthquakes (dw fresh_world)) + 1)%nat = Some r ∧
       raw_cells r !! loader_alias (normalize_column_name (py "Magnitud"))
         = Some (Some "not computable").
Proof.
  apply (load_keeps_cells_verbatim context0 fresh_world extracted_world
           loaded_world
           (retval_of (extract_earthquake_data context0 fresh_world))
           (retval_of (load_raw_data context0 extracted_world))
           source_frame 1 2
           [ Some "01/02/2024"; Some "03:04:05"; Some "not computable";
             Some "18.1"; Some "-99.2"; Some "10"; Some "x"; Some "Revisado" ]
           (py "Magnitud") (Some "not computable"));
    try (vm_compute; reflexivity).
  - compute_done.
  - vm_compute. discriminate.
  - vm_compute. discriminate.
Defined.

(* ===================================================================== *)
(** ** Runs of the DAG *)
(* ===================================================================== *)

Section RunFacts.
Context `{UnicodeData} `{Locale} `{DateFunctions}.

(** X16.  In every run the six tasks are reported in schedule order, and
    their states are successes, then at most one failure, then
    upstream_failed for every task after it. *)
Theorem dag_run_fail_fast (ctx : context) (w : world) :
  (dag_run ctx w).2.*1 = schedule ∧ fail_fast ((dag_run ctx w).2.*2).
Proof.
  rewrite dag_run_unfold.
  destruct (python_callable extract_task ctx w) as [[w1 rv1]|e1] eqn:Hc1.
  2:{ rewrite (run_task_failure ctx w [] extract_task e1) by done.
      rewrite !run_task_skipped by done. split; [done |].
      simpl. apply ff_failed. repeat constructor. }
  rewrite (run_task_success ctx w [] extract_task w1 rv1) by done.
  destruct (python_callable load_task ctx w1) as [[w2 rv2]|e2] eqn:Hc2.
  2:{ rewrite (run_task_failure ctx w1 _ load_task e2) by done.
      rewrite !run_task_skipped by done. split; [done |].
      simpl. apply ff_success, ff_failed. repeat constructor. }
  rewrite (run_task_success ctx w1 _ load_task w2 rv2) by done.
  destruct (python_callable validate_task ctx w2) as [[w3 rv3]|e3] eqn:Hc3.
  2:{ rewrite (run_task_failure ctx w2 _ validate_task e3) by done.
      rewrite !run_task_skipped by done. split; [done |].
      simpl. do 2 apply ff_success. apply ff_failed. repeat constructor. }
  rewrite (run_task_success ctx w2 _ validate_task w3 rv3) by done.
  destruct (python_callable transform_task ctx w3) as [[w4 rv4]|e4] eqn:Hc4.
  2:{ rewrite (run_task_failure ctx w3 _ transform_task e4) by done.
      rewrite !run_task_skipped by done. split; [done |].
      simpl. do 3 apply ff_success. apply ff_failed. repeat constructor. }
  rewrite (run_task_success ctx w3 _ transform_task w4 rv4) by done.
  destruct (python_callable aggregate_task ctx w4) as [[w5 rv5]|e5] eqn:Hc5.
  2:{ rewrite (run_task_failure ctx w4 _ aggregate_task e5) by done.
      rewrite !run_task_skipped by done. split; [done |].
      simpl. do 4 apply ff_success. apply ff_failed. repeat constructor. }
  rewrite (run_task_success ctx w4 _ aggregate_task w5 rv5) by done.
  destruct (python_callable export_task ctx w5) as [[w6 rv6]|e6] eqn:Hc6.
  2:{ rewrite (run_task_failure ctx w5 _ export_task e6) by done.
      split; [done |].
      simpl. do 5 apply ff_success. apply ff_failed. repeat constructor. }
  rewrite (run_task_success ctx w5 _ export_task w6 rv6) by done.
  split; [done |]. simpl. repeat constructor.
Qed.

Lemma grows_refl w : grows w w.
Proof. by repeat split. Qed.

Lemma grows_trans w1 w2 w3 : grows w1 w2 → grows w2 w3 → grows w1 w3.
Proof.
  intros (? & ? & ? & ?) (? & ? & ? & ?). repeat split; by etrans.
Qed.

Lemma calculate_statistics_inv ctx w w' rv :
  calculate_statistics ctx w = Ok (w', rv) →
  files w' = files w ∧
  raw_earthquakes (dw w') = raw_earthquakes (dw w) ∧
  analytics_earthquakes (dw w') = analytics_earthquakes (dw w) ∧
  ∃ row, earthquake_statistics (dw w')
         = earthquake_statistics (dw w) ++ [row].
Proof.
  unfold calculate_statistics, AGGREGATE_STATISTICS_SQL.
  destruct (negb _); simpl; [done |]. intros [= <- _]. simpl. eauto.
Qed.

Lemma export_inv ctx w w' rv :
  export_analytics_to_parquet ctx w = Ok (w', rv) →
  files w' = files w ∧ dw w' = dw w.
Proof. unfold export_analytics_to_parquet. by intros [= <- _]. Qed.

Lemma callable_grows (t : task) ctx w w' rv :
  python_callable t ctx w = Ok (w', rv) → grows w w'.
Proof.
  destruct t; simpl; intros Hc.
  - apply extract_inv in Hc as (df & _ & _ & Hfiles & Hdw & _).
    unfold grows. rewrite Hdw, Hfiles. repeat split; try done.
    rewrite dom_insert_L. set_solver.
  - apply load_inv in Hc as (df & _ & Hfiles & _ & _ & Ha & Hs & Hraw).
    unfold grows. rewrite Hfiles, Ha, Hs, Hraw. repeat split; try done.
    by apply prefix_app_r.
  - unfold validate_raw_data in Hc. case_decide; [| done].
    injection Hc as <- _. apply grows_refl.
  - unfold transform_to_analytics in Hc.
    destruct (TRANSFORM_SQL _ _) as [d|] eqn:Ht; simpl in Hc; [| done].
    injection Hc as <- _. apply transform_inv in Ht as (rows & _ & ->).
    unfold grows. simpl. repeat split; try done. by apply prefix_app_r.
  - apply calculate_statistics_inv in Hc as (Hf & Hr & Ha & row & Hs).
    unfold grows. rewrite Hf, Hr, Ha, Hs. repeat split; try done.
    by apply prefix_app_r.
  - apply export_inv in Hc as [Hf Hd]. unfold grows. by rewrite Hf, Hd.
Qed.

Lemma run_task_grows ctx w st t :
  grows w (run_task ctx (w, st) t).1.
Proof.
  unfold run_task. destruct (forallb _ _); [| apply grows_refl].
  rewrite attempt_once.
  destruct (python_callable t ctx w) as [[w' rv]|e] eqn:Hc; simpl;
    [by eapply callable_grows | apply grows_refl].
Qed.

Lemma foldl_run_task_grows ctx (ts : list task) (s : world * list (task * task_state)) :
  grows s.1 (foldl (run_task ctx) s ts).1.
Proof.
  revert s. induction ts as [|t ts IH]; intros s; simpl; [apply grows_refl |].
  eapply grows_trans; [| apply IH]. destruct s as [w st]. apply run_task_grows.
Qed.

(** X17.  A run, whatever its outcome, only appends to the raw,
    analytics and statistics tables and removes no file. *)
Theorem dag_run_only_grows (ctx : context) (w : world) :
  grows w (dag_run ctx w).1.
Proof. apply (foldl_run_task_grows ctx schedule (w, [])). Qed.

End RunFacts.

Section FreshRun.
Context `{UnicodeData} `{Locale} `{DateFunctions}.



End FreshRun.



(* ===================================================================== *)
(** ** Normalized names and statistics *)
(* ===================================================================== *)

Section Idempotence.

Lemma latin1_enum (c : codepoint) : in_latin1 c = true → In c latin1_codepoints.
Proof.
  unfold in_latin1, latin1_codepoints. intros Hc%N.ltb_lt.
  apply in_map_iff. exists (N.to_nat c). split; [lia |].
  apply in_seq. lia.
Qed.

Lemma latin1_outcomes_settled :
  forallb (λ x, forallb (λ y, match latin1_outcome y with
                              | Some c => latin1_settled c
                              | None => true
                              end) (latin1_decompose x))
          latin1_codepoints = true.
Proof. vm_compute. reflexivity. Qed.

Lemma normalize_output_settled (s : pystr) :
  Forall (λ c, in_latin1 c = true) s →
  Forall (λ c, latin1_settled c = true) (normalize_column_name s).
Proof.
  intros Hs. rewrite normalize_column_name_filter. apply List.Forall_forall.
  intros c [Hin Hc]%filter_In.
  unfold replace_space_underscore in Hin. apply in_map_iff in Hin as (l & Hl & Hin).
  simpl in Hin. apply in_map_iff in Hin as (y & <- & Hy).
  apply strip_incl in Hy. apply filter_In in Hy as [Hy Hmn].
  apply in_join_decompose in Hy as (x & Hx & Hy).
  pose proof (proj1 (List.Forall_forall _ _) Hs x Hx) as Hlat. simpl in Hlat.
  pose proof (proj1 (forallb_forall _ _) latin1_outcomes_settled x
                (latin1_enum x Hlat)) as Hcheck. simpl in Hcheck.
  pose proof (proj1 (forallb_forall _ _) Hcheck y Hy) as Hout. simpl in Hout.
  unfold latin1_outcome in Hout. simpl in Hmn.
  apply negb_true_iff in Hmn. rewrite Hmn in Hout.
  rewrite Hl in Hout. simpl in Hc. by rewrite Hc in Hout.
Qed.

Lemma fmap_fixed {A} (f : A → A) (l : list A) :
  Forall (λ x, f x = x) l → f <$> l = l.
Proof. induction 1 as [|x l Hx _ IH]; [done |]. by rewrite fmap_cons, Hx, IH. Qed.

Lemma settled_fixed (l : pystr) :
  Forall (λ c, latin1_settled c = true) l → normalize_column_name l = l.
Proof.
  intros Hl.
  assert (Hparts : Forall (λ c, latin1_decompose c = [c] ∧ latin1_is_Mn c = false ∧
                                latin1_isspace c = false ∧ latin1_lower c = c ∧
                                (c =? SPACE)%N = false ∧
                                latin1_isalnum c || (c =? UNDERSCORE)%N = true) l).
  { eapply Forall_impl; [exact Hl |]. intros c Hc. unfold latin1_settled in Hc.
    repeat (apply andb_true_iff in Hc as [Hc ?]).
    apply bool_decide_eq_true in Hc.
    repeat match goal with H : negb _ = true |- _ => apply negb_true_iff in H end.
    repeat split; try done. by apply N.eqb_eq. }
  clear Hl. rewrite normalize_column_name_filter. simpl.
  assert (Hnfd : mjoin (latin1_decompose <$> l) = l).
  { induction Hparts as [|c l (Hd & _) _ IH]; [done |].
    rewrite fmap_cons. change (mjoin (?x :: ?xs)) with (x ++ mjoin xs).
    by rewrite Hd, IH. }
  rewrite Hnfd.
  rewrite (filter_all (λ c, negb (latin1_is_Mn c)) l);
    [| eapply Forall_impl; [exact Hparts |];
       intros c (_ & Hm & _); simpl; by rewrite Hm].
  assert (Hls : ∀ k : pystr, Forall (λ c, latin1_isspace c = false) k → lstrip k = k).
  { intros k Hk. destruct Hk as [|c k Hc _]; [done |].
    change (lstrip (c :: k)) with (if latin1_isspace c then lstrip k else c :: k).
    by rewrite Hc. }
  assert (Hsp : Forall (λ c, latin1_isspace c = false) l).
  { eapply Forall_impl; [exact Hparts |]. by intros c (_ & _ & ? & _). }
  assert (Hstrip : strip l = l).
  { unfold strip. rewrite (Hls l Hsp), Hls; [apply rev_involutive |].
    apply Forall_forall. intros c Hc%list_elem_of_In%in_rev%list_elem_of_In.
    by apply (proj1 (Forall_forall _ _) Hsp). }
  rewrite Hstrip.
  rewrite (fmap_fixed latin1_lower l);
    [| eapply Forall_impl; [exact Hparts |]; by intros c (_ & _ & _ & ? & _)].
  unfold replace_space_underscore.
  rewrite (fmap_fixed _ l);
    [| eapply Forall_impl; [exact Hparts |];
       intros c (_ & _ & _ & _ & Hc & _); simpl; by rewrite Hc].
  apply filter_all. eapply Forall_impl; [exact Hparts |].
  by intros c (_ & _ & _ & _ & _ & ?).
Qed.

End Idempotence.

(** X19.  On labels of Basic Latin and Latin-1, normalizing a normalized
    name changes nothing. *)
Theorem normalize_column_name_idempotent (s : pystr) :
  Forall (λ c, in_latin1 c = true) s →
  normalize_column_name (normalize_column_name s) = normalize_column_name s.
Proof. intros Hs. by apply settled_fixed, normalize_output_settled. Qed.

(** The label of the location column. *)
Lemma normalize_column_name_idempotent_witness :
  normalize_column_name (py "referencia_de_localizacion")
    = py "referencia_de_localizacion".
Proof.
  etrans; [| apply (normalize_column_name_idempotent
                      referencia_de_localizacion_label)].
  - vm_compute; reflexivity.
  - vm_compute. repeat constructor.
Defined.

Section AggregateFacts.

Lemma Qmax_ge (a b : Q) : (a <= Qmax a b ∧ b <= Qmax a b)%Q.
Proof.
  unfold Qmax. destruct (Qle_bool a b) eqn:Hab.
  - apply Qle_bool_iff in Hab. split; [done | apply Qle_refl].
  - apply Qle_bool_false_iff in Hab. split; [apply Qle_refl | lra].
Qed.

Lemma Qmin_le (a b : Q) : (Qmin a b <= a ∧ Qmin a b <= b)%Q.
Proof.
  unfold Qmin. destruct (Qle_bool a b) eqn:Hab.
  - apply Qle_bool_iff in Hab. split; [apply Qle_refl | done].
  - apply Qle_bool_false_iff in Hab. split; [lra | apply Qle_refl].
Qed.

Lemma foldr_Qmax_ge (x : Q) (xs : list Q) (y : Q) :
  In y (x :: xs) → (y <= foldr Qmax x xs)%Q.
Proof.
  induction xs as [|z xs IH]; simpl.
  - intros [<- | []]. apply Qle_refl.
  - intros [<- | [<- | Hy]].
    + pose proof (Qmax_ge z (foldr Qmax x xs)) as [_ H2].
      eapply Qle_trans; [apply IH; by left | exact H2].
    + apply Qmax_ge.
    + pose proof (Qmax_ge z (foldr Qmax x xs)) as [_ H2].
      eapply Qle_trans; [apply IH; by right | exact H2].
Qed.

Lemma foldr_Qmin_le (x : Q) (xs : list Q) (y : Q) :
  In y (x :: xs) → (foldr Qmin x xs <= y)%Q.
Proof.
  induction xs as [|z xs IH]; simpl.
  - intros [<- | []]. apply Qle_refl.
  - intros [<- | [<- | Hy]].
    + pose proof (Qmin_le z (foldr Qmin x xs)) as [_ H2].
      eapply Qle_trans; [exact H2 | apply IH; by left].
    + apply Qmin_le.
    + pose proof (Qmin_le z (foldr Qmin x xs)) as [_ H2].
      eapply Qle_trans; [exact H2 | apply IH; by right].
Qed.

Lemma MAX_bound (l : list (option Q)) (mx m : Q) :
  MAX l = Some mx → In (Some m) l → (m <= mx)%Q.
Proof.
  unfold MAX. intros Hmx Hm.
  assert (Hin : In m (omap id l)).
  { apply list_elem_of_In, list_elem_of_omap. exists (Some m).
    split; [by apply list_elem_of_In | done]. }
  destruct (omap id l) as [|x xs]; [done |]. injection Hmx as <-.
  by apply foldr_Qmax_ge.
Qed.

Lemma MIN_bound (l : list (option Q)) (mn m : Q) :
  MIN l = Some mn → In (Some m) l → (mn <= m)%Q.
Proof.
  unfold MIN. intros Hmn Hm.
  assert (Hin : In m (omap id l)).
  { apply list_elem_of_In, list_elem_of_omap. exists (Some m).
    split; [by apply list_elem_of_In | done]. }
  destruct (omap id l) as [|x xs]; [done |]. injection Hmn as <-.
  by apply foldr_Qmin_le.
Qed.

Lemma months_present (l : list analytics_row) :
  forallb (λ r, is_true (is_not_null (month r))) l = true
  ↔ Forall (λ a, is_Some (month a)) l.
Proof.
  rewrite forallb_forall, Forall_forall. split; intros Hall a Ha.
  - apply list_elem_of_In, Hall in Ha. by destruct (month a); [eexists |].
  - apply list_elem_of_In, Hall in Ha as [x ->]. done.
Qed.

(** A row without a month makes the statement fail. *)
Lemma aggregate_needs_months (today : date) (w : warehouse) (a : analytics_row) :
  In a (analytics_earthquakes w) → month a = None →
  AGGREGATE_STATISTICS_SQL today w = Err NullFieldName.
Proof.
  intros Ha Hm. unfold AGGREGATE_STATISTICS_SQL.
  destruct (forallb _ _) eqn:Hall; [| done].
  apply months_present in Hall.
  apply list_elem_of_In in Ha.
  destruct (proj1 (Forall_forall _ _) Hall a Ha) as [x Hx]. congruence.
Qed.

Lemma filter_length_le {A} (P : A → bool) (l : list A) :
  (length (List.filter P l) ≤ length l)%nat.
Proof. induction l as [|x l IH]; simpl; [done |]. destruct (P x); simpl; lia. Qed.

End AggregateFacts.

(** X20.  The scalar columns of the statistics statement.  It appends
    one row and leaves the raw and analytics tables alone; the total is
    the number of analytics rows of all batches.  On an empty table the
    averages, the extrema and the significant count are all NULL.  On a
    non-empty table the significant count is the number of rows flagged
    TRUE (a NULL flag does not count) and is at most the total; every
    magnitude lies between the minimum and the maximum.  The by-month
    mapping of the statement needs every month to be present. *)
Theorem aggregate_statistics_row (today : date) (w : warehouse) :
  Forall (λ a, is_Some (month a)) (analytics_earthquakes w) →
  ∃ row,
    AGGREGATE_STATISTICS_SQL today w =
      Ok {| raw_earthquakes := raw_earthquakes w;
            analytics_earthquakes := analytics_earthquakes w;
            earthquake_statistics := earthquake_statistics w ++ [row] |} ∧
    calculation_date row = today ∧
    total_earthquakes row = Z.of_nat (length (analytics_earthquakes w)) ∧
    (analytics_earthquakes w = [] →
       avg_magnitude row = None ∧ max_magnitude row = None ∧
       min_magnitude row = None ∧ avg_depth row = None ∧
       significant_count row = None) ∧
    (analytics_earthquakes w ≠ [] →
       ∃ k, significant_count row = Some k ∧ 0 ≤ k ≤ total_earthquakes row ∧
            k = Z.of_nat (length (List.filter
                  (λ a, bool_decide (is_significant a = Some true))
                  (analytics_earthquakes w)))) ∧
    (∀ a m, In a (analytics_earthquakes w) → magnitude a = Some m →
       ∃ mn mx, min_magnitude row = Some mn ∧ max_magnitude row = Some mx ∧
                (mn <= m <= mx)%Q).
Proof.
  intros Hmonths%months_present. unfold AGGREGATE_STATISTICS_SQL.
  rewrite Hmonths. simpl. eexists. split; [reflexivity |]. simpl.
  split; [done |]. split; [done |]. split; [| split].
  - by intros ->.
  - intros Hne. destruct (analytics_earthquakes w) as [|a0 l] eqn:Ha; [done |].
    eexists. split; [done |].
    assert (Heq : List.filter (λ r, is_true (is_significant r)) (a0 :: l)
                  = List.filter (λ a, bool_decide (is_significant a = Some true))
                      (a0 :: l)).
    { apply filter_ext. intros a. by destruct (is_significant a) as [[]|]. }
    rewrite Heq. split; [| done].
    pose proof (filter_length_le
      (λ a, bool_decide (is_significant a = Some true)) (a0 :: l)). lia.
  - intros a m Ha Hm.
    assert (Hin : In (Some m) (magnitude <$> analytics_earthquakes w)).
    { apply in_map_iff. exists a. done. }
    destruct (MAX (magnitude <$> analytics_earthquakes w)) as [mx|] eqn:Hmx.
    2:{ unfold MAX in Hmx.
        assert (In m (omap id (magnitude <$> analytics_earthquakes w))).
        { apply list_elem_of_In, list_elem_of_omap. exists (Some m).
          split; [by apply list_elem_of_In | done]. }
        destruct (omap id _); done. }
    destruct (MIN (magnitude <$> analytics_earthquakes w)) as [mn|] eqn:Hmn.
    2:{ unfold MIN in Hmn.
        assert (In m (omap id (magnitude <$> analytics_earthquakes w))).
        { apply list_elem_of_In, list_elem_of_omap. exists (Some m).
          split; [by apply list_elem_of_In | done]. }
        destruct (omap id _); done. }
    exists mn, mx. split; [done |]. split; [done |].
    split; [by eapply MIN_bound | by eapply MAX_bound].
Qed.

(** The statistics of a table of one event. *)
Lemma aggregate_statistics_row_witness :
  ∃ row,
    AGGREGATE_STATISTICS_SQL (mkDate 2024 1 1)
      (mkWarehouse [] [good_analytics] [])
      = Ok (mkWarehouse [] [good_analytics] [row]) ∧
    total_earthquakes row = 1 ∧ significant_count row = Some 1.
Proof.
  destruct (aggregate_statistics_row (mkDate 2024 1 1)
              (mkWarehouse [] [good_analytics] []))
    as (row & Heq & _ & Htot & _ & Hsig & _).
  - repeat constructor. simpl. eauto.
  - exists row. split; [exact Heq |]. split; [exact Htot |].
    destruct Hsig as (k & Hk & _ & ->); [discriminate |]. exact Hk.
Defined.
